(** * Gaussian-process inversion by MCMC: a shallow embedding of [functions.py]

    The Python module builds a squared-exponential covariance, evaluates
    Gaussian log-densities and runs two Metropolis-Hastings samplers
    ([grw] and [pcn]).  This development embeds those functions and proves
    the properties stated about them.

    Modelling conventions.
    - A Python call either returns a value or raises: [outcome].
    - The global [np.random] state is threaded explicitly: [np].
    - The samplers are embedded over an abstract scalar type [F] with the
      float operations they use ([FloatOps]); nothing is assumed about
      those operations, so the sampler theorems hold for IEEE doubles with
      their NaNs and infinities as well as for the reals.
    - The densities and the kernel are embedded over the real numbers, the
      usual idealisation of float64 (no rounding, overflow or underflow);
      statements about them are restricted to the inputs on which float64
      differs from the reals by rounding only.
    - Where the behaviour depends on float64 itself (a square that
      underflows or overflows, a quotient that is rounded before its
      ceiling is taken) the code is embedded over binary64 floats:
      [Float64].
    - numpy arrays are lists; arrays are taken to be conformal (the shapes
      the docstrings describe), so element-wise operations pair entries up
      and no broadcasting or shape error is modelled.
    - numpy/scipy routines that are not part of the module
      ([np.linalg.cholesky], [np.linalg.inv], the random generator,
      [norm.cdf]) are section variables. *)

From Stdlib Require Import List ZArith QArith Reals Lra Lia Bool.
From Stdlib Require PrimFloat SpecFloat FloatOps FloatAxioms.
Import ListNotations.

Set Implicit Arguments.

(** ** Python outcomes *)

Inductive exn : Set :=
| ZeroDivisionError
| TypeError
| ValueError
| AssertionError
| LinAlgError
| NotImplementedError
| OverflowError.

Inductive outcome (A : Type) : Type :=
| Returns (a : A)
| Raises (e : exn).

Arguments Returns {A} a.
Arguments Raises {A} e.

Definition raised {A : Type} (o : outcome A) : Prop :=
  exists e, o = Raises e.

(** A Python value of the density family: a float or [None]. *)
Inductive pyval (F : Type) : Type :=
| PyNone
| PyFloat (x : F).

Arguments PyNone {F}.
Arguments PyFloat {F} x.

(** The float operations the module uses.  [f_lit] reads a literal or
    converts an int; [x > y] on floats is [fltb y x]. *)
Class FloatOps (F : Type) : Type := {
  f_lit : Q -> F;
  fadd : F -> F -> F;
  fsub : F -> F -> F;
  fmul : F -> F -> F;
  fpow : F -> nat -> F;
  fsqrt : F -> F;
  flog : F -> F;
  fltb : F -> F -> bool
}.

(** [acc / n_iters] on two Python ints: true division, which raises on a
    zero divisor.  The quotient is kept exact. *)
Definition int_truediv (a b : Z) : outcome Q :=
  if (b =? 0)%Z then Raises ZeroDivisionError
  else Returns (inject_Z a / inject_Z b)%Q.

(** ** Arrays *)

Definition vec (F : Type) : Type := list F.
Definition matrix (F : Type) : Type := list (list F).

Section Arrays.
Context {F : Type} `{FloatOps F}.

#[local] Abbreviation vec := (vec F).
#[local] Abbreviation matrix := (matrix F).

Definition zip_with (f : F -> F -> F) (a b : vec) : vec :=
  map (fun p => f (fst p) (snd p)) (combine a b).

Definition vadd (a b : vec) : vec := zip_with fadd a b.
Definition vsub (a b : vec) : vec := zip_with fsub a b.
Definition vscale (c : F) (v : vec) : vec := map (fmul c) v.

Definition vsum (v : vec) : F := fold_left fadd v (f_lit 0).
Definition dot (a b : vec) : F := vsum (zip_with fmul a b).

(** [M @ v] and [v @ M] for a 1-D [v]. *)
Definition matvec (M : matrix) (v : vec) : vec :=
  map (fun row => dot row v) M.

Definition ncols (M : matrix) : nat := length (hd [] M).

Definition column (M : matrix) (j : nat) : vec :=
  map (fun row => nth j row (f_lit 0)) M.

Definition transpose (M : matrix) : matrix :=
  map (column M) (seq 0 (ncols M)).

Definition vecmat (v : vec) (M : matrix) : vec :=
  map (fun col => dot v col) (transpose M).

Definition matmul (A B : matrix) : matrix :=
  map (fun row => vecmat row B) A.

Definition madd (A B : matrix) : matrix :=
  map (fun p => vadd (fst p) (snd p)) (combine A B).

Definition mscale (c : F) (M : matrix) : matrix := map (vscale c) M.

(** [np.eye(N)] *)
Definition eye (N : nat) : matrix :=
  map (fun i => map (fun j => if Nat.eqb i j then f_lit 1 else f_lit 0)
                    (seq 0 N))
      (seq 0 N).

(** Dynamically typed arithmetic on the values the densities return. *)
Definition py_add (a b : pyval F) : outcome (pyval F) :=
  match a, b with
  | PyFloat x, PyFloat y => Returns (PyFloat (fadd x y))
  | _, _ => Raises TypeError
  end.

Definition py_sub (a b : pyval F) : outcome (pyval F) :=
  match a, b with
  | PyFloat x, PyFloat y => Returns (PyFloat (fsub x y))
  | _, _ => Raises TypeError
  end.

Definition py_gt (a b : pyval F) : outcome bool :=
  match a, b with
  | PyFloat x, PyFloat y => Returns (fltb y x)
  | _, _ => Raises TypeError
  end.
End Arrays.

(** ** The [np.random] state monad *)

Section RandomState.
Variable rng : Type.

Definition np (A : Type) : Type := rng -> outcome (A * rng).

Definition ret {A : Type} (a : A) : np A := fun g => Returns (a, g).

Definition bind {A B : Type} (c : np A) (k : A -> np B) : np B :=
  fun g =>
    match c g with
    | Returns (a, g') => k a g'
    | Raises e => Raises e
    end.

Definition raise {A : Type} (e : exn) : np A := fun _ => Raises e.

(** A call that does not touch the generator. *)
Definition call {A : Type} (o : outcome A) : np A :=
  fun g =>
    match o with
    | Returns a => Returns (a, g)
    | Raises e => Raises e
    end.

(** A draw: consumes generator state and cannot fail. *)
Definition draw {A : Type} (f : rng -> A * rng) : np A :=
  fun g => Returns (f g).

(** [for i in range(n): s = body(s)] for a body that ignores [i]. *)
Fixpoint for_range {S : Type} (n : nat) (body : S -> np S) (s : S) : np S :=
  match n with
  | O => ret s
  | Datatypes.S n' => bind (body s) (for_range n' body)
  end.

(** What a call hands back to its caller, the generator state apart. *)
Definition result {A : Type} (o : outcome (A * rng)) : outcome A :=
  match o with
  | Returns (a, _) => Returns a
  | Raises e => Raises e
  end.
End RandomState.

Arguments ret {rng A} a.
Arguments raise {rng A} e.
Arguments call {rng A} o.

Declare Scope np_scope.
Delimit Scope np_scope with np.
Notation "x <- c ;; k" := (bind c (fun x => k))
  (at level 61, c at next level, right associativity) : np_scope.

(** [n] consecutive steps of a relation. *)
Inductive iterate {S : Type} (R : S -> S -> Prop) : nat -> S -> S -> Prop :=
| iterate_O : forall s, iterate R O s s
| iterate_S : forall n s s' s'',
    R s s' -> iterate R n s' s'' -> iterate R (Datatypes.S n) s s''.

(** ** The samplers *)

Section Samplers.
Context {F : Type} `{FloatOps F}.

(** The global generator: [np.random.normal(0, 1, shape)] for a 1-D
    shape of the given length, and [np.random.random()]. *)
#[local] Abbreviation vec := (vec F).
#[local] Abbreviation matrix := (matrix F).

Variable rng : Type.
Variable np_random_normal : nat -> rng -> vec * rng.
Variable np_random_random : rng -> F * rng.

(** [np.linalg.cholesky] raises [LinAlgError] on a matrix that is not
    positive definite, [np.linalg.inv] on a singular one. *)
Variable np_linalg_cholesky : matrix -> outcome matrix.
Variable np_linalg_inv : matrix -> outcome matrix.

(** The observed data: whatever the density passed in accepts. *)
Variable Data : Type.

Local Open Scope np_scope.

(** The loop-carried variables of both samplers; [lp_prev] is
    [lt_prev] in [grw] and [ll_prev] in [pcn]. *)
Record chain : Type := Chain {
  X : list vec;
  acc : Z;
  u_prev : vec;
  lp_prev : pyval F
}.

Definition jittered (K : matrix) : matrix :=
  madd K (mscale (f_lit (1 # 1000000)) (eye (length K))).

(** *** [grw] *)

Definition grw_iter
    (log_target : vec -> Data -> matrix -> matrix -> outcome (pyval F))
    (data : Data) (K_inverse G Kc : matrix) (beta : F)
    (s : chain) : np rng chain :=
  z <- draw (np_random_normal (length (u_prev s))) ;;
  let zeta := matvec Kc z in
  let u_new := vadd (u_prev s) (vscale beta zeta) in
  lt_new <- call (log_target u_new data K_inverse G) ;;
  log_alpha <- call (py_sub lt_new (lp_prev s)) ;;
  r <- draw np_random_random ;;
  let log_u := flog r in
  accept <- call (py_gt log_alpha (PyFloat log_u)) ;;
  if accept : bool then
    ret (Chain (X s ++ [u_new]) (acc s + 1) u_new lt_new)
  else
    ret (Chain (X s ++ [u_prev s]) (acc s) (u_prev s) (lp_prev s)).

Definition grw
    (log_target : vec -> Data -> matrix -> matrix -> outcome (pyval F))
    (u0 : vec) (data : Data) (K G : matrix) (n_iters : Z) (beta : F)
    : np rng (list vec * Q) :=
  Kc <- call (np_linalg_cholesky (jittered K)) ;;
  Kc_inverse <- call (np_linalg_inv Kc) ;;
  let K_inverse := matmul (transpose Kc_inverse) Kc_inverse in
  lt_prev <- call (log_target u0 data K_inverse G) ;;
  s <- for_range (Z.to_nat n_iters)
         (grw_iter log_target data K_inverse G Kc beta)
         (Chain [] 0 u0 lt_prev) ;;
  rate <- call (int_truediv (acc s) n_iters) ;;
  ret (X s, rate).

(** *** [pcn] *)

Definition pcn_iter
    (log_likelihood : vec -> Data -> matrix -> outcome (pyval F))
    (y : Data) (G Kc : matrix) (beta : F)
    (s : chain) : np rng chain :=
  z <- draw (np_random_normal (length (u_prev s))) ;;
  let zeta := matvec Kc z in
  let u_new :=
    vadd (vscale (fsqrt (fsub (f_lit 1) (fpow beta 2))) (u_prev s))
         (vscale beta zeta) in
  ll_new <- call (log_likelihood u_new y G) ;;
  log_alpha <- call (py_sub ll_new (lp_prev s)) ;;
  r <- draw np_random_random ;;
  let log_u := flog r in
  accept <- call (py_gt log_alpha (PyFloat log_u)) ;;
  if accept : bool then
    ret (Chain (X s ++ [u_new]) (acc s + 1) u_new ll_new)
  else
    ret (Chain (X s ++ [u_prev s]) (acc s) (u_prev s) (lp_prev s)).

Definition pcn
    (log_likelihood : vec -> Data -> matrix -> outcome (pyval F))
    (u0 : vec) (y : Data) (K G : matrix) (n_iters : Z) (beta : F)
    : np rng (list vec * Q) :=
  Kc <- call (np_linalg_cholesky (jittered K)) ;;
  Kc_inverse <- call (np_linalg_inv Kc) ;;
  let K_inverse := matmul (transpose Kc_inverse) Kc_inverse in
  ll_prev <- call (log_likelihood u0 y G) ;;
  s <- for_range (Z.to_nat n_iters)
         (pcn_iter log_likelihood y G Kc beta)
         (Chain [] 0 u0 ll_prev) ;;
  rate <- call (int_truediv (acc s) n_iters) ;;
  ret (X s, rate).

(** *** One iteration, as the design describes it

    These relations follow the wording of the algorithm descriptions,
    independently of the code above: draw the noise, propose, evaluate,
    compare [log U] with the difference, then book-keep. *)

Inductive grw_step_spec
    (log_target : vec -> Data -> matrix -> matrix -> outcome (pyval F))
    (data : Data) (K_inverse G Kc : matrix) (beta : F)
    : chain * rng -> chain * rng -> Prop :=
| grw_step_accept : forall s g z g1 U g2 lt_new lt_old,
    np_random_normal (length (u_prev s)) g = (z, g1) ->
    log_target (vadd (u_prev s) (vscale beta (matvec Kc z)))
               data K_inverse G = Returns (PyFloat lt_new) ->
    lp_prev s = PyFloat lt_old ->
    np_random_random g1 = (U, g2) ->
    fltb (flog U) (fsub lt_new lt_old) = true ->
    grw_step_spec log_target data K_inverse G Kc beta
      (s, g)
      (Chain (X s ++ [vadd (u_prev s) (vscale beta (matvec Kc z))])
             (acc s + 1)
             (vadd (u_prev s) (vscale beta (matvec Kc z)))
             (PyFloat lt_new),
       g2)
| grw_step_reject : forall s g z g1 U g2 lt_new lt_old,
    np_random_normal (length (u_prev s)) g = (z, g1) ->
    log_target (vadd (u_prev s) (vscale beta (matvec Kc z)))
               data K_inverse G = Returns (PyFloat lt_new) ->
    lp_prev s = PyFloat lt_old ->
    np_random_random g1 = (U, g2) ->
    fltb (flog U) (fsub lt_new lt_old) = false ->
    grw_step_spec log_target data K_inverse G Kc beta
      (s, g)
      (Chain (X s ++ [u_prev s]) (acc s) (u_prev s) (lp_prev s), g2).

(** The pCN proposal. *)
Definition pcn_proposal (beta : F) (u zeta : vec) : vec :=
  vadd (vscale (fsqrt (fsub (f_lit 1) (fpow beta 2))) u)
       (vscale beta zeta).

Inductive pcn_step_spec
    (log_likelihood : vec -> Data -> matrix -> outcome (pyval F))
    (y : Data) (G Kc : matrix) (beta : F)
    : chain * rng -> chain * rng -> Prop :=
| pcn_step_accept : forall s g z g1 U g2 ll_new ll_old,
    np_random_normal (length (u_prev s)) g = (z, g1) ->
    log_likelihood (pcn_proposal beta (u_prev s) (matvec Kc z)) y G
      = Returns (PyFloat ll_new) ->
    lp_prev s = PyFloat ll_old ->
    np_random_random g1 = (U, g2) ->
    fltb (flog U) (fsub ll_new ll_old) = true ->
    pcn_step_spec log_likelihood y G Kc beta
      (s, g)
      (Chain (X s ++ [pcn_proposal beta (u_prev s) (matvec Kc z)])
             (acc s + 1)
             (pcn_proposal beta (u_prev s) (matvec Kc z))
             (PyFloat ll_new),
       g2)
| pcn_step_reject : forall s g z g1 U g2 ll_new ll_old,
    np_random_normal (length (u_prev s)) g = (z, g1) ->
    log_likelihood (pcn_proposal beta (u_prev s) (matvec Kc z)) y G
      = Returns (PyFloat ll_new) ->
    lp_prev s = PyFloat ll_old ->
    np_random_random g1 = (U, g2) ->
    fltb (flog U) (fsub ll_new ll_old) = false ->
    pcn_step_spec log_likelihood y G Kc beta
      (s, g)
      (Chain (X s ++ [u_prev s]) (acc s) (u_prev s) (lp_prev s), g2).

(** One step appends one state and accepts at most once. *)
Definition counts_one (a b : chain * rng) : Prop :=
  length (X (fst b)) = Datatypes.S (length (X (fst a)))
  /\ (acc (fst a) <= acc (fst b) <= acc (fst a) + 1)%Z.

(** The cached log-density is a float. *)
Definition holds_float (s : chain) : Prop :=
  exists x, lp_prev s = PyFloat x.

(** A density that returns a float on every state. *)
Definition float_valued (f : vec -> outcome (pyval F)) : Prop :=
  forall u, exists x, f u = Returns (PyFloat x).
End Samplers.

(** ** Calls that only return or raise *)

Definition obind {A B : Type} (o : outcome A) (k : A -> outcome B)
  : outcome B :=
  match o with
  | Returns a => k a
  | Raises e => Raises e
  end.

Declare Scope outcome_scope.
Delimit Scope outcome_scope with outcome.
Notation "x <- c ;; k" := (obind c (fun x => k))
  (at level 61, c at next level, right associativity) : outcome_scope.

(** ** Floats as real numbers

    The reals stand for float64 up to rounding.  [sqrt] and [ln] are total
    on the reals ([sqrt x = 0] for a negative [x], [ln x = 0] for
    [x <= 0]) where numpy yields a NaN and [-inf]: the statements over
    the reals whose conclusion depends on such a value keep to step-sizes
    with [1 - beta^2 >= 0] and to uniform draws in [(0, 1)], where the two
    agree. *)

Definition Rltb (x y : R) : bool := if Rlt_dec x y then true else false.

#[export] Instance R_FloatOps : FloatOps R := {|
  f_lit := Q2R;
  fadd := Rplus;
  fsub := Rminus;
  fmul := Rmult;
  fpow := pow;
  fsqrt := sqrt;
  flog := ln;
  fltb := Rltb
|}.

(** ** [GaussianKernel] *)

Section Kernel.
Local Open Scope R_scope.

(** [scipy.spatial.distance_matrix(x, y)] with the default [p = 2]:
    entry [(i, j)] is [sum(|y[j] - x[i]| ** 2) ** (1/2)]. *)
Definition minkowski_distance (a b : vec R) : R :=
  sqrt (vsum (map (fun d => Rabs d ^ 2) (vsub b a))).

Definition distance_matrix (x y : list (vec R)) : matrix R :=
  map (fun xi => map (fun yj => minkowski_distance xi yj) y) x.

Definition GaussianKernel (x : list (vec R)) (l : R) : matrix R :=
  let D := distance_matrix x x in
  map (map (fun d => exp (- d ^ 2 / (2 * l ^ 2)))) D.

(** The length-scales whose square is an ordinary float64, neither
    rounded to zero nor beyond the largest double: between [1e-150] and
    [1e150] in absolute value. *)
Definition safe_length_scale (l : R) : Prop :=
  / 10 ^ 150 <= Rabs l <= 10 ^ 150.

(** The Euclidean distance as the design words it. *)
Definition euclidean (a b : vec R) : R :=
  sqrt (fold_right Rplus 0 (map (fun p => (fst p - snd p) ^ 2) (combine a b))).

(** Entry [(i, j)] of a matrix. *)
Definition entry (M : matrix R) (i j : nat) : R := nth j (nth i M []) 0.
End Kernel.

(** ** Densities *)

Section Densities.
Local Open Scope R_scope.

Definition drop_nth {A : Type} (j : nat) (l : list A) : list A :=
  firstn j l ++ skipn (S j) l.

(** The determinant, by expansion along the first row. *)
Fixpoint det_n (n : nat) (M : matrix R) : R :=
  match n with
  | O => 1
  | S n' =>
      match M with
      | [] => 1
      | row :: rest =>
          fold_right Rplus 0
            (map (fun j => (-1) ^ j * nth j row 0
                           * det_n n' (map (drop_nth j) rest))
                 (seq 0 (length row)))
      end
  end.

Definition det (M : matrix R) : R := det_n (length M) M.

Definition sgn (x : R) : R :=
  if Rlt_dec 0 x then 1 else if Rlt_dec x 0 then -1 else 0.

(** [np.linalg.slogdet]: the sign of the determinant and the logarithm of
    its absolute value.  (On a singular matrix numpy returns [-inf] for
    the logarithm, which the reals do not have.) *)
Definition np_linalg_slogdet (M : matrix R) : R * R :=
  (sgn (det M), ln (Rabs (det M))).

Definition log_prior (u : vec R) (K_inverse : matrix R)
  : outcome (pyval R) :=
  let d := length u in
  let mahalanobis := dot (vecmat u K_inverse) u in
  let '(sign, logdetK_inv) := np_linalg_slogdet K_inverse in
  let logdetK := - logdetK_inv in
  let log_pdf := - 0.5 * mahalanobis
                 - 0.5 * logdetK
                 - 0.5 * INR d * ln (2 * PI) in
  Returns (PyFloat log_pdf).

Definition log_continuous_likelihood (u v : vec R) (G : matrix R)
  : outcome (pyval R) :=
  let v_true := matvec G u in
  let noise := vsub v v_true in
  let mahalanobis := vsum (map (fun x => x ^ 2) noise) in
  let n := length v in
  let log_pdf := - 0.5 * mahalanobis - 0.5 * INR n * ln (2 * PI) in
  Returns (PyFloat log_pdf).

(** [scipy.stats.norm.cdf], applied element-wise. *)
Variable norm_cdf : R -> R.

(** A bare [return] hands back [None]. *)
Definition log_probit_likelihood (u t : vec R) (G : matrix R)
  : outcome (pyval R) :=
  let phi := map norm_cdf (matvec G u) in
  Returns PyNone.

Definition log_poisson_likelihood (u c : vec R) (G : matrix R)
  : outcome (pyval R) :=
  Returns PyNone.

Local Open Scope outcome_scope.

Definition log_continuous_target (u y : vec R) (K_inverse G : matrix R)
  : outcome (pyval R) :=
  a <- log_prior u K_inverse ;;
  b <- log_continuous_likelihood u y G ;;
  py_add a b.

Definition log_probit_target (u t : vec R) (K_inverse G : matrix R)
  : outcome (pyval R) :=
  a <- log_prior u K_inverse ;;
  b <- log_probit_likelihood u t G ;;
  py_add a b.

Definition log_poisson_target (u c : vec R) (K_inverse G : matrix R)
  : outcome (pyval R) :=
  a <- log_prior u K_inverse ;;
  b <- log_poisson_likelihood u c G ;;
  py_add a b.
End Densities.

(** ** float64

    Rocq's binary64 floats, whose operations are the IEEE 754 ones that
    Python floats and numpy's float64 arrays use.  What is embedded here is
    what the properties below need at the edge of the float range: the
    arithmetic of [GaussianKernel] and the size computed by [subsample]. *)

Module Float64.
Import PrimFloat.
Local Open Scope float_scope.

(** A Python number: an int or a float. *)
Inductive number : Set :=
| IntNum (n : Z)
| FloatNum (x : float).

(** A Python int as an exact binary number, before any rounding. *)
Definition exact (n : Z) : SpecFloat.spec_float :=
  match n with
  | Z0 => SpecFloat.S754_zero false
  | Zpos p => SpecFloat.S754_finite false p 0
  | Zneg p => SpecFloat.S754_finite true p 0
  end.

(** Python refuses a float result that left the finite range. *)
Definition checked (x : float) : outcome float :=
  if is_infinity x then Raises OverflowError else Returns x.

(** [float(n)]: the nearest double, ties to even. *)
Definition float_of_int (n : Z) : outcome float :=
  checked (FloatOps.SF2Prim
             (SpecFloat.binary_normalize FloatOps.prec FloatOps.emax n 0 false)).

(** [a / b] on two Python ints: the exact quotient, rounded once. *)
Definition long_true_divide (a b : Z) : outcome float :=
  if (b =? 0)%Z then Raises ZeroDivisionError
  else checked (FloatOps.SF2Prim
                  (SpecFloat.SFdiv FloatOps.prec FloatOps.emax
                     (exact a) (exact b))).

(** [a / b] on two Python floats. *)
Definition float_div (a b : float) : outcome float :=
  if b =? 0 then Raises ZeroDivisionError else Returns (a / b).

(** [N / factor] for an int [N]: an int divisor gives int true division,
    a float divisor converts [N] first. *)
Definition truediv (N : Z) (factor : number) : outcome float :=
  match factor with
  | IntNum b => long_true_divide N b
  | FloatNum b =>
      match float_of_int N with
      | Returns a => float_div a b
      | Raises e => Raises e
      end
  end.

(** [factor >= 1]; a comparison with NaN is false. *)
Definition ge_one (factor : number) : bool :=
  match factor with
  | IntNum b => (1 <=? b)%Z
  | FloatNum b => 1 <=? b
  end.

(** [int(np.ceil(q))]: the least integer not below [q], exactly; Python
    cannot convert an infinity or a NaN. *)
Definition int_of_ceil (q : float) : outcome Z :=
  match FloatOps.Prim2SF q with
  | SpecFloat.S754_zero _ => Returns 0%Z
  | SpecFloat.S754_finite s m e =>
      let a := SpecFloat.cond_Zopp s (Zpos m) in
      Returns (if (0 <=? e)%Z then (a * 2 ^ e)%Z
               else (- ((- a) / 2 ^ (- e)))%Z)
  | SpecFloat.S754_infinity _ => Raises OverflowError
  | SpecFloat.S754_nan => Raises ValueError
  end.

(** [np.sum] over the last axis of a short float64 array adds from left
    to right. *)
Definition vsum (v : list float) : float := fold_left add v 0.

(** [scipy.spatial.minkowski_distance] at [p = 2]:
    [np.sum(np.abs(y - x) ** 2, axis=-1) ** (1 / 2)]; numpy squares by a
    product and takes [** 0.5] by a square root. *)
Definition minkowski_distance (a b : list float) : float :=
  sqrt (vsum (map (fun p => abs (snd p - fst p) * abs (snd p - fst p))
                  (combine a b))).

Definition distance_matrix (x y : list (list float)) : list (list float) :=
  map (fun xi => map (fun yj => minkowski_distance xi yj) y) x.

(** [pow(l, 2)] on a Python float: the square as float64 rounds it,
    refused with [OverflowError] when a finite [l] has an infinite square.
    (The C library's [pow] may differ from the rounded product in the last
    bit; nothing below depends on that bit.) *)
Definition py_pow2 (l : float) : outcome float :=
  let r := l * l in
  if andb (is_infinity r) (negb (is_infinity l)) then Raises OverflowError
  else Returns r.

(** [2 * pow(l, 2)] *)
Definition denominator (l : float) : outcome float :=
  match py_pow2 l with
  | Returns l2 => Returns (2 * l2)
  | Raises e => Raises e
  end.

(** One entry of [-pow(D, 2) / (2 * pow(l, 2))], for the distance [d]
    and the denominator [c]. *)
Definition exponent (d c : float) : float := - (d * d) / c.

(** The array handed to [np.exp]: [-pow(D, 2) / (2 * pow(l, 2))]. *)
Definition exponents (x : list (list float)) (l : float)
  : outcome (list (list float)) :=
  let D := distance_matrix x x in
  match denominator l with
  | Returns c => Returns (map (map (fun d => exponent d c)) D)
  | Raises e => Raises e
  end.

(** [GaussianKernel] on float64 arrays and a Python float length-scale;
    [np_exp] is numpy's element-wise exponential. *)
Definition GaussianKernel (np_exp : float -> float)
    (x : list (list float)) (l : float) : outcome (list (list float)) :=
  match exponents x l with
  | Returns E => Returns (map (map np_exp) E)
  | Raises e => Raises e
  end.

(** Entry [(i, j)] of a float matrix. *)
Definition entry (M : list (list float)) (i j : nat) : float :=
  nth j (nth i M []) nan.

(** A float that is neither a NaN nor an infinity. *)
Definition finite (a : float) : bool :=
  match FloatOps.Prim2SF a with
  | SpecFloat.S754_zero _ | SpecFloat.S754_finite _ _ _ => true
  | _ => false
  end.

(** [0 < a]: not a zero, not a NaN, not negative. *)
Definition positive (a : float) : bool := 0 <? a.
End Float64.

(** ** [subsample] *)

Section Subsample.
Variable rng : Type.

(** [np.random.seed(s)] replaces the global state by one that depends on
    [s] alone; numpy accepts seeds in [0, 2**32 - 1]. *)
Variable seeded : Z -> rng.

(** [np.random.choice(N, size, replace=False)] *)
Variable np_random_choice : Z -> Z -> np rng (list Z).

Definition np_random_seed (s : Z) : np rng unit :=
  fun _ =>
    if ((0 <=? s) && (s <? 2 ^ 32))%Z then Returns (tt, seeded s)
    else Raises ValueError.

(** Truthiness of the [seed] argument: [None] and [0] are falsy. *)
Definition truthy (seed : option Z) : bool :=
  match seed with
  | None => false
  | Some s => negb (s =? 0)%Z
  end.

Local Open Scope np_scope.

(** [N] is a Python int, [factor] an int or a float; the quotient
    [N / factor] is a float64 and is rounded before [np.ceil] sees it. *)
Definition subsample (N : Z) (factor : Float64.number) (seed : option Z)
  : np rng (list Z) :=
  if negb (Float64.ge_one factor) then raise AssertionError
  else
    q <- call (Float64.truediv N factor) ;;
    N_sub <- call (Float64.int_of_ceil q) ;;
    _ <- match seed with
         | Some s => if truthy seed then np_random_seed s else ret tt
         | None => ret tt
         end ;;
    idx <- np_random_choice N N_sub ;;
    ret idx.
End Subsample.

(** ** numpy's linear algebra over the reals

    By-value models of [np.linalg.cholesky] and [np.linalg.inv], used to
    run the samplers on concrete inputs. *)

Section RealLinAlg.
Local Open Scope R_scope.

Definition is_square (M : matrix R) : bool :=
  forallb (fun row => Nat.eqb (length row) (length M)) M.

(** Entries left of the diagonal of one row of the factor: [L] holds the
    rows above that are still to be used, [partial] the entries found so
    far. *)
Fixpoint chol_offdiag (L : matrix R) (a_row partial : vec R) : vec R :=
  match L with
  | [] => partial
  | Lj :: L' =>
      let j := length partial in
      let x := (nth j a_row 0 - dot partial Lj) / nth j Lj 0 in
      chol_offdiag L' a_row (partial ++ [x])
  end.

Definition chol_row (N : nat) (L : matrix R) (a_row : vec R)
  : outcome (vec R) :=
  let partial := chol_offdiag L a_row [] in
  let i := length L in
  let d := nth i a_row 0 - dot partial partial in
  if Rlt_dec 0 d
  then Returns (partial ++ [sqrt d] ++ repeat 0 (N - i - 1))
  else Raises LinAlgError.

Fixpoint chol_rows (N : nat) (L rows : matrix R) : outcome (matrix R) :=
  match rows with
  | [] => Returns L
  | a_row :: rows' =>
      match chol_row N L a_row with
      | Returns r => chol_rows N (L ++ [r]) rows'
      | Raises e => Raises e
      end
  end.

Definition cholesky (A : matrix R) : outcome (matrix R) :=
  if is_square A then chol_rows (length A) [] A else Raises LinAlgError.

Definition minor (r c : nat) (M : matrix R) : matrix R :=
  map (drop_nth c) (drop_nth r M).

Definition adjugate_over (d : R) (M : matrix R) : matrix R :=
  map (fun i =>
         map (fun j => (-1) ^ (i + j) * det (minor j i M) / d)
             (seq 0 (length M)))
      (seq 0 (length M)).

Definition inv (M : matrix R) : outcome (matrix R) :=
  if is_square M then
    if Req_dec_T (det M) 0 then Raises LinAlgError
    else Returns (adjugate_over (det M) M)
  else Raises LinAlgError.
End RealLinAlg.

(** ** Generators for concrete runs *)

(** A generator that replays a recorded sequence of draws. *)
Definition tape : Type := list R.

Definition tape_normal (n : nat) (g : tape) : vec R * tape :=
  (firstn n g ++ repeat 0%R (n - length g), skipn n g).

Definition tape_random (g : tape) : R * tape :=
  (hd (1 / 2)%R g, tl g).

(** A generator for [np.random.choice(N, size, replace=False)] whose
    state is a counter: it returns [size] consecutive indices modulo [N],
    starting at the counter. *)
Definition counter_seeded (s : Z) : Z := s.

Definition counter_choice (N size : Z) : np Z (list Z) :=
  fun g =>
    if ((N <? size) || (size <? 0))%Z then Raises ValueError
    else Returns (map (fun i => ((g + Z.of_nat i) mod N)%Z)
                      (seq 0 (Z.to_nat size)),
                  (g + 1)%Z).

(** ** A one-point problem for concrete runs

    One coordinate, unit prior variance, the point observed directly. *)

Definition one_K : matrix R := [[1%R]].
Definition one_G : matrix R := [[1%R]].
Definition one_u0 : vec R := [0%R].
Definition one_y : vec R := [0%R].

(** The factor of [one_K + 1e-6 I] and its inverse. *)
Definition one_Kc : matrix R := [[sqrt (1 + 1 / 1000000)]].
Definition one_Kc_inverse : matrix R := [[(/ sqrt (1 + 1 / 1000000))%R]].
Definition one_K_inverse : matrix R :=
  matmul (transpose one_Kc_inverse) one_Kc_inverse.

(** [pcn] and [grw] on the reals, with a replayed generator. *)
Definition pcn_R := pcn tape_normal tape_random cholesky inv (Data := vec R).
Definition grw_R := grw tape_normal tape_random cholesky inv (Data := vec R).

(** ** [get_G] and [probit] *)

Section Observation.
Local Open Scope R_scope.

(** [np.zeros((M, N))] *)
Definition np_zeros (M N : nat) : matrix R := repeat (repeat 0 N) M.

(** numpy's reading of an integer index along an axis of length [N]:
    [-N <= k < 0] counts from the end, anything outside [-N, N) is an
    [IndexError], rendered as [None]. *)
Definition normalize_index (N : nat) (k : Z) : option nat :=
  if ((0 <=? k) && (k <? Z.of_nat N))%Z then Some (Z.to_nat k)
  else if ((- Z.of_nat N <=? k) && (k <? 0))%Z
       then Some (Z.to_nat (k + Z.of_nat N))
       else None.

(** [l[n] = v] on a list that has position [n]. *)
Fixpoint set_nth {A : Type} (n : nat) (v : A) (l : list A) : list A :=
  match l, n with
  | [], _ => []
  | _ :: l', O => v :: l'
  | x :: l', S n' => x :: set_nth n' v l'
  end.

(** [G[i, j] = v], an update in place of row [i]. *)
Definition set_entry (G : matrix R) (i j : nat) (v : R) : matrix R :=
  set_nth i (set_nth j v (nth i G [])) G.

(** The body of the loop of [get_G]: [G[i, idx[i]] = 1]. *)
Definition get_G_iter (N : nat) (idx : list Z) (G : matrix R) (i : nat)
  : option (matrix R) :=
  match normalize_index N (nth i idx 0%Z) with
  | Some j => Some (set_entry G i j 1)
  | None => None
  end.

Definition get_G (N : nat) (idx : list Z) : option (matrix R) :=
  let M := length idx in
  let G := np_zeros M N in
  fold_left
    (fun acc i =>
       match acc with
       | Some G' => get_G_iter N idx G' i
       | None => None
       end)
    (seq 0 M) (Some G).

(** A row of zeros with a one at position [j]. *)
Definition one_hot (N j : nat) : vec R :=
  map (fun c => if Nat.eqb c j then 1 else 0) (seq 0 N).

(** [probit]: the comprehension yields Python ints. *)
Definition probit (v : vec R) : list Z :=
  map (fun x => if Rltb x 0 then 0%Z else 1%Z) v.

End Observation.

(** A generator whose every uniform draw is [1/2] and every normal draw
    is [1]. *)
Definition steady_normal (n : nat) (g : unit) : vec R * unit :=
  (repeat 1%R n, g).

Definition steady_random (g : unit) : R * unit := ((1 / 2)%R, g).

Arguments chain : clear implicits.

(** * Properties *)

Unset Implicit Arguments.

(** ** Loops and counting *)

Section Loops.
Variables (rng S : Type).
Variable body : S -> np rng S.
Variable R : S * rng -> S * rng -> Prop.
Variable Inv : S -> Prop.

Hypothesis body_step : forall s g,
  Inv s ->
  exists s' g', body s g = Returns (s', g') /\ R (s, g) (s', g') /\ Inv s'.

(** A loop whose body always returns and keeps the invariant runs to the
    end, and its run is [n] steps of the relation the body refines. *)
Lemma for_range_iterate : forall n s g,
  Inv s ->
  exists s' g',
    for_range n body s g = Returns (s', g')
    /\ iterate R n (s, g) (s', g')
    /\ Inv s'.
Proof.
  induction n as [| n IH]; intros s g Hs.
  - exists s, g. repeat split; [constructor | assumption].
  - destruct (body_step s g Hs) as (s1 & g1 & Hb & Hr & Hi).
    destruct (IH s1 g1 Hi) as (s2 & g2 & Hl & Hit & Hi2).
    exists s2, g2. repeat split; trivial.
    + simpl. unfold bind. rewrite Hb. exact Hl.
    + econstructor; eassumption.
Qed.
End Loops.

Lemma for_range_zero (rng S : Type) (body : S -> np rng S) (s : S) (g : rng) :
  for_range (Z.to_nat 0) body s g = Returns (s, g).
Proof. reflexivity. Qed.

Section Counting.
Context {F : Type} (rng : Type).
Variable R : chain F * rng -> chain F * rng -> Prop.

Hypothesis R_counts : forall a b, R a b -> counts_one a b.

Lemma iterate_counts : forall n a b,
  iterate R n a b ->
  length (X (fst b)) = (length (X (fst a)) + n)%nat
  /\ (acc (fst a) <= acc (fst b) <= acc (fst a) + Z.of_nat n)%Z.
Proof.
  intros n a b Hit. induction Hit as [s | n s s' s'' Hr Hit IH].
  - split; lia.
  - destruct (R_counts _ _ Hr) as [Hl Ha]. destruct IH as [IHl IHa].
    split; lia.
Qed.
End Counting.

(** The acceptance rate of [a] accepted proposals out of [n >= 1]. *)
Lemma rate_in_unit_interval (a n : Z) :
  (0 <= a <= n)%Z -> (1 <= n)%Z ->
  (0 <= inject_Z a / inject_Z n)%Q /\ (inject_Z a / inject_Z n <= 1)%Q.
Proof.
  intros Ha Hn.
  assert (Hpos : (0 < inject_Z n)%Q).
  { change 0%Q with (inject_Z 0). rewrite <- Zlt_Qlt. lia. }
  split.
  - apply Qle_shift_div_l; trivial.
    rewrite Qmult_0_l. change 0%Q with (inject_Z 0).
    rewrite <- Zle_Qle. lia.
  - apply Qle_shift_div_r; trivial.
    rewrite Qmult_1_l. rewrite <- Zle_Qle. lia.
Qed.

Lemma int_truediv_nonzero (a n : Z) :
  (1 <= n)%Z -> int_truediv a n = Returns (inject_Z a / inject_Z n)%Q.
Proof.
  intros Hn. unfold int_truediv.
  destruct (Z.eqb_spec n 0); [lia | reflexivity].
Qed.

(** ** The samplers refine the algorithm descriptions *)

Section SamplerFacts.
Context {F : Type} `{FloatOps F}.
Variable rng : Type.
Variable np_random_normal : nat -> rng -> vec F * rng.
Variable np_random_random : rng -> F * rng.
Variable np_linalg_cholesky : matrix F -> outcome (matrix F).
Variable np_linalg_inv : matrix F -> outcome (matrix F).
Variable Data : Type.

#[local] Abbreviation run_grw :=
  (grw np_random_normal np_random_random np_linalg_cholesky np_linalg_inv).
#[local] Abbreviation run_pcn :=
  (pcn np_random_normal np_random_random np_linalg_cholesky np_linalg_inv).
#[local] Abbreviation grw_body :=
  (grw_iter np_random_normal np_random_random).
#[local] Abbreviation pcn_body :=
  (pcn_iter np_random_normal np_random_random).
#[local] Abbreviation grw_step :=
  (grw_step_spec np_random_normal np_random_random).
#[local] Abbreviation pcn_step :=
  (pcn_step_spec np_random_normal np_random_random).

Ltac run_iteration Hf s g :=
  let z := fresh "z" in let g1 := fresh "g1" in let Ez := fresh "Ez" in
  let U := fresh "U" in let g2 := fresh "g2" in let EU := fresh "EU" in
  let x := fresh "x" in let Ex := fresh "Ex" in
  let b := fresh "b" in let Eb := fresh "Eb" in
  unfold bind, draw, call;
  destruct (np_random_normal (length (u_prev s)) g) as [z g1] eqn:Ez;
  match goal with
  | |- context [match ?c with Returns _ => _ | Raises _ => _ end] =>
      match c with
      | context [z] => destruct (Hf _ : exists x, c = Returns (PyFloat x))
                         as [x Ex]; rewrite Ex
      end
  end;
  cbn [py_sub py_gt];
  destruct (np_random_random g1) as [U g2] eqn:EU;
  match goal with
  | |- context [fltb ?a ?d] => destruct (fltb a d) eqn:Eb
  end.

Lemma grw_iter_step
    (log_target : vec F -> Data -> matrix F -> matrix F -> outcome (pyval F))
    (data : Data) (K_inverse G Kc : matrix F) (beta : F) :
  (forall u, exists x, log_target u data K_inverse G = Returns (PyFloat x)) ->
  forall s g,
    holds_float s ->
    exists s' g',
      grw_body log_target data K_inverse G Kc beta s g = Returns (s', g')
      /\ grw_step log_target data K_inverse G Kc beta (s, g) (s', g')
      /\ holds_float s'.
Proof.
  intros Hf s g [p Hp]. unfold grw_iter. rewrite Hp.
  run_iteration Hf s g.
  - eexists _, _. split; [reflexivity |]. split.
    + eapply grw_step_accept; eauto.
    + eexists; reflexivity.
  - eexists _, _. split; [reflexivity |]. split.
    + rewrite <- Hp. eapply grw_step_reject; eauto.
    + exists p. reflexivity.
Qed.

Lemma pcn_iter_step
    (log_likelihood : vec F -> Data -> matrix F -> outcome (pyval F))
    (y : Data) (G Kc : matrix F) (beta : F) :
  (forall u, exists x, log_likelihood u y G = Returns (PyFloat x)) ->
  forall s g,
    holds_float s ->
    exists s' g',
      pcn_body log_likelihood y G Kc beta s g = Returns (s', g')
      /\ pcn_step log_likelihood y G Kc beta (s, g) (s', g')
      /\ holds_float s'.
Proof.
  intros Hf s g [p Hp]. unfold pcn_iter. rewrite Hp.
  run_iteration Hf s g.
  - eexists _, _. split; [reflexivity |]. split.
    + eapply pcn_step_accept; eauto.
    + eexists; reflexivity.
  - eexists _, _. split; [reflexivity |]. split.
    + rewrite <- Hp. eapply pcn_step_reject; eauto.
    + exists p. reflexivity.
Qed.

Lemma grw_step_counts log_target (data : Data) K_inverse G Kc beta a b :
  grw_step log_target data K_inverse G Kc beta a b -> counts_one a b.
Proof.
  intros Hs. inversion Hs; subst; unfold counts_one; cbn [fst X acc];
    rewrite length_app; cbn [length]; split; lia.
Qed.

Lemma pcn_step_counts log_likelihood (y : Data) G Kc beta a b :
  pcn_step log_likelihood y G Kc beta a b -> counts_one a b.
Proof.
  intros Hs. inversion Hs; subst; unfold counts_one; cbn [fst X acc];
    rewrite length_app; cbn [length]; split; lia.
Qed.

(** What [grw] returns once the factorisation succeeded and the target
    is float valued: the loop runs to the end and only the final division
    can still fail. *)
Lemma grw_run
    (log_target : vec F -> Data -> matrix F -> matrix F -> outcome (pyval F))
    (u0 : vec F) (data : Data) (K G : matrix F) (n_iters : Z) (beta : F)
    (Kc Kc_inverse : matrix F) (g : rng) :
  np_linalg_cholesky (jittered K) = Returns Kc ->
  np_linalg_inv Kc = Returns Kc_inverse ->
  (forall u, exists x,
      log_target u data (matmul (transpose Kc_inverse) Kc_inverse) G
      = Returns (PyFloat x)) ->
  exists lt0 sf gf,
    log_target u0 data (matmul (transpose Kc_inverse) Kc_inverse) G
      = Returns (PyFloat lt0)
    /\ iterate
         (grw_step log_target data
            (matmul (transpose Kc_inverse) Kc_inverse) G Kc beta)
         (Z.to_nat n_iters) (Chain [] 0 u0 (PyFloat lt0), g) (sf, gf)
    /\ run_grw log_target u0 data K G n_iters beta g
       = match int_truediv (acc sf) n_iters with
         | Returns rate => Returns ((X sf, rate), gf)
         | Raises e => Raises e
         end.
Proof.
  intros Hc Hi Hf.
  destruct (Hf u0) as [lt0 Hlt0].
  destruct (for_range_iterate _ _ _ _ _ (grw_iter_step log_target data _ G Kc beta Hf)
              (Z.to_nat n_iters) (Chain [] 0 u0 (PyFloat lt0)) g)
    as (sf & gf & Hloop & Hit & _);
    [exists lt0; reflexivity |].
  exists lt0, sf, gf. repeat split; trivial.
  unfold grw, bind, call. rewrite Hc, Hi, Hlt0, Hloop.
  destruct (int_truediv (acc sf) n_iters); reflexivity.
Qed.

Lemma pcn_run
    (log_likelihood : vec F -> Data -> matrix F -> outcome (pyval F))
    (u0 : vec F) (y : Data) (K G : matrix F) (n_iters : Z) (beta : F)
    (Kc Kc_inverse : matrix F) (g : rng) :
  np_linalg_cholesky (jittered K) = Returns Kc ->
  np_linalg_inv Kc = Returns Kc_inverse ->
  (forall u, exists x, log_likelihood u y G = Returns (PyFloat x)) ->
  exists ll0 sf gf,
    log_likelihood u0 y G = Returns (PyFloat ll0)
    /\ iterate (pcn_step log_likelihood y G Kc beta)
         (Z.to_nat n_iters) (Chain [] 0 u0 (PyFloat ll0), g) (sf, gf)
    /\ run_pcn log_likelihood u0 y K G n_iters beta g
       = match int_truediv (acc sf) n_iters with
         | Returns rate => Returns ((X sf, rate), gf)
         | Raises e => Raises e
         end.
Proof.
  intros Hc Hi Hf.
  destruct (Hf u0) as [ll0 Hll0].
  destruct (for_range_iterate _ _ _ _ _ (pcn_iter_step log_likelihood y G Kc beta Hf)
              (Z.to_nat n_iters) (Chain [] 0 u0 (PyFloat ll0)) g)
    as (sf & gf & Hloop & Hit & _);
    [exists ll0; reflexivity |].
  exists ll0, sf, gf. repeat split; trivial.
  unfold pcn, bind, call. rewrite Hc, Hi, Hll0, Hloop.
  destruct (int_truediv (acc sf) n_iters); reflexivity.
Qed.

(** C2.  With a successful factorisation, a float-valued target and
    [n_iters >= 1], a run of [grw] is [n_iters] iterations of the
    described step, started from [u0] with its cached log-target and an
    empty chain: each iteration draws [z], forms [zeta = Kc z], proposes
    [u_prev + beta zeta], evaluates the target there, draws [U] and
    accepts iff [log U < lt_new - lt_prev]; on accept it appends the
    proposal, replaces [u_prev] and [lt_prev] and counts it, on reject it
    appends [u_prev] and changes nothing else.  [grw] returns the chain
    and accepted count of the last state. *)
Theorem grw_follows_algorithm
    (log_target : vec F -> Data -> matrix F -> matrix F -> outcome (pyval F))
    (u0 : vec F) (data : Data) (K G : matrix F) (n_iters : Z) (beta : F)
    (Kc Kc_inverse : matrix F) (g : rng) :
  (1 <= n_iters)%Z ->
  np_linalg_cholesky (jittered K) = Returns Kc ->
  np_linalg_inv Kc = Returns Kc_inverse ->
  (forall u, exists x,
      log_target u data (matmul (transpose Kc_inverse) Kc_inverse) G
      = Returns (PyFloat x)) ->
  exists lt0 sf gf,
    log_target u0 data (matmul (transpose Kc_inverse) Kc_inverse) G
      = Returns (PyFloat lt0)
    /\ iterate
         (grw_step log_target data
            (matmul (transpose Kc_inverse) Kc_inverse) G Kc beta)
         (Z.to_nat n_iters) (Chain [] 0 u0 (PyFloat lt0), g) (sf, gf)
    /\ run_grw log_target u0 data K G n_iters beta g
       = Returns ((X sf, (inject_Z (acc sf) / inject_Z n_iters)%Q), gf).
Proof.
  intros Hn Hc Hi Hf.
  destruct (grw_run log_target u0 data K G n_iters beta Kc Kc_inverse g
              Hc Hi Hf)
    as (lt0 & sf & gf & H0 & Hit & Hrun).
  exists lt0, sf, gf. repeat split; trivial.
  rewrite Hrun, int_truediv_nonzero by trivial. reflexivity.
Qed.

(** The chain and rate [grw] returns for [n_iters >= 1]. *)
Lemma grw_returns_chain
    (log_target : vec F -> Data -> matrix F -> matrix F -> outcome (pyval F))
    (u0 : vec F) (data : Data) (K G : matrix F) (n_iters : Z) (beta : F)
    (Kc Kc_inverse : matrix F) (g : rng) :
  (1 <= n_iters)%Z ->
  np_linalg_cholesky (jittered K) = Returns Kc ->
  np_linalg_inv Kc = Returns Kc_inverse ->
  (forall u, exists x,
      log_target u data (matmul (transpose Kc_inverse) Kc_inverse) G
      = Returns (PyFloat x)) ->
  exists lt0 sf gf,
    iterate
      (grw_step log_target data
         (matmul (transpose Kc_inverse) Kc_inverse) G Kc beta)
      (Z.to_nat n_iters) (Chain [] 0 u0 (PyFloat lt0), g) (sf, gf)
    /\ run_grw log_target u0 data K G n_iters beta g
       = Returns ((X sf, (inject_Z (acc sf) / inject_Z n_iters)%Q), gf)
    /\ length (X sf) = Z.to_nat n_iters
    /\ (0 <= acc sf <= n_iters)%Z
    /\ (0 <= inject_Z (acc sf) / inject_Z n_iters)%Q
    /\ (inject_Z (acc sf) / inject_Z n_iters <= 1)%Q.
Proof.
  intros Hn Hc Hi Hf.
  destruct (grw_run log_target u0 data K G n_iters beta Kc Kc_inverse g
              Hc Hi Hf) as (lt0 & sf & gf & H0 & Hit & Hrun).
  destruct (iterate_counts rng _ (grw_step_counts _ _ _ _ _ _) _ _ _ Hit)
    as [Hlen Hacc].
  cbn [fst X acc length] in Hlen, Hacc.
  assert (Ha : (0 <= acc sf <= n_iters)%Z) by lia.
  exists lt0, sf, gf. repeat split; try tauto; try lia.
  - rewrite Hrun, int_truediv_nonzero by trivial. reflexivity.
  - apply rate_in_unit_interval; trivial.
  - apply rate_in_unit_interval; trivial.
Qed.

Lemma pcn_returns_chain
    (log_likelihood : vec F -> Data -> matrix F -> outcome (pyval F))
    (u0 : vec F) (y : Data) (K G : matrix F) (n_iters : Z) (beta : F)
    (Kc Kc_inverse : matrix F) (g : rng) :
  (1 <= n_iters)%Z ->
  np_linalg_cholesky (jittered K) = Returns Kc ->
  np_linalg_inv Kc = Returns Kc_inverse ->
  (forall u, exists x, log_likelihood u y G = Returns (PyFloat x)) ->
  exists ll0 sf gf,
    iterate (pcn_step log_likelihood y G Kc beta)
      (Z.to_nat n_iters) (Chain [] 0 u0 (PyFloat ll0), g) (sf, gf)
    /\ run_pcn log_likelihood u0 y K G n_iters beta g
       = Returns ((X sf, (inject_Z (acc sf) / inject_Z n_iters)%Q), gf)
    /\ length (X sf) = Z.to_nat n_iters
    /\ (0 <= acc sf <= n_iters)%Z
    /\ (0 <= inject_Z (acc sf) / inject_Z n_iters)%Q
    /\ (inject_Z (acc sf) / inject_Z n_iters <= 1)%Q.
Proof.
  intros Hn Hc Hi Hf.
  destruct (pcn_run log_likelihood u0 y K G n_iters beta Kc Kc_inverse g
              Hc Hi Hf) as (ll0 & sf & gf & H0 & Hit & Hrun).
  destruct (iterate_counts rng _ (pcn_step_counts _ _ _ _ _) _ _ _ Hit)
    as [Hlen Hacc].
  cbn [fst X acc length] in Hlen, Hacc.
  assert (Ha : (0 <= acc sf <= n_iters)%Z) by lia.
  exists ll0, sf, gf. repeat split; try tauto; try lia.
  - rewrite Hrun, int_truediv_nonzero by trivial. reflexivity.
  - apply rate_in_unit_interval; trivial.
  - apply rate_in_unit_interval; trivial.
Qed.

(** C3.  For [n_iters >= 1], a successful factorisation and float-valued
    densities, [grw] and [pcn] each return a chain of exactly [n_iters]
    states (every iteration, accepted or rejected, appends one) together
    with the rate [acc / n_iters], where [acc] is the accepted count of
    the final loop state; [0 <= acc <= n_iters], so the rate lies in
    [[0, 1]]. *)
Theorem samplers_chain_length_and_rate
    (log_target : vec F -> Data -> matrix F -> matrix F -> outcome (pyval F))
    (log_likelihood : vec F -> Data -> matrix F -> outcome (pyval F))
    (u0 : vec F) (data : Data) (K G : matrix F) (n_iters : Z) (beta : F)
    (Kc Kc_inverse : matrix F) (g : rng) :
  (1 <= n_iters)%Z ->
  np_linalg_cholesky (jittered K) = Returns Kc ->
  np_linalg_inv Kc = Returns Kc_inverse ->
  (forall u, exists x,
      log_target u data (matmul (transpose Kc_inverse) Kc_inverse) G
      = Returns (PyFloat x)) ->
  (forall u, exists x, log_likelihood u data G = Returns (PyFloat x)) ->
  (exists lt0 sf gf,
      iterate
        (grw_step log_target data
           (matmul (transpose Kc_inverse) Kc_inverse) G Kc beta)
        (Z.to_nat n_iters) (Chain [] 0 u0 (PyFloat lt0), g) (sf, gf)
      /\ run_grw log_target u0 data K G n_iters beta g
         = Returns ((X sf, (inject_Z (acc sf) / inject_Z n_iters)%Q), gf)
      /\ length (X sf) = Z.to_nat n_iters
      /\ (0 <= acc sf <= n_iters)%Z
      /\ (0 <= inject_Z (acc sf) / inject_Z n_iters)%Q
      /\ (inject_Z (acc sf) / inject_Z n_iters <= 1)%Q)
  /\
  (exists ll0 sf gf,
      iterate (pcn_step log_likelihood data G Kc beta)
        (Z.to_nat n_iters) (Chain [] 0 u0 (PyFloat ll0), g) (sf, gf)
      /\ run_pcn log_likelihood u0 data K G n_iters beta g
         = Returns ((X sf, (inject_Z (acc sf) / inject_Z n_iters)%Q), gf)
      /\ length (X sf) = Z.to_nat n_iters
      /\ (0 <= acc sf <= n_iters)%Z
      /\ (0 <= inject_Z (acc sf) / inject_Z n_iters)%Q
      /\ (inject_Z (acc sf) / inject_Z n_iters <= 1)%Q).
Proof.
  intros Hn Hc Hi Hft Hfl. split.
  - eapply grw_returns_chain; eassumption.
  - eapply pcn_returns_chain; eassumption.
Qed.

(** C9.  With [n_iters = 0] the loop body never runs, and after the
    factorisation and the first density evaluation both samplers raise
    [ZeroDivisionError] at [acc / n_iters]; no empty chain is returned.
    [n_iters] is not checked on entry: when the factorisation fails, its
    error is what a call with [n_iters = 0] raises. *)
Theorem samplers_zero_iterations
    (log_target : vec F -> Data -> matrix F -> matrix F -> outcome (pyval F))
    (log_likelihood : vec F -> Data -> matrix F -> outcome (pyval F))
    (u0 : vec F) (data : Data) (K G : matrix F) (beta : F)
    (Kc Kc_inverse : matrix F) (v w : pyval F) (g : rng) :
  np_linalg_cholesky (jittered K) = Returns Kc ->
  np_linalg_inv Kc = Returns Kc_inverse ->
  log_target u0 data (matmul (transpose Kc_inverse) Kc_inverse) G
    = Returns v ->
  log_likelihood u0 data G = Returns w ->
  for_range (Z.to_nat 0)
    (grw_body log_target data
       (matmul (transpose Kc_inverse) Kc_inverse) G Kc beta)
    (Chain [] 0 u0 v) g = Returns (Chain [] 0 u0 v, g)
  /\ for_range (Z.to_nat 0) (pcn_body log_likelihood data G Kc beta)
       (Chain [] 0 u0 w) g = Returns (Chain [] 0 u0 w, g)
  /\ run_grw log_target u0 data K G 0 beta g = Raises ZeroDivisionError
  /\ run_pcn log_likelihood u0 data K G 0 beta g = Raises ZeroDivisionError
  /\ (forall (K' : matrix F) (e : exn),
         np_linalg_cholesky (jittered K') = Raises e ->
         run_grw log_target u0 data K' G 0 beta g = Raises e
         /\ run_pcn log_likelihood u0 data K' G 0 beta g = Raises e).
Proof.
  intros Hc Hi Hv Hw. repeat split.
  - unfold grw, bind, call. rewrite Hc, Hi, Hv. reflexivity.
  - unfold pcn, bind, call. rewrite Hc, Hi, Hw. reflexivity.
  - unfold grw, bind, call. rewrite H0. reflexivity.
  - unfold pcn, bind, call. rewrite H0. reflexivity.
Qed.

(** [n_iters] is not looked at on entry: whatever its value, an error of
    the factorisation is what the caller sees. *)
Lemma samplers_factorise_first
    (log_target : vec F -> Data -> matrix F -> matrix F -> outcome (pyval F))
    (log_likelihood : vec F -> Data -> matrix F -> outcome (pyval F))
    (u0 : vec F) (data : Data) (K G : matrix F) (n_iters : Z) (beta : F)
    (e : exn) (g : rng) :
  np_linalg_cholesky (jittered K) = Raises e ->
  run_grw log_target u0 data K G n_iters beta g = Raises e
  /\ run_pcn log_likelihood u0 data K G n_iters beta g = Raises e.
Proof.
  intros Hc. split.
  - unfold grw, bind, call. rewrite Hc. reflexivity.
  - unfold pcn, bind, call. rewrite Hc. reflexivity.
Qed.

(** A likelihood that returns [None] makes the first subtraction
    [ll_new - ll_prev] raise [TypeError]: nothing is appended to a chain. *)
Lemma pcn_none_likelihood_raises
    (log_likelihood : vec F -> Data -> matrix F -> outcome (pyval F))
    (u0 : vec F) (y : Data) (K G : matrix F) (n_iters : Z) (beta : F)
    (Kc Kc_inverse : matrix F) (g : rng) :
  (1 <= n_iters)%Z ->
  np_linalg_cholesky (jittered K) = Returns Kc ->
  np_linalg_inv Kc = Returns Kc_inverse ->
  (forall u, log_likelihood u y G = Returns PyNone) ->
  run_pcn log_likelihood u0 y K G n_iters beta g = Raises TypeError.
Proof.
  intros Hn Hc Hi Hf.
  unfold pcn, bind, call. rewrite Hc, Hi, Hf.
  destruct (Z.to_nat n_iters) as [| n] eqn:En; [lia |].
  cbn [for_range]. unfold pcn_iter. unfold bind, draw, call.
  cbn [u_prev lp_prev].
  destruct (np_random_normal (length u0) g) as [z g1].
  rewrite Hf. reflexivity.
Qed.

(** C1.  With a successful factorisation, a float-valued likelihood and
    [n_iters >= 1], a run of [pcn] is [n_iters] iterations of the
    described step: draw [z], form [zeta = Kc z], propose
    [sqrt(1 - beta^2) u_prev + beta zeta], evaluate the likelihood there,
    draw [U] and accept iff [log U < ll_new - ll_prev].  The step is
    determined by the likelihood, [y], [G], [Kc] and [beta] alone, and the
    whole result is the same whatever inverse (hence whatever [K_inverse],
    the only ingredient of the prior density) the run computes: the prior
    log-density takes no part in the acceptance decision. *)
Theorem pcn_follows_algorithm
    (log_likelihood : vec F -> Data -> matrix F -> outcome (pyval F))
    (u0 : vec F) (y : Data) (K G : matrix F) (n_iters : Z) (beta : F)
    (Kc Kc_inverse : matrix F) (g : rng) :
  (1 <= n_iters)%Z ->
  np_linalg_cholesky (jittered K) = Returns Kc ->
  np_linalg_inv Kc = Returns Kc_inverse ->
  (forall u, exists x, log_likelihood u y G = Returns (PyFloat x)) ->
  (exists ll0 sf gf,
      log_likelihood u0 y G = Returns (PyFloat ll0)
      /\ iterate (pcn_step log_likelihood y G Kc beta)
           (Z.to_nat n_iters) (Chain [] 0 u0 (PyFloat ll0), g) (sf, gf)
      /\ run_pcn log_likelihood u0 y K G n_iters beta g
         = Returns ((X sf, (inject_Z (acc sf) / inject_Z n_iters)%Q), gf))
  /\
  (forall (other_inv : matrix F -> outcome (matrix F)) (other : matrix F),
      other_inv Kc = Returns other ->
      pcn np_random_normal np_random_random np_linalg_cholesky other_inv
          log_likelihood u0 y K G n_iters beta g
      = run_pcn log_likelihood u0 y K G n_iters beta g).
Proof.
  intros Hn Hc Hi Hf. split.
  - destruct (pcn_run log_likelihood u0 y K G n_iters beta Kc Kc_inverse g
                Hc Hi Hf) as (ll0 & sf & gf & H0 & Hit & Hrun).
    exists ll0, sf, gf. repeat split; trivial.
    rewrite Hrun, int_truediv_nonzero by trivial. reflexivity.
  - intros other_inv other Ho.
    unfold pcn, bind, call. rewrite Hc, Hi, Ho. reflexivity.
Qed.

End SamplerFacts.

(** ** The kernel *)

Section KernelFacts.
Local Open Scope R_scope.

Lemma Q2R_zero : Q2R 0 = 0.
Proof. unfold Q2R. simpl. lra. Qed.

Lemma Q2R_one : Q2R 1 = 1.
Proof. unfold Q2R. simpl. lra. Qed.

Lemma fold_left_Rplus (l : list R) (a : R) :
  fold_left Rplus l a = a + fold_right Rplus 0 l.
Proof.
  revert a. induction l as [| x l IH]; intros a; simpl.
  - lra.
  - rewrite IH. lra.
Qed.

Lemma vsum_fold_right (l : vec R) : vsum l = fold_right Rplus 0 l.
Proof.
  unfold vsum. rewrite fold_left_Rplus. simpl. rewrite Q2R_zero. lra.
Qed.

Lemma squared_differences (a b : vec R) :
  map (fun d => Rabs d ^ 2) (vsub b a)
  = map (fun p => (fst p - snd p) ^ 2) (combine a b).
Proof.
  unfold vsub, zip_with. revert b.
  induction a as [| x a IH]; intros [| y b]; simpl; trivial.
  f_equal; [| apply IH].
  unfold Rabs. destruct (Rcase_abs (y - x)); ring.
Qed.

Lemma minkowski_is_euclidean (a b : vec R) :
  minkowski_distance a b = euclidean a b.
Proof.
  unfold minkowski_distance, euclidean.
  rewrite vsum_fold_right, squared_differences. reflexivity.
Qed.

Lemma euclidean_sym (a b : vec R) : euclidean a b = euclidean b a.
Proof.
  unfold euclidean. f_equal. revert b.
  induction a as [| x a IH]; intros [| y b];
    cbn [combine map fold_right fst snd]; trivial.
  rewrite IH. ring.
Qed.

Lemma euclidean_self (a : vec R) : euclidean a a = 0.
Proof.
  unfold euclidean.
  replace (fold_right Rplus 0 (map (fun p => (fst p - snd p) ^ 2) (combine a a)))
    with 0; [apply sqrt_0 |].
  induction a as [| x a IH]; cbn [combine map fold_right fst snd]; trivial.
  rewrite <- IH. ring.
Qed.

Lemma entry_GaussianKernel (x : list (vec R)) (l : R) (i j : nat) :
  (i < length x)%nat -> (j < length x)%nat ->
  entry (GaussianKernel x l) i j
  = exp (- minkowski_distance (nth i x []) (nth j x []) ^ 2 / (2 * l ^ 2)).
Proof.
  intros Hi Hj. unfold entry, GaussianKernel, distance_matrix.
  rewrite map_map.
  rewrite (nth_indep _ [] (map (fun d => exp (- d ^ 2 / (2 * l ^ 2)))
             (map (fun yj => minkowski_distance [] yj) x)))
    by (rewrite length_map; exact Hi).
  rewrite (map_nth (fun xi => map (fun d => exp (- d ^ 2 / (2 * l ^ 2)))
             (map (fun yj => minkowski_distance xi yj) x)) x [] i).
  rewrite map_map.
  rewrite (nth_indep _ 0
             (exp (- minkowski_distance (nth i x []) [] ^ 2 / (2 * l ^ 2))))
    by (rewrite length_map; exact Hj).
  rewrite (map_nth (fun yj =>
             exp (- minkowski_distance (nth i x []) yj ^ 2 / (2 * l ^ 2)))
             x [] j).
  reflexivity.
Qed.

Lemma GaussianKernel_shape (x : list (vec R)) (l : R) :
  length (GaussianKernel x l) = length x
  /\ forall i, (i < length x)%nat ->
       length (nth i (GaussianKernel x l) []) = length x.
Proof.
  unfold GaussianKernel, distance_matrix. rewrite map_map. split.
  - apply length_map.
  - intros i Hi.
    rewrite (nth_indep _ [] (map (fun d => exp (- d ^ 2 / (2 * l ^ 2)))
               (map (fun yj => minkowski_distance [] yj) x)))
      by (rewrite length_map; exact Hi).
    rewrite (map_nth (fun xi => map (fun d => exp (- d ^ 2 / (2 * l ^ 2)))
               (map (fun yj => minkowski_distance xi yj) x)) x [] i).
    rewrite !length_map. reflexivity.
Qed.

Lemma safe_length_scale_nonzero (l : R) : safe_length_scale l -> l <> 0.
Proof.
  intros [Hlo _] ->. rewrite Rabs_R0 in Hlo.
  assert (0 < / 10 ^ 150); [| lra].
  apply Rinv_0_lt_compat, pow_lt. lra.
Qed.

(** A length-scale between [1] and [10] in absolute value is safe. *)
Lemma safe_length_scale_units (l : R) :
  1 <= Rabs l <= 10 -> safe_length_scale l.
Proof.
  intros [Hlo Hhi]. unfold safe_length_scale.
  assert (H149 : 1 <= 10 ^ 149) by (apply pow_R1_Rle; lra).
  assert (H150 : 10 <= 10 ^ 150).
  { rewrite <- (tech_pow_Rmult 10 149). lra. }
  split; [| lra].
  apply Rle_trans with 1; [| exact Hlo].
  rewrite <- Rinv_1. apply Rinv_le_contravar; lra.
Qed.

(** Over the reals: entry [(i, j)] of [GaussianKernel x l] is
    [exp(- d(x_i, x_j)^2 / (2 l^2))] with [d] the Euclidean distance; the
    matrix is square of the size of the coordinate set, symmetric, and
    has ones on its diagonal. *)
Lemma GaussianKernel_real_entries (x : list (vec R)) (l : R) (i j : nat) :
  safe_length_scale l -> (i < length x)%nat -> (j < length x)%nat ->
  entry (GaussianKernel x l) i j
    = exp (- euclidean (nth i x []) (nth j x []) ^ 2 / (2 * l ^ 2))
  /\ entry (GaussianKernel x l) i j = entry (GaussianKernel x l) j i
  /\ entry (GaussianKernel x l) i i = 1
  /\ length (GaussianKernel x l) = length x
  /\ length (nth i (GaussianKernel x l) []) = length x.
Proof.
  intros Hl Hi Hj. apply safe_length_scale_nonzero in Hl.
  repeat split.
  - rewrite entry_GaussianKernel, minkowski_is_euclidean by trivial.
    reflexivity.
  - rewrite !entry_GaussianKernel, !minkowski_is_euclidean by trivial.
    rewrite (euclidean_sym (nth i x []) (nth j x [])). reflexivity.
  - rewrite entry_GaussianKernel, minkowski_is_euclidean by trivial.
    rewrite euclidean_self.
    replace (- 0 ^ 2 / (2 * l ^ 2)) with 0
      by (field; apply pow_nonzero with (n := 1%nat) in Hl; lra).
    apply exp_0.
  - apply GaussianKernel_shape.
  - apply GaussianKernel_shape; trivial.
Qed.
End KernelFacts.

(** ** The kernel in float64

    Facts of IEEE 754 arithmetic, from the specification of the binary64
    operations. *)

Module Float64Facts.
Import PrimFloat SpecFloat FloatOps FloatAxioms.
Local Open Scope float_scope.

Lemma sub_diag (a : float) : Float64.finite a = true -> a - a = 0.
Proof.
  intros Hf. apply Prim2SF_inj. rewrite sub_spec.
  unfold Float64.finite in Hf.
  destruct (Prim2SF a) as [s | s | | s m e]; try discriminate.
  - destruct s; reflexivity.
  - unfold SF64sub, SFsub. rewrite Z.sub_diag. reflexivity.
Qed.

Lemma binary_round_aux_abs (s : bool) (m e : Z) (l : location) :
  SFabs (binary_round_aux prec emax s m e l)
  = SFabs (binary_round_aux prec emax false m e l).
Proof.
  unfold binary_round_aux.
  destruct (shr_fexp prec emax m e l) as [mrs' e'].
  destruct (shr_fexp prec emax _ e' loc_Exact) as [mrs'' e''].
  destruct (shr_m mrs''); [reflexivity | | reflexivity].
  destruct (e'' <=? emax - prec)%Z; reflexivity.
Qed.

Lemma binary_round_abs (s : bool) (m : positive) (e : Z) :
  SFabs (binary_round prec emax s m e)
  = SFabs (binary_round prec emax false m e).
Proof.
  unfold binary_round.
  destruct (shl_align m e _) as [mz ez].
  apply binary_round_aux_abs.
Qed.

Lemma binary_normalize_abs_opp (m e : Z) :
  SFabs (binary_normalize prec emax (- m) e false)
  = SFabs (binary_normalize prec emax m e false).
Proof.
  destruct m as [| p | p]; cbn [Z.opp binary_normalize]; trivial.
  - apply binary_round_abs.
  - symmetry. apply binary_round_abs.
Qed.

Lemma abs_sub_sym (a b : float) : abs (a - b) = abs (b - a).
Proof.
  apply Prim2SF_inj. rewrite !abs_spec, !sub_spec.
  unfold SF64sub, SFsub.
  destruct (Prim2SF a) as [sa | sa | | sa ma ea];
    destruct (Prim2SF b) as [sb | sb | | sb mb eb];
    try reflexivity;
    try (destruct sa, sb; reflexivity).
  rewrite (Z.min_comm eb ea).
  rewrite <- binary_normalize_abs_opp. f_equal. f_equal. lia.
Qed.

Lemma squares_sym (a b : list float) :
  map (fun p => abs (snd p - fst p) * abs (snd p - fst p)) (combine a b)
  = map (fun p => abs (snd p - fst p) * abs (snd p - fst p)) (combine b a).
Proof.
  revert b. induction a as [| x a IH]; intros [| y b];
    cbn [combine map fst snd]; trivial.
  rewrite IH, (abs_sub_sym y x). reflexivity.
Qed.

Lemma minkowski_distance_sym (a b : list float) :
  Float64.minkowski_distance a b = Float64.minkowski_distance b a.
Proof. unfold Float64.minkowski_distance. rewrite squares_sym. reflexivity. Qed.

Lemma squares_self (a : list float) :
  forallb Float64.finite a = true ->
  map (fun p => abs (snd p - fst p) * abs (snd p - fst p)) (combine a a)
  = repeat 0 (length a).
Proof.
  induction a as [| x a IH]; cbn [forallb combine map fst snd length repeat];
    trivial.
  intros Hf. apply andb_true_iff in Hf. destruct Hf as [Hx Ha].
  rewrite IH, sub_diag by assumption. reflexivity.
Qed.

Lemma vsum_zeros (n : nat) : Float64.vsum (repeat 0 n) = 0.
Proof.
  unfold Float64.vsum. induction n as [| n IH]; cbn [repeat fold_left]; trivial.
Qed.

Lemma minkowski_distance_self (a : list float) :
  forallb Float64.finite a = true -> Float64.minkowski_distance a a = 0.
Proof.
  intros Hf. unfold Float64.minkowski_distance.
  rewrite squares_self, vsum_zeros by exact Hf. reflexivity.
Qed.

Lemma neg_zero_div (c : float) :
  Float64.positive c = true -> neg_zero / c = neg_zero.
Proof.
  unfold Float64.positive. rewrite ltb_spec. intros Hc.
  apply Prim2SF_inj. rewrite div_spec.
  change (Prim2SF 0) with (S754_zero false) in Hc.
  change (Prim2SF neg_zero) with (S754_zero true).
  destruct (Prim2SF c) as [s | s | | s m e]; try discriminate;
    destruct s; try discriminate; reflexivity.
Qed.

Lemma entry_map (f : float -> float) (x : list (list float)) (i j : nat) :
  (i < length x)%nat -> (j < length x)%nat ->
  Float64.entry (map (map f) (Float64.distance_matrix x x)) i j
  = f (Float64.minkowski_distance (nth i x []) (nth j x [])).
Proof.
  intros Hi Hj. unfold Float64.entry, Float64.distance_matrix.
  rewrite map_map.
  rewrite (nth_indep _ []
             (map f (map (fun yj => Float64.minkowski_distance [] yj) x)))
    by (rewrite length_map; exact Hi).
  rewrite (map_nth (fun xi =>
             map f (map (fun yj => Float64.minkowski_distance xi yj) x))
             x [] i).
  rewrite map_map.
  rewrite (nth_indep _ nan
             (f (Float64.minkowski_distance (nth i x []) [])))
    by (rewrite length_map; exact Hj).
  rewrite (map_nth (fun yj =>
             f (Float64.minkowski_distance (nth i x []) yj)) x [] j).
  reflexivity.
Qed.

Lemma kernel_shape (f : float -> float) (x : list (list float)) (i : nat) :
  (i < length x)%nat ->
  length (map (map f) (Float64.distance_matrix x x)) = length x
  /\ length (nth i (map (map f) (Float64.distance_matrix x x)) []) = length x.
Proof.
  intros Hi. unfold Float64.distance_matrix. rewrite !map_map. split.
  - apply length_map.
  - rewrite (nth_indep _ []
               (map f (map (fun yj => Float64.minkowski_distance [] yj) x)))
      by (rewrite length_map; exact Hi).
    rewrite (map_nth (fun xi =>
               map f (map (fun yj => Float64.minkowski_distance xi yj) x))
               x [] i).
    rewrite !length_map. reflexivity.
Qed.

Lemma GaussianKernel_value (np_exp : float -> float)
    (x : list (list float)) (l c : float) :
  Float64.denominator l = Returns c ->
  Float64.GaussianKernel np_exp x l
  = Returns (map (map (fun d => np_exp (Float64.exponent d c)))
                 (Float64.distance_matrix x x)).
Proof.
  intros Hc. unfold Float64.GaussianKernel, Float64.exponents.
  rewrite Hc. rewrite map_map. f_equal. apply map_ext. intros row.
  apply map_map.
Qed.

(** The float64 kernel: its shape, its entries, its symmetry, and the
    diagonal entry of a point with finite coordinates when the denominator
    [2 l^2] is positive. *)
Lemma GaussianKernel_float64_entries (np_exp : float -> float)
    (x : list (list float)) (l c : float) (i j : nat) :
  Float64.denominator l = Returns c ->
  Float64.positive c = true ->
  (i < length x)%nat -> (j < length x)%nat ->
  forallb Float64.finite (nth i x []) = true ->
  exists K,
    Float64.GaussianKernel np_exp x l = Returns K
    /\ length K = length x
    /\ length (nth i K []) = length x
    /\ Float64.entry K i j
       = np_exp (Float64.exponent
                   (Float64.minkowski_distance (nth i x []) (nth j x [])) c)
    /\ Float64.entry K i j = Float64.entry K j i
    /\ Float64.entry K i i = np_exp neg_zero.
Proof.
  intros Hc Hpos Hi Hj Hfin.
  eexists. split; [apply GaussianKernel_value, Hc |].
  destruct (kernel_shape (fun d => np_exp (Float64.exponent d c)) x i Hi)
    as [Hrows Hcols].
  split; [exact Hrows |]. split; [exact Hcols |].
  rewrite !entry_map by assumption.
  split; [reflexivity |]. split.
  - rewrite (minkowski_distance_sym (nth j x []) (nth i x [])). reflexivity.
  - rewrite minkowski_distance_self by exact Hfin.
    unfold Float64.exponent. change (- (0 * 0)) with neg_zero.
    rewrite neg_zero_div by exact Hpos. reflexivity.
Qed.
End Float64Facts.

(** C8, as the code has it.  Over the reals, for a length-scale whose
    square is an ordinary float64 ([1e-150 <= |l| <= 1e150]) and indices
    [i], [j] of the coordinate set, entry [(i, j)] of [GaussianKernel x l]
    is [exp(- d(x_i, x_j)^2 / (2 l^2))] with [d] the Euclidean distance;
    the matrix is square of the size of the coordinate set, symmetric, and
    has ones on its diagonal.  In float64, whenever [2 * pow(l, 2)] is
    computed and is positive (the square of [l] neither overflowed nor was
    rounded to zero), the call returns a square matrix of the size of the
    coordinate set whose entry [(i, j)] is the exponential of
    [-d^2 / (2 l^2)] as float64 computes it, which equals entry [(j, i)]
    exactly, and whose diagonal entry at a point with finite coordinates
    is [exp(-0.0)], that is, one. *)
Theorem GaussianKernel_entries :
  (forall (x : list (vec R)) (l : R) (i j : nat),
      safe_length_scale l -> (i < length x)%nat -> (j < length x)%nat ->
      entry (GaussianKernel x l) i j
        = exp (- euclidean (nth i x []) (nth j x []) ^ 2 / (2 * l ^ 2))%R
      /\ entry (GaussianKernel x l) i j = entry (GaussianKernel x l) j i
      /\ entry (GaussianKernel x l) i i = 1%R
      /\ length (GaussianKernel x l) = length x
      /\ length (nth i (GaussianKernel x l) []) = length x)
  /\ (forall (np_exp : PrimFloat.float -> PrimFloat.float)
             (x : list (list PrimFloat.float)) (l c : PrimFloat.float)
             (i j : nat),
         Float64.denominator l = Returns c ->
         Float64.positive c = true ->
         (i < length x)%nat -> (j < length x)%nat ->
         forallb Float64.finite (nth i x []) = true ->
         exists K,
           Float64.GaussianKernel np_exp x l = Returns K
           /\ length K = length x
           /\ length (nth i K []) = length x
           /\ Float64.entry K i j
              = np_exp (Float64.exponent
                          (Float64.minkowski_distance
                             (nth i x []) (nth j x [])) c)
           /\ Float64.entry K i j = Float64.entry K j i
           /\ Float64.entry K i i = np_exp PrimFloat.neg_zero).
Proof.
  split.
  - exact GaussianKernel_real_entries.
  - exact Float64Facts.GaussianKernel_float64_entries.
Qed.

(** ** The densities *)

Section DensityFacts.
Local Open Scope R_scope.

Lemma det_1x1 (a : R) : det [[a]] = a.
Proof. unfold det. simpl. ring. Qed.

Lemma sgn_negative (x : R) : x < 0 -> sgn x = -1.
Proof.
  intros Hx. unfold sgn.
  destruct (Rlt_dec 0 x); [lra |].
  destruct (Rlt_dec x 0); [reflexivity | lra].
Qed.

Lemma log_prior_value (u : vec R) (K_inverse : matrix R) :
  log_prior u K_inverse
  = Returns (PyFloat (- (1 / 2) * dot (vecmat u K_inverse) u
                      - 1 / 2 * (- ln (Rabs (det K_inverse)))
                      - INR (length u) / 2 * ln (2 * PI))).
Proof.
  unfold log_prior, np_linalg_slogdet. do 2 f_equal. lra.
Qed.

(** C6.  [log_prior u K_inverse] returns
    [-1/2 u^T K_inverse u - 1/2 L - (d/2) log(2 pi)] with [d = len(u)] and
    [L] the negated second component of [slogdet K_inverse], which is
    [log |det K_inverse|]; when that determinant is positive, [L] is the
    logarithm of the determinant of any [K] with
    [det K * det K_inverse = 1], i.e. [log det K]. *)
Theorem log_prior_formula (u : vec R) (K_inverse : matrix R) :
  log_prior u K_inverse
  = Returns (PyFloat (- (1 / 2) * dot (vecmat u K_inverse) u
                      - 1 / 2 * (- snd (np_linalg_slogdet K_inverse))
                      - INR (length u) / 2 * ln (2 * PI)))
  /\ np_linalg_slogdet K_inverse
     = (sgn (det K_inverse), ln (Rabs (det K_inverse)))
  /\ (forall K : matrix R,
        0 < det K_inverse -> det K * det K_inverse = 1 ->
        - snd (np_linalg_slogdet K_inverse) = ln (det K)).
Proof.
  split; [apply log_prior_value |]. split; [reflexivity |].
  intros K Hpos Hinv. cbn [np_linalg_slogdet snd].
  rewrite Rabs_pos_eq by lra.
  assert (HK : det K = / det K_inverse).
  { apply Rmult_eq_reg_r with (det K_inverse); [| lra].
    rewrite Hinv. field. lra. }
  rewrite HK, ln_Rinv by trivial. reflexivity.
Qed.

(** C7, as the code has it.  The sign that [slogdet] returns is bound and
    not used: for a [K_inverse] of negative determinant the sign is [-1]
    and [log_prior] still returns, with the logarithm of the absolute
    value in place of the undefined [log det]. *)
Theorem log_prior_ignores_sign (u : vec R) (K_inverse : matrix R) :
  det K_inverse < 0 ->
  fst (np_linalg_slogdet K_inverse) = -1
  /\ log_prior u K_inverse
     = Returns (PyFloat (- (1 / 2) * dot (vecmat u K_inverse) u
                         + 1 / 2 * ln (- det K_inverse)
                         - INR (length u) / 2 * ln (2 * PI))).
Proof.
  intros Hneg. split.
  - apply sgn_negative, Hneg.
  - rewrite log_prior_value, Rabs_left by trivial. do 2 f_equal. lra.
Qed.

(** C4, as the code has it.  The two placeholder likelihoods return
    [None]; the targets built on them raise [TypeError] when the
    log-prior, a float, is added to [None]. *)
Theorem placeholder_likelihoods_return_none
    (norm_cdf : R -> R) (u t c : vec R) (K_inverse G : matrix R) :
  log_probit_likelihood norm_cdf u t G = Returns PyNone
  /\ log_poisson_likelihood u c G = Returns PyNone
  /\ log_probit_target norm_cdf u t K_inverse G = Raises TypeError
  /\ log_poisson_target u c K_inverse G = Raises TypeError.
Proof.
  unfold log_probit_target, log_poisson_target.
  rewrite log_prior_value. repeat split.
Qed.

Lemma log_continuous_likelihood_float (u v : vec R) (G : matrix R) :
  exists x, log_continuous_likelihood u v G = Returns (PyFloat x).
Proof. eexists. reflexivity. Qed.

Lemma log_continuous_target_float (u y : vec R) (K_inverse G : matrix R) :
  exists x, log_continuous_target u y K_inverse G = Returns (PyFloat x).
Proof.
  unfold log_continuous_target. rewrite log_prior_value.
  eexists. reflexivity.
Qed.
End DensityFacts.

(** ** [subsample] and the seed *)

Section SubsampleFacts.
Variable rng : Type.
Variable seeded : Z -> rng.
Variable np_random_choice : Z -> Z -> np rng (list Z).

#[local] Abbreviation run_subsample := (subsample seeded np_random_choice).

Lemma bind_draw_ret (c : np rng (list Z)) (g : rng) :
  bind c (fun idx => ret idx) g = c g.
Proof. unfold bind, ret. destruct (c g) as [[idx g'] | e]; reflexivity. Qed.

(** A failed assertion, division or conversion ends the call before the
    seed is looked at. *)
Lemma subsample_early_exit (N : Z) (factor : Float64.number)
    (seed : option Z) (g : rng) :
  (Float64.ge_one factor = false ->
     run_subsample N factor seed g = Raises AssertionError)
  /\ (Float64.ge_one factor = true ->
      (forall e, Float64.truediv N factor = Raises e ->
         run_subsample N factor seed g = Raises e)
      /\ (forall q e, Float64.truediv N factor = Returns q ->
            Float64.int_of_ceil q = Raises e ->
            run_subsample N factor seed g = Raises e)).
Proof.
  unfold subsample. split.
  - intros ->. reflexivity.
  - intros ->. cbn [negb]. split.
    + intros e ->. reflexivity.
    + intros q e -> Hc. unfold bind at 1. cbn [call].
      unfold bind at 1. rewrite Hc. reflexivity.
Qed.

(** Past the assertion and with the size computed, what is left is the
    seeding and the draw. *)
Lemma subsample_sized (N : Z) (factor : Float64.number) (q : PrimFloat.float)
    (m : Z) (seed : option Z) (g : rng) :
  Float64.ge_one factor = true ->
  Float64.truediv N factor = Returns q ->
  Float64.int_of_ceil q = Returns m ->
  run_subsample N factor seed g
  = bind (match seed with
          | Some s => if truthy seed then np_random_seed seeded s else ret tt
          | None => ret tt
          end)
         (fun _ => np_random_choice N m) g.
Proof.
  intros Hf Hq Hm. unfold subsample. rewrite Hf, Hq. cbn [negb].
  unfold bind at 1. cbn [call]. unfold bind at 1. rewrite Hm. cbn [call].
  unfold bind at 1 3.
  destruct (match seed with
            | Some s => if truthy seed then np_random_seed seeded s else ret tt
            | None => ret tt
            end g) as [[u g'] | e]; [apply bind_draw_ret | reflexivity].
Qed.

Lemma subsample_unseeded (N : Z) (factor : Float64.number)
    (q : PrimFloat.float) (m : Z) (seed : option Z) (g : rng) :
  Float64.ge_one factor = true ->
  Float64.truediv N factor = Returns q ->
  Float64.int_of_ceil q = Returns m ->
  truthy seed = false ->
  run_subsample N factor seed g = np_random_choice N m g.
Proof.
  intros Hf Hq Hm Hs.
  rewrite (subsample_sized N factor q m seed g Hf Hq Hm).
  destruct seed as [s |]; [rewrite Hs |]; reflexivity.
Qed.

Lemma subsample_seeded (N : Z) (factor : Float64.number)
    (q : PrimFloat.float) (m s : Z) (g : rng) :
  Float64.ge_one factor = true ->
  Float64.truediv N factor = Returns q ->
  Float64.int_of_ceil q = Returns m ->
  s <> 0%Z -> (0 <= s < 2 ^ 32)%Z ->
  run_subsample N factor (Some s) g = np_random_choice N m (seeded s).
Proof.
  intros Hf Hq Hm Hs Hr.
  rewrite (subsample_sized N factor q m (Some s) g Hf Hq Hm).
  unfold truthy. destruct (Z.eqb_spec s 0) as [E | _]; [contradiction |].
  cbn [negb]. unfold bind, np_random_seed.
  destruct ((0 <=? s) && (s <? 2 ^ 32))%Z eqn:E; [reflexivity | lia].
Qed.

Lemma subsample_rejected_seed (N : Z) (factor : Float64.number)
    (q : PrimFloat.float) (m s : Z) (g : rng) :
  Float64.ge_one factor = true ->
  Float64.truediv N factor = Returns q ->
  Float64.int_of_ceil q = Returns m ->
  s <> 0%Z -> (s < 0 \/ 2 ^ 32 <= s)%Z ->
  run_subsample N factor (Some s) g = Raises ValueError.
Proof.
  intros Hf Hq Hm Hs Hr.
  rewrite (subsample_sized N factor q m (Some s) g Hf Hq Hm).
  unfold truthy. destruct (Z.eqb_spec s 0) as [E | _]; [contradiction |].
  cbn [negb]. unfold bind, np_random_seed.
  destruct ((0 <=? s) && (s <? 2 ^ 32))%Z eqn:E; [lia | reflexivity].
Qed.

(** Every outcome of [subsample] is an early exit or a sized call. *)
Lemma subsample_cases (N : Z) (factor : Float64.number) :
  Float64.ge_one factor = false
  \/ (Float64.ge_one factor = true
      /\ ((exists e, Float64.truediv N factor = Raises e)
          \/ (exists q, Float64.truediv N factor = Returns q
                /\ ((exists e, Float64.int_of_ceil q = Raises e)
                    \/ exists m, Float64.int_of_ceil q = Returns m)))).
Proof.
  destruct (Float64.ge_one factor); [right; split; trivial | left; trivial].
  destruct (Float64.truediv N factor) as [q | e]; [right | left; eauto].
  exists q. split; trivial.
  destruct (Float64.int_of_ceil q) as [m | e]; [right | left]; eauto.
Qed.

Lemma subsample_nonzero_seed (N : Z) (factor : Float64.number) (s : Z)
    (g1 g2 : rng) :
  s <> 0%Z ->
  run_subsample N factor (Some s) g1 = run_subsample N factor (Some s) g2.
Proof.
  intros Hs.
  destruct (subsample_cases N factor)
    as [Hf | (Hf & [(e & Hq) | (q & Hq & [(e & Hm) | (m & Hm)])])].
  - rewrite !(proj1 (subsample_early_exit N factor (Some s) _) Hf).
    reflexivity.
  - rewrite !(proj1 (proj2 (subsample_early_exit N factor (Some s) _) Hf)
                e Hq).
    reflexivity.
  - rewrite !(proj2 (proj2 (subsample_early_exit N factor (Some s) _) Hf)
                q e Hq Hm).
    reflexivity.
  - destruct (Z_lt_ge_dec s 0) as [Hlo | Hlo];
      [| destruct (Z_lt_ge_dec s (2 ^ 32)) as [Hhi | Hhi]].
    + rewrite !(subsample_rejected_seed N factor q m s _ Hf Hq Hm Hs)
        by (left; exact Hlo).
      reflexivity.
    + rewrite !(subsample_seeded N factor q m s _ Hf Hq Hm Hs) by lia.
      reflexivity.
    + rewrite !(subsample_rejected_seed N factor q m s _ Hf Hq Hm Hs)
        by (right; lia).
      reflexivity.
Qed.

Lemma subsample_zero_seed (N : Z) (factor : Float64.number) (g : rng) :
  run_subsample N factor (Some 0%Z) g = run_subsample N factor None g.
Proof. reflexivity. Qed.

(** With a seed that numpy accepts, the call is the call without a seed
    made on the freshly seeded state. *)
Lemma subsample_reseeds (N : Z) (factor : Float64.number) (s : Z) (g : rng) :
  s <> 0%Z -> (0 <= s < 2 ^ 32)%Z ->
  run_subsample N factor (Some s) g = run_subsample N factor None (seeded s).
Proof.
  intros Hs Hr.
  destruct (subsample_cases N factor)
    as [Hf | (Hf & [(e & Hq) | (q & Hq & [(e & Hm) | (m & Hm)])])].
  - rewrite !(proj1 (subsample_early_exit N factor _ _) Hf). reflexivity.
  - rewrite !(proj1 (proj2 (subsample_early_exit N factor _ _) Hf) e Hq).
    reflexivity.
  - rewrite !(proj2 (proj2 (subsample_early_exit N factor _ _) Hf)
                q e Hq Hm).
    reflexivity.
  - rewrite (subsample_seeded N factor q m s g Hf Hq Hm Hs Hr).
    rewrite (subsample_unseeded N factor q m None (seeded s) Hf Hq Hm
               eq_refl).
    reflexivity.
Qed.
End SubsampleFacts.

Lemma counter_runs_differ :
  result (subsample counter_seeded counter_choice 10 (Float64.IntNum 2)
            (Some 0%Z) 0%Z)
  <> result (subsample counter_seeded counter_choice 10 (Float64.IntNum 2)
               (Some 0%Z) 1%Z).
Proof. vm_compute. discriminate. Qed.

(** C10.  The seed reaches the generator only when it is truthy.  With a
    nonzero seed the call does not depend on the state the generator was
    in (two calls give the same indices, or fail alike on a seed numpy
    rejects), because [np.random.seed] has replaced that state: for a seed
    in [[0, 2^32)] the call is the unseeded call made on the state
    [seeded s], and the indices are those that [np.random.choice] draws
    from that state.  With seed [0] the call is the call without a seed:
    nothing is seeded, the indices are drawn from the ambient state, and
    two runs that start from different states can differ, as they do for
    the counter generator. *)
Theorem subsample_seed_truthiness :
  (forall (rng : Type) (seeded : Z -> rng)
          (np_random_choice : Z -> Z -> np rng (list Z))
          (N : Z) (factor : Float64.number) (s : Z) (g1 g2 : rng),
      s <> 0%Z ->
      subsample seeded np_random_choice N factor (Some s) g1
      = subsample seeded np_random_choice N factor (Some s) g2)
  /\ (forall (rng : Type) (seeded : Z -> rng)
             (np_random_choice : Z -> Z -> np rng (list Z))
             (N : Z) (factor : Float64.number) (s : Z) (g : rng),
         s <> 0%Z -> (0 <= s < 2 ^ 32)%Z ->
         subsample seeded np_random_choice N factor (Some s) g
         = subsample seeded np_random_choice N factor None (seeded s))
  /\ (forall (rng : Type) (seeded : Z -> rng)
             (np_random_choice : Z -> Z -> np rng (list Z))
             (N : Z) (factor : Float64.number) (q : PrimFloat.float)
             (m s : Z) (g : rng),
         Float64.ge_one factor = true ->
         Float64.truediv N factor = Returns q ->
         Float64.int_of_ceil q = Returns m ->
         s <> 0%Z -> (0 <= s < 2 ^ 32)%Z ->
         subsample seeded np_random_choice N factor (Some s) g
         = np_random_choice N m (seeded s))
  /\ (forall (rng : Type) (seeded : Z -> rng)
             (np_random_choice : Z -> Z -> np rng (list Z))
             (N : Z) (factor : Float64.number) (g : rng),
         subsample seeded np_random_choice N factor (Some 0%Z) g
         = subsample seeded np_random_choice N factor None g)
  /\ (forall (rng : Type) (seeded : Z -> rng)
             (np_random_choice : Z -> Z -> np rng (list Z))
             (N : Z) (factor : Float64.number) (q : PrimFloat.float)
             (m : Z) (g : rng),
         Float64.ge_one factor = true ->
         Float64.truediv N factor = Returns q ->
         Float64.int_of_ceil q = Returns m ->
         subsample seeded np_random_choice N factor (Some 0%Z) g
         = np_random_choice N m g)
  /\ (exists g1 g2 : Z,
         result (subsample counter_seeded counter_choice 10
                   (Float64.IntNum 2) (Some 0%Z) g1)
         <> result (subsample counter_seeded counter_choice 10
                      (Float64.IntNum 2) (Some 0%Z) g2)).
Proof.
  repeat match goal with |- _ /\ _ => split end.
  - intros rng seeded choice N factor s g1 g2 Hs.
    apply subsample_nonzero_seed. exact Hs.
  - intros rng seeded choice N factor s g Hs Hr.
    apply subsample_reseeds; assumption.
  - intros rng seeded choice N factor q m s g Hf Hq Hm Hs Hr.
    apply (subsample_seeded rng seeded choice N factor q m s g);
      assumption.
  - intros. apply subsample_zero_seed.
  - intros rng seeded choice N factor q m g Hf Hq Hm.
    apply (subsample_unseeded rng seeded choice N factor q m (Some 0%Z) g);
      trivial.
  - exists 0%Z, 1%Z. exact counter_runs_differ.
Qed.

(** ** Concrete runs *)

Section ConcreteRuns.
Local Open Scope R_scope.

Lemma one_jittered : jittered one_K = [[1 + Q2R (1 # 1000000) * Q2R 1]].
Proof. reflexivity. Qed.

Lemma one_cholesky : cholesky (jittered one_K) = Returns one_Kc.
Proof.
  rewrite one_jittered. unfold cholesky, one_Kc.
  cbn [is_square forallb length Nat.eqb andb chol_rows].
  unfold chol_row.
  cbn [chol_offdiag length nth app repeat Nat.sub].
  assert (E : 1 + Q2R (1 # 1000000) * Q2R 1 - dot [] []
              = 1 + 1 / 1000000).
  { unfold dot, vsum, zip_with. cbn [combine map fold_left f_lit R_FloatOps].
    unfold Q2R. simpl. lra. }
  rewrite E.
  destruct (Rlt_dec 0 (1 + 1 / 1000000)) as [_ | Hn]; [reflexivity | lra].
Qed.

Lemma one_pivot_nonzero : sqrt (1 + 1 / 1000000) <> 0.
Proof.
  assert (0 < sqrt (1 + 1 / 1000000)) by (apply sqrt_lt_R0; lra). lra.
Qed.

Lemma one_inv : inv one_Kc = Returns one_Kc_inverse.
Proof.
  unfold inv, one_Kc, one_Kc_inverse.
  cbn [is_square forallb length Nat.eqb andb]. rewrite det_1x1.
  destruct (Req_dec_T (sqrt (1 + 1 / 1000000)) 0) as [E | _].
  - destruct (one_pivot_nonzero E).
  - unfold adjugate_over, minor, drop_nth.
    cbn [length seq map firstn skipn app Nat.add].
    unfold det. cbn [length det_n]. do 3 f_equal.
    field. exact one_pivot_nonzero.
Qed.

(** The by-value models on a 2x2 matrix: [[4 2] [2 5]] factors as
    [[2 0] [1 2]], whose inverse is [[1/2 0] [-1/4 1/2]]. *)
Lemma det_2x2 (a b c d : R) : det [[a; b]; [c; d]] = a * d - b * c.
Proof. unfold det, drop_nth. simpl. ring. Qed.

Lemma sqrt_4 : sqrt 4 = 2.
Proof. replace 4 with (2 * 2) by ring. apply sqrt_square. lra. Qed.

Example cholesky_2x2 : cholesky [[4; 2]; [2; 5]] = Returns [[2; 0]; [1; 2]].
Proof.
  unfold cholesky. cbn [is_square forallb length Nat.eqb andb chol_rows].
  unfold chol_row at 1. cbn [chol_offdiag length nth].
  replace (4 - dot [] []) with 4
    by (cbv [dot vsum zip_with combine map fold_left f_lit R_FloatOps];
        rewrite Q2R_zero; ring).
  destruct (Rlt_dec 0 4) as [_ | Hn]; [| lra].
  rewrite sqrt_4. cbn [app repeat Nat.sub chol_rows].
  unfold chol_row. cbn [chol_offdiag length nth app].
  replace ((2 - dot [] [2; 0]) / 2) with 1
    by (cbv [dot vsum zip_with combine map fold_left f_lit R_FloatOps];
        rewrite Q2R_zero; field).
  replace (5 - dot [1] [1]) with 4
    by (cbv [dot vsum zip_with combine map fold_left fst snd
             f_lit fadd fmul R_FloatOps];
        rewrite Q2R_zero; ring).
  destruct (Rlt_dec 0 4) as [_ | Hn]; [| lra].
  rewrite sqrt_4. reflexivity.
Qed.

Example cholesky_not_positive_definite :
  cholesky [[1; 2]; [2; 1]] = Raises LinAlgError.
Proof.
  unfold cholesky. cbn [is_square forallb length Nat.eqb andb chol_rows].
  unfold chol_row at 1. cbn [chol_offdiag length nth].
  replace (1 - dot [] []) with 1
    by (cbv [dot vsum zip_with combine map fold_left f_lit R_FloatOps];
        rewrite Q2R_zero; ring).
  destruct (Rlt_dec 0 1) as [_ | Hn]; [| lra].
  rewrite sqrt_1. cbn [app repeat Nat.sub chol_rows].
  unfold chol_row. cbn [chol_offdiag length nth app].
  replace ((2 - dot [] [1; 0]) / 1) with 2
    by (cbv [dot vsum zip_with combine map fold_left f_lit R_FloatOps];
        rewrite Q2R_zero; field).
  replace (1 - dot [2] [2]) with (-3)
    by (cbv [dot vsum zip_with combine map fold_left fst snd
             f_lit fadd fmul R_FloatOps];
        rewrite Q2R_zero; ring).
  destruct (Rlt_dec 0 (-3)) as [Hp | _]; [lra | reflexivity].
Qed.

Example inv_2x2 :
  inv [[2; 0]; [1; 2]] = Returns [[1 / 2; 0]; [- (1 / 4); 1 / 2]].
Proof.
  unfold inv. cbn [is_square forallb length Nat.eqb andb]. rewrite det_2x2.
  destruct (Req_dec_T (2 * 2 - 0 * 1) 0) as [E | _]; [lra |].
  unfold adjugate_over, minor, drop_nth.
  cbn [length seq map firstn skipn app Nat.add].
  rewrite !det_1x1.
  f_equal. f_equal; [f_equal; [| f_equal] | f_equal; f_equal; [| f_equal]];
    field.
Qed.

Lemma one_likelihood_float (u : vec R) :
  exists x, log_continuous_likelihood u one_y one_G = Returns (PyFloat x).
Proof. apply log_continuous_likelihood_float. Qed.

Lemma one_target_float (u : vec R) :
  exists x,
    log_continuous_target u one_y
      (matmul (transpose one_Kc_inverse) one_Kc_inverse) one_G
    = Returns (PyFloat x).
Proof. apply log_continuous_target_float. Qed.

Lemma ln_half_negative : ln (1 / 2) < 0.
Proof. rewrite <- ln_1. apply ln_increasing; lra. Qed.

Lemma ln_half_above_minus_one : -1 < ln (1 / 2).
Proof.
  replace (1 / 2) with (/ 2) by lra.
  rewrite ln_Rinv by lra.
  assert (ln 2 < 1); [| lra].
  rewrite <- (ln_exp 1). apply ln_increasing; [lra |].
  pose proof (exp_ineq1 1 ltac:(lra)). lra.
Qed.

Lemma one_pcn_proposal (z : R) :
  vadd (vscale (fsqrt (fsub (f_lit 1) (fpow 1 2))) [0])
       (vscale 1 (matvec one_Kc [z]))
  = [sqrt (1 + 1 / 1000000) * z].
Proof.
  cbv [vadd vscale matvec dot vsum zip_with one_Kc map combine
       fold_left fst snd f_lit fadd fsub fmul fpow fsqrt R_FloatOps pow].
  f_equal. rewrite Q2R_zero, Q2R_one.
  replace (1 - 1 * (1 * 1)) with 0 by ring. rewrite sqrt_0. ring.
Qed.

(** One iteration of [pcn] with [beta = 1], the noise draw [0] and the
    uniform draw [1/2]: the proposal is [[0]], the likelihood is
    unchanged, [0 > log (1/2)] accepts, and the rate is [1/1]. *)
Example pcn_unit_beta_run :
  pcn_R log_continuous_likelihood one_u0 one_y one_K one_G 1 1 [0; 1 / 2]
  = Returns (([[0]], 1%Q), []).
Proof.
  unfold pcn_R, pcn, bind, call. rewrite one_cholesky, one_inv.
  cbv [Z.to_nat Pos.to_nat Pos.iter_op Nat.add for_range].
  unfold pcn_iter. unfold bind, draw, call, ret.
  cbv [log_continuous_likelihood one_u0].
  cbn [u_prev lp_prev X acc tape_normal tape_random length firstn skipn
       app repeat Nat.sub hd tl fst snd].
  rewrite one_pcn_proposal.
  replace (sqrt (1 + 1 / 1000000) * 0) with 0 by ring.
  cbv [py_sub py_gt].
  replace (fltb _ _) with true; [reflexivity |].
  symmetry. cbn [fltb flog fsub R_FloatOps]. unfold Rltb.
  destruct (Rlt_dec _ _) as [_ | Hn]; [reflexivity |].
  exfalso. apply Hn. pose proof ln_half_negative. cbn [hd]. lra.
Qed.

(** One iteration of [grw] with [beta = 1], the noise draw [1] and the
    uniform draw [1/2]: the proposal lowers the log-target by
    [1/2 + (1 + 1e-6)/2], which is not above [log (1/2)], so it is
    rejected, the chain repeats [u0] and the rate is [0/1]. *)
Example grw_rejection_run :
  grw_R log_continuous_target one_u0 one_y one_K one_G 1 1 [1; 1 / 2]
  = Returns (([[0]], 0%Q), []).
Proof.
  unfold grw_R, grw, bind, call. rewrite one_cholesky, one_inv.
  cbv [Z.to_nat Pos.to_nat Pos.iter_op Nat.add for_range].
  unfold grw_iter. unfold bind, draw, call, ret.
  cbv [log_continuous_target log_continuous_likelihood log_prior
       np_linalg_slogdet obind py_add one_u0].
  cbn [u_prev lp_prev X acc tape_normal tape_random length firstn skipn
       app repeat Nat.sub hd tl fst snd].
  cbv [py_sub py_gt].
  replace (fltb _ _) with false; [reflexivity |].
  symmetry. cbn [fltb flog fsub R_FloatOps]. unfold Rltb.
  destruct (Rlt_dec _ _) as [Hlt | _]; [| reflexivity].
  exfalso. revert Hlt.
  cbv [one_Kc one_Kc_inverse one_y one_G matmul transpose column ncols
       vecmat vadd vsub vscale matvec dot vsum zip_with map combine seq
       nth hd length fold_left fst snd f_lit fadd fsub fmul fpow fsqrt
       R_FloatOps pow INR].
  rewrite Q2R_zero. unfold Q2R. cbn [Qnum Qden].
  pose proof one_pivot_nonzero as Hs.
  pose proof (sqrt_sqrt (1 + 1 / 1000000) ltac:(lra)) as Hss.
  pose proof ln_half_above_minus_one as Hl.
  set (s := sqrt (1 + 1 / 1000000)) in *.
  match goal with
  | |- _ < ?E -> False =>
      replace E with (- (1 / 2) - 1 / 2 * (s * s)) by (field; exact Hs)
  end.
  rewrite Hss. lra.
Qed.

(** [pcn_follows_algorithm] on the one-point problem, two iterations. *)
Lemma pcn_follows_algorithm_witness :
  (1 <= 2)%Z
  /\ cholesky (jittered one_K) = Returns one_Kc
  /\ inv one_Kc = Returns one_Kc_inverse
  /\ (exists ll0 sf gf,
         log_continuous_likelihood one_u0 one_y one_G = Returns (PyFloat ll0)
         /\ iterate
              (pcn_step_spec tape_normal tape_random
                 log_continuous_likelihood one_y one_G one_Kc (1 / 2))
              (Z.to_nat 2) (Chain [] 0 one_u0 (PyFloat ll0), []) (sf, gf)
         /\ pcn_R log_continuous_likelihood one_u0 one_y one_K one_G 2
              (1 / 2) []
            = Returns ((X sf, (inject_Z (acc sf) / inject_Z 2)%Q), gf)).
Proof.
  split; [lia |]. split; [exact one_cholesky |]. split; [exact one_inv |].
  exact (proj1 (pcn_follows_algorithm tape tape_normal tape_random
                  cholesky inv (vec R) log_continuous_likelihood
                  one_u0 one_y one_K one_G 2 (1 / 2)
                  one_Kc one_Kc_inverse []
                  ltac:(lia) one_cholesky one_inv one_likelihood_float)).
Defined.

(** [grw_follows_algorithm] on the one-point problem, two iterations. *)
Lemma grw_follows_algorithm_witness :
  (1 <= 2)%Z
  /\ cholesky (jittered one_K) = Returns one_Kc
  /\ inv one_Kc = Returns one_Kc_inverse
  /\ (exists lt0 sf gf,
         log_continuous_target one_u0 one_y one_K_inverse one_G
           = Returns (PyFloat lt0)
         /\ iterate
              (grw_step_spec tape_normal tape_random
                 log_continuous_target one_y one_K_inverse one_G one_Kc
                 (1 / 2))
              (Z.to_nat 2) (Chain [] 0 one_u0 (PyFloat lt0), []) (sf, gf)
         /\ grw_R log_continuous_target one_u0 one_y one_K one_G 2
              (1 / 2) []
            = Returns ((X sf, (inject_Z (acc sf) / inject_Z 2)%Q), gf)).
Proof.
  split; [lia |]. split; [exact one_cholesky |]. split; [exact one_inv |].
  exact (grw_follows_algorithm tape tape_normal tape_random
           cholesky inv (vec R) log_continuous_target
           one_u0 one_y one_K one_G 2 (1 / 2)
           one_Kc one_Kc_inverse []
           ltac:(lia) one_cholesky one_inv one_target_float).
Defined.

(** [samplers_chain_length_and_rate] on the one-point problem. *)
Lemma samplers_chain_length_and_rate_witness :
  (1 <= 3)%Z
  /\ cholesky (jittered one_K) = Returns one_Kc
  /\ inv one_Kc = Returns one_Kc_inverse
  /\ (exists lt0 sf gf,
         iterate
           (grw_step_spec tape_normal tape_random
              log_continuous_target one_y one_K_inverse one_G one_Kc
              (1 / 2))
           (Z.to_nat 3) (Chain [] 0 one_u0 (PyFloat lt0), []) (sf, gf)
         /\ grw_R log_continuous_target one_u0 one_y one_K one_G 3
              (1 / 2) []
            = Returns ((X sf, (inject_Z (acc sf) / inject_Z 3)%Q), gf)
         /\ length (X sf) = Z.to_nat 3
         /\ (0 <= acc sf <= 3)%Z
         /\ (0 <= inject_Z (acc sf) / inject_Z 3)%Q
         /\ (inject_Z (acc sf) / inject_Z 3 <= 1)%Q)
  /\ (exists ll0 sf gf,
         iterate
           (pcn_step_spec tape_normal tape_random
              log_continuous_likelihood one_y one_G one_Kc (1 / 2))
           (Z.to_nat 3) (Chain [] 0 one_u0 (PyFloat ll0), []) (sf, gf)
         /\ pcn_R log_continuous_likelihood one_u0 one_y one_K one_G 3
              (1 / 2) []
            = Returns ((X sf, (inject_Z (acc sf) / inject_Z 3)%Q), gf)
         /\ length (X sf) = Z.to_nat 3
         /\ (0 <= acc sf <= 3)%Z
         /\ (0 <= inject_Z (acc sf) / inject_Z 3)%Q
         /\ (inject_Z (acc sf) / inject_Z 3 <= 1)%Q).
Proof.
  split; [lia |]. split; [exact one_cholesky |]. split; [exact one_inv |].
  exact (samplers_chain_length_and_rate tape tape_normal tape_random
           cholesky inv (vec R)
           log_continuous_target log_continuous_likelihood
           one_u0 one_y one_K one_G 3 (1 / 2)
           one_Kc one_Kc_inverse []
           ltac:(lia) one_cholesky one_inv
           one_target_float one_likelihood_float).
Defined.

(** [samplers_zero_iterations] on the one-point problem. *)
Lemma samplers_zero_iterations_witness :
  cholesky (jittered one_K) = Returns one_Kc
  /\ inv one_Kc = Returns one_Kc_inverse
  /\ exists v w,
       log_continuous_target one_u0 one_y one_K_inverse one_G = Returns v
       /\ log_continuous_likelihood one_u0 one_y one_G = Returns w
       /\ grw_R log_continuous_target one_u0 one_y one_K one_G 0 (1 / 2) []
          = Raises ZeroDivisionError
       /\ pcn_R log_continuous_likelihood one_u0 one_y one_K one_G 0
            (1 / 2) []
          = Raises ZeroDivisionError.
Proof.
  split; [exact one_cholesky |]. split; [exact one_inv |].
  eexists _, _. split; [reflexivity |]. split; [reflexivity |].
  destruct (samplers_zero_iterations tape tape_normal tape_random
              cholesky inv (vec R)
              log_continuous_target log_continuous_likelihood
              one_u0 one_y one_K one_G (1 / 2)
              one_Kc one_Kc_inverse _ _ []
              one_cholesky one_inv eq_refl eq_refl)
    as (_ & _ & Hg & Hp & _).
  split; [exact Hg | exact Hp].
Defined.

(** C5 fails on the code: [beta = 1] lies outside the open unit
    interval, yet [pcn] raises nothing; the run is the one computed above,
    one accepted iteration. *)
Lemma pcn_out_of_range_beta_returns :
  ~ (0 < 1 < 1)
  /\ pcn_R log_continuous_likelihood one_u0 one_y one_K one_G 1 1
       [0; 1 / 2]
     = Returns (([[0]], 1%Q), [])
  /\ ~ raised (pcn_R log_continuous_likelihood one_u0 one_y one_K one_G
                 1 1 [0; 1 / 2]).
Proof.
  split; [lra |]. split; [exact pcn_unit_beta_run |].
  intros [e He]. rewrite pcn_unit_beta_run in He. discriminate He.
Qed.

(** C7 fails on the code: [[[-1]]] has determinant [-1], [slogdet] gives
    the sign [-1], and [log_prior] returns a float all the same. *)
Lemma log_prior_negative_sign_returns :
  fst (np_linalg_slogdet [[-1]]) = -1
  /\ fst (np_linalg_slogdet [[-1]]) <> 1
  /\ log_prior [1] [[-1]]
     = Returns (PyFloat (1 / 2 - 1 / 2 * ln (2 * PI)))
  /\ ~ raised (log_prior [1] [[-1]]).
Proof.
  assert (Hs : fst (np_linalg_slogdet [[-1]]) = -1).
  { cbn [np_linalg_slogdet fst]. rewrite det_1x1. apply sgn_negative. lra. }
  assert (Hv : log_prior [1] [[-1]]
               = Returns (PyFloat (1 / 2 - 1 / 2 * ln (2 * PI)))).
  { rewrite log_prior_value, det_1x1.
    replace (Rabs (-1)) with 1 by (rewrite Rabs_left; lra).
    rewrite ln_1. do 2 f_equal.
    cbv [dot vecmat transpose column ncols vsum zip_with
         hd length seq map nth combine fold_left fst snd
         f_lit fadd fmul R_FloatOps INR].
    rewrite Q2R_zero. lra. }
  split; [exact Hs |]. split; [rewrite Hs; lra |]. split; [exact Hv |].
  intros [e He]. rewrite Hv in He. discriminate He.
Qed.

(** [log_prior_ignores_sign] at [K_inverse = [[-1]]]. *)
Lemma log_prior_ignores_sign_witness :
  det [[-1]] < 0
  /\ fst (np_linalg_slogdet [[-1]]) = -1
  /\ log_prior [1] [[-1]]
     = Returns (PyFloat (- (1 / 2) * dot (vecmat [1] [[-1]]) [1]
                         + 1 / 2 * ln (- det [[-1]])
                         - INR (length [1]) / 2 * ln (2 * PI))).
Proof.
  assert (Hd : det [[-1]] < 0) by (rewrite det_1x1; lra).
  split; [exact Hd |].
  exact (log_prior_ignores_sign [1] [[-1]] Hd).
Defined.

(** [log_prior_formula] at [K = [[2]]], [K_inverse = [[1/2]]]. *)
Lemma log_prior_formula_witness :
  0 < det [[1 / 2]]
  /\ det [[2]] * det [[1 / 2]] = 1
  /\ - snd (np_linalg_slogdet [[1 / 2]]) = ln (det [[2]]).
Proof.
  assert (H1 : 0 < det [[1 / 2]]) by (rewrite det_1x1; lra).
  assert (H2 : det [[2]] * det [[1 / 2]] = 1) by (rewrite !det_1x1; lra).
  split; [exact H1 |]. split; [exact H2 |].
  exact (proj2 (proj2 (log_prior_formula [1] [[1 / 2]])) [[2]] H1 H2).
Defined.

(** C4 fails on the code: the placeholders return [None] and raise
    nothing; the targets raise [TypeError], not a not-implemented
    signal. *)
Lemma placeholder_likelihoods_do_not_raise :
  (forall norm_cdf : R -> R,
      ~ raised (log_probit_likelihood norm_cdf [0] [1] [[1]]))
  /\ ~ raised (log_poisson_likelihood [0] [1] [[1]])
  /\ (forall norm_cdf : R -> R,
         log_probit_target norm_cdf [0] [1] [[1]] [[1]]
         <> Raises NotImplementedError)
  /\ log_poisson_target [0] [1] [[1]] [[1]] <> Raises NotImplementedError.
Proof.
  repeat split.
  - intros norm_cdf [e He]. discriminate He.
  - intros [e He]. discriminate He.
  - intros norm_cdf He.
    unfold log_probit_target in He. rewrite log_prior_value in He.
    discriminate He.
  - intros He.
    unfold log_poisson_target in He. rewrite log_prior_value in He.
    discriminate He.
Qed.

End ConcreteRuns.

(** ** The observation matrix *)

Section ObservationFacts.
Local Open Scope R_scope.

Lemma set_nth_middle {A : Type} (l1 l2 : list A) (x v : A) :
  set_nth (length l1) v (l1 ++ x :: l2) = l1 ++ v :: l2.
Proof.
  induction l1 as [| a l1 IH]; cbn [length app set_nth]; [reflexivity |].
  rewrite IH. reflexivity.
Qed.

Lemma set_entry_middle (A B : matrix R) (z : vec R) (k j : nat) (v : R) :
  length A = k ->
  set_entry (A ++ z :: B) k j v = A ++ set_nth j v z :: B.
Proof.
  intros <-. unfold set_entry. rewrite nth_middle, set_nth_middle.
  reflexivity.
Qed.

Lemma firstn_succ_nth {A : Type} (l : list A) (k : nat) (d : A) :
  (k < length l)%nat -> firstn (S k) l = firstn k l ++ [nth k l d].
Proof.
  revert k. induction l as [| x l IH]; intros k Hk; cbn [length] in Hk;
    [lia |].
  destruct k as [| k]; cbn [firstn nth app]; [reflexivity |].
  rewrite <- IH by lia. reflexivity.
Qed.

Lemma set_nth_length {A : Type} (n : nat) (v : A) (l : list A) :
  length (set_nth n v l) = length l.
Proof.
  revert n. induction l as [| x l IH]; intros [| n]; cbn [set_nth length];
    try reflexivity.
  rewrite IH. reflexivity.
Qed.

Lemma zeros_from (N a j : nat) :
  (j < a)%nat ->
  map (fun c => if Nat.eqb c j then 1 else 0) (seq a N) = repeat 0 N.
Proof.
  revert a. induction N as [| N IH]; intros a Hj; cbn [seq map repeat];
    [reflexivity |].
  destruct (Nat.eqb_spec a j); [lia |].
  rewrite IH by lia. reflexivity.
Qed.

Lemma set_nth_zeros_from (N a j : nat) :
  (j < N)%nat ->
  set_nth j 1 (repeat 0 N)
  = map (fun c => if Nat.eqb c (a + j) then 1 else 0) (seq a N).
Proof.
  revert a j. induction N as [| N IH]; intros a j Hj; [lia |].
  cbn [repeat seq map]. destruct j as [| j]; cbn [set_nth].
  - rewrite Nat.add_0_r, Nat.eqb_refl, zeros_from by lia. reflexivity.
  - destruct (Nat.eqb_spec a (a + S j)); [lia |].
    rewrite (IH (S a) j) by lia.
    replace (S a + j)%nat with (a + S j)%nat by lia. reflexivity.
Qed.

Lemma set_nth_zeros (N j : nat) :
  (j < N)%nat -> set_nth j 1 (repeat 0 N) = one_hot N j.
Proof. intros Hj. apply (set_nth_zeros_from N 0 j Hj). Qed.

Lemma normalize_index_bound (N : nat) (k : Z) (j : nat) :
  normalize_index N k = Some j -> (j < N)%nat.
Proof.
  unfold normalize_index.
  destruct ((0 <=? k) && (k <? Z.of_nat N))%Z eqn:E1.
  - intros [= <-]. lia.
  - destruct ((- Z.of_nat N <=? k) && (k <? 0))%Z eqn:E2; [| discriminate].
    intros [= <-]. lia.
Qed.

Lemma normalize_index_in_range (N : nat) (k : Z) :
  (- Z.of_nat N <= k < Z.of_nat N)%Z ->
  normalize_index N k = Some (Z.to_nat (k mod Z.of_nat N)).
Proof.
  intros Hk. unfold normalize_index.
  destruct ((0 <=? k) && (k <? Z.of_nat N))%Z eqn:E1.
  - rewrite Z.mod_small by lia. reflexivity.
  - destruct ((- Z.of_nat N <=? k) && (k <? 0))%Z eqn:E2; [| lia].
    do 2 f_equal.
    rewrite <- (Z.mod_small (k + Z.of_nat N) (Z.of_nat N)) by lia.
    rewrite <- (Z_mod_plus_full k 1 (Z.of_nat N)). f_equal. lia.
Qed.

Lemma normalize_index_out_of_range (N : nat) (k : Z) :
  (k < - Z.of_nat N \/ Z.of_nat N <= k)%Z -> normalize_index N k = None.
Proof.
  intros Hk. unfold normalize_index.
  destruct ((0 <=? k) && (k <? Z.of_nat N))%Z eqn:E1; [lia |].
  destruct ((- Z.of_nat N <=? k) && (k <? 0))%Z eqn:E2; [lia | reflexivity].
Qed.

#[local] Abbreviation get_G_step N idx :=
  (fun acc i =>
     match acc with
     | Some G' => get_G_iter N idx G' i
     | None => None
     end).

(** The loop invariant of [get_G]: after [k] iterations the first [k]
    rows are set and the others are still zero. *)
Lemma get_G_loop (N : nat) (idx : list Z) (js : list nat) :
  map (normalize_index N) idx = map Some js ->
  forall k, (k <= length idx)%nat ->
    fold_left (get_G_step N idx) (seq 0 k)
      (Some (np_zeros (length idx) N))
    = Some (map (one_hot N) (firstn k js)
            ++ repeat (repeat 0 N) (length idx - k)).
Proof.
  intros Hmap.
  assert (Hlen : length js = length idx).
  { apply (f_equal (@length _)) in Hmap. rewrite !length_map in Hmap. lia. }
  induction k as [| k IH]; intros Hk.
  - cbn [seq fold_left firstn map app]. rewrite Nat.sub_0_r. reflexivity.
  - rewrite seq_S, fold_left_app, IH by lia. cbn [Nat.add fold_left].
    unfold get_G_iter.
    assert (Hnk : normalize_index N (nth k idx 0%Z) = Some (nth k js O)).
    { apply (f_equal (fun l => nth k l None)) in Hmap.
      rewrite (nth_indep _ None (normalize_index N 0%Z)) in Hmap
        by (rewrite length_map; lia).
      rewrite map_nth in Hmap. rewrite Hmap.
      rewrite (nth_indep _ None (Some O)) by (rewrite length_map; lia).
      apply map_nth. }
    rewrite Hnk. f_equal.
    replace (length idx - k)%nat with (S (length idx - S k)) by lia.
    cbn [repeat].
    rewrite set_entry_middle by (rewrite length_map, length_firstn; lia).
    rewrite set_nth_zeros by (eapply normalize_index_bound; exact Hnk).
    rewrite (firstn_succ_nth js k O) by lia.
    rewrite map_app, <- app_assoc. reflexivity.
Qed.

Lemma get_G_valid (N : nat) (idx : list Z) (js : list nat) :
  map (normalize_index N) idx = map Some js ->
  get_G N idx = Some (map (one_hot N) js).
Proof.
  intros Hmap. unfold get_G.
  rewrite (get_G_loop N idx js Hmap (length idx)) by lia.
  assert (Hlen : length js = length idx).
  { apply (f_equal (@length _)) in Hmap. rewrite !length_map in Hmap. lia. }
  rewrite Nat.sub_diag, <- Hlen, firstn_all. cbn [repeat].
  rewrite app_nil_r. reflexivity.
Qed.

Lemma get_G_fold_some (N : nat) (idx : list Z) (init : option (matrix R)) :
  forall k G,
    fold_left (get_G_step N idx) (seq 0 k) init = Some G ->
    forall i, (i < k)%nat -> normalize_index N (nth i idx 0%Z) <> None.
Proof.
  induction k as [| k IH]; intros G HG i Hi; [lia |].
  rewrite seq_S, fold_left_app in HG. cbn [Nat.add fold_left] in HG.
  destruct (fold_left (get_G_step N idx) (seq 0 k) init) as [G' |] eqn:E;
    [| discriminate].
  destruct (Nat.eq_dec i k) as [-> | Hne].
  - unfold get_G_iter in HG.
    destruct (normalize_index N (nth k idx 0%Z)); [discriminate | discriminate].
  - apply (IH G' eq_refl). lia.
Qed.

Lemma nth_one_hot (N j c : nat) (d : R) :
  (c < N)%nat -> nth c (one_hot N j) d = if Nat.eqb c j then 1 else 0.
Proof.
  intros Hc. unfold one_hot.
  rewrite (nth_indep _ d (if Nat.eqb O j then 1 else 0))
    by (rewrite length_map, length_seq; exact Hc).
  rewrite (map_nth (fun c => if Nat.eqb c j then 1 else 0)).
  rewrite seq_nth by exact Hc. reflexivity.
Qed.

Lemma dot_fold_right (a b : vec R) :
  dot a b = fold_right Rplus 0 (map (fun p => fst p * snd p) (combine a b)).
Proof. unfold dot. rewrite vsum_fold_right. reflexivity. Qed.

Lemma dot_indicator (N a j : nat) (u : vec R) :
  length u = N ->
  dot (map (fun c => if Nat.eqb c (a + j) then 1 else 0) (seq a N)) u
  = nth j u 0.
Proof.
  rewrite dot_fold_right. revert a j u.
  induction N as [| N IH]; intros a j [| x u] Hu; cbn [length] in Hu;
    try discriminate.
  - destruct j; reflexivity.
  - cbn [seq map combine fold_right fst snd].
    destruct j as [| j].
    + rewrite Nat.add_0_r, Nat.eqb_refl. cbn [nth].
      rewrite zeros_from by lia.
      assert (Hz : forall (M : nat) (w : vec R),
                 fold_right Rplus 0
                   (map (fun p => fst p * snd p) (combine (repeat 0 M) w))
                 = 0).
      { induction M as [| M IHM]; intros [| y w]; cbn; try reflexivity.
        fold (repeat 0 M). rewrite IHM. ring. }
      rewrite Hz. ring.
    + destruct (Nat.eqb_spec a (a + S j)); [lia |].
      replace (a + S j)%nat with (S a + j)%nat by lia.
      rewrite IH by lia. cbn [nth]. ring.
Qed.

Lemma dot_one_hot (N j : nat) (u : vec R) :
  length u = N -> dot (one_hot N j) u = nth j u 0.
Proof. intros Hu. apply (dot_indicator N 0 j u Hu). Qed.

Lemma sum_zeros (M : nat) : fold_right Rplus 0 (repeat 0 M) = 0.
Proof.
  induction M as [| M IH]; cbn [repeat fold_right]; [reflexivity |].
  rewrite IH. ring.
Qed.

Lemma sum_indicator (N a j : nat) :
  (j < N)%nat ->
  fold_right Rplus 0
    (map (fun c => if Nat.eqb c (a + j) then 1 else 0) (seq a N)) = 1.
Proof.
  revert a j. induction N as [| N IH]; intros a j Hj; [lia |].
  cbn [seq map fold_right]. destruct j as [| j].
  - rewrite Nat.add_0_r, Nat.eqb_refl, zeros_from, sum_zeros by lia. ring.
  - destruct (Nat.eqb_spec a (a + S j)); [lia |].
    replace (a + S j)%nat with (S a + j)%nat by lia.
    rewrite IH by lia. ring.
Qed.

Lemma vsum_one_hot (N j : nat) : (j < N)%nat -> vsum (one_hot N j) = 1.
Proof.
  intros Hj. rewrite vsum_fold_right. apply (sum_indicator N 0 j Hj).
Qed.

Lemma normalize_all_in_range (N : nat) (idx : list Z) :
  Forall (fun k => (- Z.of_nat N <= k < Z.of_nat N)%Z) idx ->
  map (normalize_index N) idx
  = map Some (map (fun k => Z.to_nat (k mod Z.of_nat N)) idx).
Proof.
  intros Hall. rewrite map_map. apply map_ext_in. intros k Hk.
  apply normalize_index_in_range.
  rewrite Forall_forall in Hall. apply Hall, Hk.
Qed.

Lemma get_G_value (N : nat) (idx : list Z) :
  Forall (fun k => (- Z.of_nat N <= k < Z.of_nat N)%Z) idx ->
  get_G N idx
  = Some (map (fun k => one_hot N (Z.to_nat (k mod Z.of_nat N))) idx).
Proof.
  intros Hall.
  rewrite (get_G_valid N idx _ (normalize_all_in_range N idx Hall)).
  rewrite map_map. reflexivity.
Qed.

Lemma get_G_matvec (N : nat) (idx : list Z) (u : vec R) :
  Forall (fun k => (- Z.of_nat N <= k < Z.of_nat N)%Z) idx ->
  length u = N ->
  exists G,
    get_G N idx = Some G
    /\ matvec G u
       = map (fun k => nth (Z.to_nat (k mod Z.of_nat N)) u 0) idx.
Proof.
  intros Hall Hu. eexists. split; [apply get_G_value, Hall |].
  unfold matvec. rewrite map_map. apply map_ext. intros k.
  apply dot_one_hot, Hu.
Qed.

(** X1.  When every index lies in [[-N, N)], [get_G N idx] returns the
    matrix with one row per index, row [i] being zero except for a one in
    column [idx[i]] (counted from the end when negative). *)
Theorem get_G_rows (N : nat) (idx : list Z) :
  Forall (fun k => (- Z.of_nat N <= k < Z.of_nat N)%Z) idx ->
  get_G N idx
  = Some (map (fun k => one_hot N (Z.to_nat (k mod Z.of_nat N))) idx).
Proof.
  intros Hall.
  rewrite (get_G_valid N idx _ (normalize_all_in_range N idx Hall)).
  rewrite map_map. reflexivity.
Qed.

(** X2.  An index outside [[-N, N)] anywhere in [idx] makes [get_G] fail
    (numpy's [IndexError]); no matrix is returned. *)
Theorem get_G_index_error (N : nat) (idx : list Z) :
  Exists (fun k => (k < - Z.of_nat N \/ Z.of_nat N <= k)%Z) idx ->
  get_G N idx = None.
Proof.
  intros Hex. apply Exists_exists in Hex. destruct Hex as (k & Hin & Hk).
  destruct (In_nth idx k 0%Z Hin) as (i & Hi & Hnth).
  destruct (get_G N idx) as [G |] eqn:E; [| reflexivity].
  exfalso. unfold get_G in E.
  apply (get_G_fold_some N idx _ (length idx) G E i Hi).
  rewrite Hnth. apply normalize_index_out_of_range, Hk.
Qed.

(** X3.  Applied to a field of length [N], the matrix [get_G] builds
    reads the field off at the indices: [G @ u] is [u[idx[i]]] for each
    [i]. *)
Theorem get_G_selects (N : nat) (idx : list Z) (u : vec R) :
  Forall (fun k => (- Z.of_nat N <= k < Z.of_nat N)%Z) idx ->
  length u = N ->
  exists G,
    get_G N idx = Some G
    /\ matvec G u
       = map (fun k => nth (Z.to_nat (k mod Z.of_nat N)) u 0) idx.
Proof.
  intros Hall Hu. eexists. split; [apply get_G_value, Hall |].
  unfold matvec. rewrite map_map. apply map_ext. intros k.
  apply dot_one_hot, Hu.
Qed.

Lemma column_sum_counts (N c : nat) (idx : list Z) :
  Forall (fun k => (0 <= k < Z.of_nat N)%Z) idx ->
  (c < N)%nat ->
  vsum (column (map (fun k => one_hot N (Z.to_nat k)) idx) c)
  = INR (count_occ Z.eq_dec idx (Z.of_nat c)).
Proof.
  intros Hall Hc. rewrite vsum_fold_right. unfold column. rewrite map_map.
  induction Hall as [| k idx Hk Hall IH]; [reflexivity |].
  cbn [map fold_right count_occ]. rewrite IH, nth_one_hot by exact Hc.
  destruct (Z.eq_dec k (Z.of_nat c)) as [-> | Hne].
  - rewrite Nat2Z.id, Nat.eqb_refl, S_INR. ring.
  - destruct (Nat.eqb_spec c (Z.to_nat k)) as [-> | _]; [| ring].
    exfalso. apply Hne. lia.
Qed.

(** X4.  For indices in [[0, N)] the matrix of [get_G] is
    [len(idx)] by [N], every row sums to one, and column [c] sums to the
    number of times [c] occurs in [idx]; when the indices are distinct
    (a sample without replacement) no column sums to more than one. *)
Theorem get_G_sums (N : nat) (idx : list Z) :
  Forall (fun k => (0 <= k < Z.of_nat N)%Z) idx ->
  exists G,
    get_G N idx = Some G
    /\ length G = length idx
    /\ (forall i, (i < length idx)%nat ->
          length (nth i G []) = N /\ vsum (nth i G []) = 1)
    /\ (forall c, (c < N)%nat ->
          vsum (column G c) = INR (count_occ Z.eq_dec idx (Z.of_nat c)))
    /\ (NoDup idx -> forall c, (c < N)%nat -> vsum (column G c) <= 1).
Proof.
  intros Hall.
  assert (Hall' : Forall (fun k => (- Z.of_nat N <= k < Z.of_nat N)%Z) idx).
  { eapply Forall_impl; [| exact Hall]. cbv beta. intros k Hk. lia. }
  assert (Hrows : map (fun k => one_hot N (Z.to_nat (k mod Z.of_nat N))) idx
                  = map (fun k => one_hot N (Z.to_nat k)) idx).
  { apply map_ext_in. intros k Hk. rewrite Forall_forall in Hall.
    rewrite Z.mod_small by (apply Hall, Hk). reflexivity. }
  exists (map (fun k => one_hot N (Z.to_nat k)) idx).
  split; [rewrite <- Hrows; apply get_G_value, Hall' |].
  split; [apply length_map |].
  split; [| split].
  - intros i Hi.
    rewrite (nth_indep _ [] (one_hot N (Z.to_nat 0)))
      by (rewrite length_map; exact Hi).
    rewrite (map_nth (fun k => one_hot N (Z.to_nat k))).
    split.
    + unfold one_hot. rewrite length_map, length_seq. reflexivity.
    + apply vsum_one_hot.
      rewrite Forall_forall in Hall.
      pose proof (Hall (nth i idx 0%Z) (nth_In idx 0%Z Hi)). lia.
  - intros c Hc. apply column_sum_counts; assumption.
  - intros Hnd c Hc. rewrite column_sum_counts by assumption.
    rewrite (NoDup_count_occ Z.eq_dec) in Hnd.
    change 1 with (INR 1). apply le_INR, Hnd.
Qed.

(** X5.  [probit] keeps the length and yields only zeros and ones; an
    entry is zero exactly when the value is negative, so zero itself maps
    to one, and applying [probit] to its own output gives all ones. *)
Theorem probit_threshold (v : vec R) :
  length (probit v) = length v
  /\ (forall i, (i < length v)%nat ->
        (nth i (probit v) 0%Z = 0%Z <-> nth i v 0 < 0)
        /\ (nth i (probit v) 0%Z = 1%Z <-> 0 <= nth i v 0))
  /\ probit (map IZR (probit v)) = repeat 1%Z (length v).
Proof.
  unfold probit. split; [apply length_map |]. split.
  - intros i Hi.
    rewrite (nth_indep _ 0%Z (if Rltb 0 0 then 0%Z else 1%Z))
      by (rewrite length_map; exact Hi).
    rewrite (map_nth (fun x => if Rltb x 0 then 0%Z else 1%Z)).
    unfold Rltb. destruct (Rlt_dec (nth i v 0) 0) as [Hlt | Hge].
    + split; split; intros; try reflexivity; try assumption;
        try discriminate; lra.
    + split; split; intros; try reflexivity; try discriminate; lra.
  - rewrite !map_map. induction v as [| x v IH]; [reflexivity |].
    cbn [map length repeat]. rewrite IH. f_equal.
    unfold Rltb. destruct (Rlt_dec x 0).
    + destruct (Rlt_dec (IZR 0) 0); [lra | reflexivity].
    + destruct (Rlt_dec (IZR 1) 0); [lra | reflexivity].
Qed.
End ObservationFacts.

(** ** More on the kernel *)

Section KernelRange.
Local Open Scope R_scope.

Lemma sum_squares_nonneg (a b : vec R) :
  0 <= fold_right Rplus 0
         (map (fun p => (fst p - snd p) ^ 2) (combine a b)).
Proof.
  revert b. induction a as [| x a IH]; intros [| y b];
    cbn [combine map fold_right fst snd]; try lra.
  specialize (IH b). pose proof (pow2_ge_0 (x - y)). lra.
Qed.

Lemma sum_squares_zero (a b : vec R) :
  length a = length b ->
  fold_right Rplus 0 (map (fun p => (fst p - snd p) ^ 2) (combine a b)) = 0 ->
  a = b.
Proof.
  revert b. induction a as [| x a IH]; intros [| y b] Hlen;
    cbn [length] in Hlen; try discriminate; [reflexivity |].
  cbn [combine map fold_right fst snd]. intros Hsum.
  pose proof (sum_squares_nonneg a b) as Hrest.
  pose proof (pow2_ge_0 (x - y)) as Hsq.
  assert (Hxy : (x - y) ^ 2 = 0) by lra.
  assert (x = y).
  { assert (x - y = 0); [| lra].
    destruct (Req_dec (x - y) 0) as [E | E]; [exact E |].
    exfalso. apply (pow_nonzero (x - y) 2) in E. contradiction. }
  subst y. f_equal. apply IH; [lia | lra].
Qed.

Lemma euclidean_nonneg (a b : vec R) : 0 <= euclidean a b.
Proof. unfold euclidean. apply sqrt_pos. Qed.

Lemma euclidean_zero (a b : vec R) :
  length a = length b -> euclidean a b = 0 -> a = b.
Proof.
  intros Hlen Hz. unfold euclidean in Hz.
  apply sum_squares_zero; [exact Hlen |].
  apply sqrt_eq_0; [apply sum_squares_nonneg | exact Hz].
Qed.

Lemma pow2_pos (l : R) : l <> 0 -> 0 < l ^ 2.
Proof.
  intros Hl. pose proof (pow2_ge_0 l).
  pose proof (pow_nonzero l 2 Hl). lra.
Qed.

Lemma exponent_nonpos (d l : R) : l <> 0 -> - d ^ 2 / (2 * l ^ 2) <= 0.
Proof.
  intros Hl.
  assert (0 < l ^ 2) by (apply pow2_pos; exact Hl).
  pose proof (pow2_ge_0 d).
  assert (0 <= d ^ 2 / (2 * l ^ 2)).
  { apply Rmult_le_pos; [assumption |].
    apply Rlt_le, Rinv_0_lt_compat. lra. }
  unfold Rdiv in *. rewrite Ropp_mult_distr_l_reverse. lra.
Qed.

Lemma exp_le_1 (x : R) : x <= 0 -> exp x <= 1.
Proof.
  intros [Hx | ->]; [| rewrite exp_0; lra].
  rewrite <- exp_0. apply Rlt_le, exp_increasing, Hx.
Qed.

(** X6.  For a length-scale whose square is an ordinary float64 every
    entry of the kernel matrix lies in [[0, 1]], and the entry of two
    coinciding points is [1]: repeated points are perfectly
    correlated. *)
Theorem GaussianKernel_range (x : list (vec R)) (l : R) (i j : nat) :
  safe_length_scale l -> (i < length x)%nat -> (j < length x)%nat ->
  0 <= entry (GaussianKernel x l) i j <= 1
  /\ (nth i x [] = nth j x [] -> entry (GaussianKernel x l) i j = 1).
Proof.
  intros Hl Hi Hj. apply safe_length_scale_nonzero in Hl.
  rewrite entry_GaussianKernel, minkowski_is_euclidean by trivial.
  set (d := euclidean (nth i x []) (nth j x [])).
  split.
  - split; [apply Rlt_le, exp_pos | apply exp_le_1, exponent_nonpos, Hl].
  - intros Heq. unfold d. rewrite Heq, euclidean_self.
    replace (- 0 ^ 2 / (2 * l ^ 2)) with 0
      by (field; apply pow_nonzero with (n := 1%nat) in Hl; lra).
    apply exp_0.
Qed.

(** X7.  The kernel depends on the length-scale through its square only:
    a negative length-scale is not rejected and gives the matrix of its
    absolute value. *)
Theorem GaussianKernel_negative_length_scale (x : list (vec R)) (l : R) :
  GaussianKernel x (- l) = GaussianKernel x l.
Proof.
  unfold GaussianKernel. apply map_ext. intros row.
  apply map_ext. intros d. f_equal. f_equal. f_equal. ring.
Qed.

(** X8.  Entries grow with the length-scale: for [0 < l1 <= l2], both
    with a square that is an ordinary float64, every entry of the kernel
    for [l1] is at most the entry for [l2]. *)
Theorem GaussianKernel_monotone (x : list (vec R)) (l1 l2 : R) (i j : nat) :
  safe_length_scale l1 -> safe_length_scale l2 ->
  0 < l1 -> l1 <= l2 -> (i < length x)%nat -> (j < length x)%nat ->
  entry (GaussianKernel x l1) i j <= entry (GaussianKernel x l2) i j.
Proof.
  intros _ _ H1 H12 Hi Hj.
  rewrite !entry_GaussianKernel by trivial.
  set (d := minkowski_distance (nth i x []) (nth j x [])).
  assert (Hsq : 0 < l1 ^ 2 <= l2 ^ 2) by nra.
  assert (Hinv : / (2 * l2 ^ 2) <= / (2 * l1 ^ 2)).
  { apply Rinv_le_contravar; lra. }
  pose proof (pow2_ge_0 d) as Hd.
  assert (Hle : - d ^ 2 / (2 * l1 ^ 2) <= - d ^ 2 / (2 * l2 ^ 2)).
  { unfold Rdiv. rewrite !Ropp_mult_distr_l_reverse.
    apply Ropp_le_contravar. apply Rmult_le_compat_l; assumption. }
  destruct Hle as [Hlt | Heq].
  - apply Rlt_le, exp_increasing, Hlt.
  - rewrite Heq. lra.
Qed.
End KernelRange.

(** ** More on the densities *)

Section DensityExtras.
Local Open Scope R_scope.

Lemma dot_scale_l (t : R) (a b : vec R) :
  dot (vscale t a) b = t * dot a b.
Proof.
  rewrite !dot_fold_right. unfold vscale. revert b.
  induction a as [| x a IH]; intros [| y b];
    cbn [map combine fold_right fst snd]; try ring.
  rewrite IH. cbn [fmul R_FloatOps]. ring.
Qed.

Lemma dot_scale_r (t : R) (a b : vec R) :
  dot a (vscale t b) = t * dot a b.
Proof.
  rewrite !dot_fold_right. unfold vscale. revert b.
  induction a as [| x a IH]; intros [| y b];
    cbn [map combine fold_right fst snd]; try ring.
  rewrite IH. cbn [fmul R_FloatOps]. ring.
Qed.

Lemma vecmat_scale (t : R) (u : vec R) (K : matrix R) :
  vecmat (vscale t u) K = vscale t (vecmat u K).
Proof.
  unfold vecmat. unfold vscale at 2. rewrite map_map.
  apply map_ext. intros col. apply dot_scale_l.
Qed.

Lemma quadratic_form_scale (t : R) (u : vec R) (K : matrix R) :
  dot (vecmat (vscale t u) K) (vscale t u)
  = t ^ 2 * dot (vecmat u K) u.
Proof. rewrite vecmat_scale, dot_scale_l, dot_scale_r. ring. Qed.

(** X9.  Along a ray [t u] the log-prior is a downward parabola in [t]
    when the quadratic form [u^T K_inverse u] is nonnegative: it equals
    its value at [t = 1] shifted by [-1/2 (t^2 - 1) u^T K_inverse u], so
    it does not increase as [t >= 0] grows. *)
Theorem log_prior_along_ray (u : vec R) (K_inverse : matrix R) (s t : R) :
  0 <= dot (vecmat u K_inverse) u -> 0 <= s <= t ->
  exists ps pt,
    log_prior (vscale s u) K_inverse = Returns (PyFloat ps)
    /\ log_prior (vscale t u) K_inverse = Returns (PyFloat pt)
    /\ pt - ps = - (1 / 2) * (t ^ 2 - s ^ 2) * dot (vecmat u K_inverse) u
    /\ pt <= ps.
Proof.
  intros Hq Hst. eexists _, _.
  split; [apply log_prior_value |]. split; [apply log_prior_value |].
  rewrite !quadratic_form_scale. unfold vscale. rewrite !length_map.
  split; [ring |].
  assert (Hsq : s ^ 2 <= t ^ 2) by nra.
  set (q := dot (vecmat u K_inverse) u) in *.
  assert (s ^ 2 * q <= t ^ 2 * q) by (apply Rmult_le_compat_r; assumption).
  lra.
Qed.

Lemma likelihood_value (u v : vec R) (G : matrix R) :
  log_continuous_likelihood u v G
  = Returns (PyFloat
      (- (1 / 2) * fold_right Rplus 0
                     (map (fun p => (fst p - snd p) ^ 2)
                          (combine v (matvec G u)))
       - INR (length v) / 2 * ln (2 * PI))).
Proof.
  unfold log_continuous_likelihood. do 2 f_equal.
  rewrite vsum_fold_right. unfold vsub, zip_with. rewrite map_map.
  cbn [fsub R_FloatOps]. lra.
Qed.

(** X10.  On conformal arrays ([G] has [len(v)] rows of [len(u)]
    entries) the Gaussian log-likelihood is a float that never exceeds
    [-(n/2) log(2 pi)], [n = len(v)], and it takes that value at a perfect
    fit [G u = v]. *)
Theorem log_continuous_likelihood_bound (u v : vec R) (G : matrix R) :
  length G = length v ->
  Forall (fun row => length row = length u) G ->
  exists x,
    log_continuous_likelihood u v G = Returns (PyFloat x)
    /\ x <= - INR (length v) / 2 * ln (2 * PI)
    /\ (matvec G u = v -> x = - INR (length v) / 2 * ln (2 * PI)).
Proof.
  intros _ _.
  eexists. split; [apply likelihood_value |].
  pose proof (sum_squares_nonneg v (matvec G u)) as Hn.
  split; [lra |].
  intros Hfit. rewrite Hfit.
  assert (Hz : fold_right Rplus 0
                 (map (fun p => (fst p - snd p) ^ 2) (combine v v)) = 0).
  { pose proof (euclidean_self v) as He. unfold euclidean in He.
    apply sqrt_eq_0; [apply sum_squares_nonneg | exact He]. }
  rewrite Hz. lra.
Qed.

(** X11.  In [log_continuous_target] the log-determinant and the
    [log(2 pi)] terms are the same at every state of a given length, so
    the difference between two states, which is all [grw] looks at, is
    [-1/2] times the change of the quadratic form plus the change of the
    squared residual. *)
Theorem log_continuous_target_difference
    (u1 u2 y : vec R) (K_inverse G : matrix R) :
  length u1 = length u2 ->
  exists a b,
    log_continuous_target u1 y K_inverse G = Returns (PyFloat a)
    /\ log_continuous_target u2 y K_inverse G = Returns (PyFloat b)
    /\ a - b
       = - (1 / 2) * (dot (vecmat u1 K_inverse) u1
                      - dot (vecmat u2 K_inverse) u2)
         - 1 / 2 * (vsum (map (fun x => x ^ 2) (vsub y (matvec G u1)))
                    - vsum (map (fun x => x ^ 2) (vsub y (matvec G u2)))).
Proof.
  intros Hlen. unfold log_continuous_target.
  rewrite !log_prior_value. cbn [obind].
  unfold log_continuous_likelihood. cbn [obind py_add].
  eexists _, _. split; [reflexivity |]. split; [reflexivity |].
  cbn [fadd R_FloatOps]. rewrite Hlen. lra.
Qed.
End DensityExtras.

(** ** More on [subsample] *)

Section SubsampleExtras.
Variable rng : Type.
Variable seeded : Z -> rng.
Variable np_random_choice : Z -> Z -> np rng (list Z).

#[local] Abbreviation run_subsample := (subsample seeded np_random_choice).

(** X12.  The outcomes of [subsample]: a factor below one (or a NaN)
    fails the assertion before anything else happens; an error of the
    division [N / factor] or of the conversion [int(np.ceil(...))] comes
    next; otherwise, with [m] the ceiling of the float64 quotient, a falsy
    seed ([None] or [0]) draws [m] indices from the generator as it
    stands, a nonzero seed that numpy accepts draws them from the freshly
    seeded generator, and a nonzero seed outside [[0, 2^32)] raises
    [ValueError]. *)
Theorem subsample_outcomes (N : Z) (factor : Float64.number)
    (seed : option Z) (g : rng) :
  (Float64.ge_one factor = false ->
     run_subsample N factor seed g = Raises AssertionError)
  /\ (Float64.ge_one factor = true ->
      (forall e, Float64.truediv N factor = Raises e ->
         run_subsample N factor seed g = Raises e)
      /\ (forall q, Float64.truediv N factor = Returns q ->
          (forall e, Float64.int_of_ceil q = Raises e ->
             run_subsample N factor seed g = Raises e)
          /\ (forall m, Float64.int_of_ceil q = Returns m ->
              (truthy seed = false ->
                 run_subsample N factor seed g = np_random_choice N m g)
              /\ (forall s, seed = Some s -> s <> 0%Z ->
                    (0 <= s < 2 ^ 32)%Z ->
                    run_subsample N factor seed g
                    = np_random_choice N m (seeded s))
              /\ (forall s, seed = Some s -> s <> 0%Z ->
                    (s < 0 \/ 2 ^ 32 <= s)%Z ->
                    run_subsample N factor seed g = Raises ValueError)))).
Proof.
  destruct (subsample_early_exit rng seeded np_random_choice N factor seed g)
    as [Hassert Hearly].
  split; [exact Hassert |]. intros Hf.
  destruct (Hearly Hf) as [Hdiv Hceil].
  split; [exact Hdiv |]. intros q Hq.
  split; [intros e He; exact (Hceil q e Hq He) |]. intros m Hm.
  split; [| split].
  - intros Hs.
    exact (subsample_unseeded rng seeded np_random_choice N factor q m seed g
             Hf Hq Hm Hs).
  - intros s -> Hs Hr.
    exact (subsample_seeded rng seeded np_random_choice N factor q m s g
             Hf Hq Hm Hs Hr).
  - intros s -> Hs Hr.
    exact (subsample_rejected_seed rng seeded np_random_choice N factor q m
             s g Hf Hq Hm Hs Hr).
Qed.
End SubsampleExtras.

(** ** More on the samplers *)

Section SamplerExtras.
Context {F : Type} `{FloatOps F}.
Variable rng : Type.
Variable np_random_normal : nat -> rng -> vec F * rng.
Variable np_random_random : rng -> F * rng.
Variable np_linalg_cholesky : matrix F -> outcome (matrix F).
Variable np_linalg_inv : matrix F -> outcome (matrix F).
Variable Data : Type.

#[local] Abbreviation run_grw :=
  (grw np_random_normal np_random_random np_linalg_cholesky np_linalg_inv).
#[local] Abbreviation run_pcn :=
  (pcn np_random_normal np_random_random np_linalg_cholesky np_linalg_inv).
#[local] Abbreviation grw_body :=
  (grw_iter np_random_normal np_random_random).
#[local] Abbreviation pcn_body :=
  (pcn_iter np_random_normal np_random_random).
#[local] Abbreviation grw_step :=
  (grw_step_spec np_random_normal np_random_random).
#[local] Abbreviation pcn_step :=
  (pcn_step_spec np_random_normal np_random_random).

Lemma for_range_succ_end (S : Type) (body : S -> np rng S) :
  forall n s g,
    for_range (Datatypes.S n) body s g
    = bind (for_range n body s) body g.
Proof.
  induction n as [| n IH]; intros s g.
  - cbn [for_range]. unfold bind, ret.
    destruct (body s g) as [[s' g'] | e]; reflexivity.
  - change (for_range (Datatypes.S (Datatypes.S n)) body s g)
      with (bind (body s) (for_range (Datatypes.S n) body) g).
    change (for_range (Datatypes.S n) body s)
      with (bind (body s) (for_range n body)).
    unfold bind.
    destruct (body s g) as [[s' g'] | e]; [| reflexivity].
    rewrite IH. reflexivity.
Qed.

(** X14.  With a negative [n_iters] the loop does not run and the
    division is defined: both samplers return an empty chain, the rate
    [0 / n_iters], which is zero, and the generator untouched. *)
Theorem samplers_negative_iterations
    (log_target : vec F -> Data -> matrix F -> matrix F -> outcome (pyval F))
    (log_likelihood : vec F -> Data -> matrix F -> outcome (pyval F))
    (u0 : vec F) (data : Data) (K G : matrix F) (n_iters : Z) (beta : F)
    (Kc Kc_inverse : matrix F) (v w : pyval F) (g : rng) :
  (n_iters < 0)%Z ->
  np_linalg_cholesky (jittered K) = Returns Kc ->
  np_linalg_inv Kc = Returns Kc_inverse ->
  log_target u0 data (matmul (transpose Kc_inverse) Kc_inverse) G
    = Returns v ->
  log_likelihood u0 data G = Returns w ->
  run_grw log_target u0 data K G n_iters beta g
    = Returns (([], (inject_Z 0 / inject_Z n_iters)%Q), g)
  /\ run_pcn log_likelihood u0 data K G n_iters beta g
     = Returns (([], (inject_Z 0 / inject_Z n_iters)%Q), g)
  /\ (inject_Z 0 / inject_Z n_iters == 0)%Q.
Proof.
  intros Hn Hc Hi Hv Hw.
  destruct n_iters as [| p | p]; try lia.
  split; [| split].
  - unfold grw, bind, call. rewrite Hc, Hi, Hv. reflexivity.
  - unfold pcn, bind, call. rewrite Hc, Hi, Hw. reflexivity.
  - unfold Qdiv. apply Qmult_0_l.
Qed.

(** X15.  An exception of the density is the exception of the sampler:
    raised at the first evaluation it surfaces whatever [n_iters] is
    (zero included), raised at the first proposal it surfaces for every
    [n_iters >= 1]; no chain is returned. *)
Theorem samplers_propagate_density_errors
    (log_target : vec F -> Data -> matrix F -> matrix F -> outcome (pyval F))
    (log_likelihood : vec F -> Data -> matrix F -> outcome (pyval F))
    (u0 : vec F) (data : Data) (K G : matrix F) (n_iters : Z) (beta : F)
    (Kc Kc_inverse : matrix F) (e : exn) (g : rng) :
  np_linalg_cholesky (jittered K) = Returns Kc ->
  np_linalg_inv Kc = Returns Kc_inverse ->
  (log_target u0 data (matmul (transpose Kc_inverse) Kc_inverse) G
     = Raises e ->
   run_grw log_target u0 data K G n_iters beta g = Raises e)
  /\ (log_likelihood u0 data G = Raises e ->
      run_pcn log_likelihood u0 data K G n_iters beta g = Raises e)
  /\ (forall x,
        (1 <= n_iters)%Z ->
        log_target u0 data (matmul (transpose Kc_inverse) Kc_inverse) G
          = Returns x ->
        log_target
          (vadd u0
             (vscale beta
                (matvec Kc (fst (np_random_normal (length u0) g)))))
          data (matmul (transpose Kc_inverse) Kc_inverse) G
          = Raises e ->
        run_grw log_target u0 data K G n_iters beta g = Raises e)
  /\ (forall x,
        (1 <= n_iters)%Z ->
        log_likelihood u0 data G = Returns x ->
        log_likelihood
          (vadd (vscale (fsqrt (fsub (f_lit 1) (fpow beta 2))) u0)
             (vscale beta
                (matvec Kc (fst (np_random_normal (length u0) g)))))
          data G
          = Raises e ->
        run_pcn log_likelihood u0 data K G n_iters beta g = Raises e).
Proof.
  intros Hc Hi. split; [| split; [| split]].
  - intros He. unfold grw, bind, call. rewrite Hc, Hi, He. reflexivity.
  - intros He. unfold pcn, bind, call. rewrite Hc, Hi, He. reflexivity.
  - intros x Hn Hx He. unfold grw, bind, call. rewrite Hc, Hi, Hx.
    destruct (Z.to_nat n_iters) as [| n] eqn:En; [lia |].
    cbn [for_range]. unfold grw_iter. unfold bind, draw, call.
    cbn [u_prev lp_prev].
    destruct (np_random_normal (length u0) g) as [z g1].
    cbn [fst] in He. rewrite He. reflexivity.
  - intros x Hn Hx He. unfold pcn, bind, call. rewrite Hc, Hi, Hx.
    destruct (Z.to_nat n_iters) as [| n] eqn:En; [lia |].
    cbn [for_range]. unfold pcn_iter. unfold bind, draw, call.
    cbn [u_prev lp_prev].
    destruct (np_random_normal (length u0) g) as [z g1].
    cbn [fst] in He. rewrite He. reflexivity.
Qed.

Lemma iterate_acc_monotone
    (R : chain F * rng -> chain F * rng -> Prop) :
  (forall a b, R a b -> (acc (fst a) <= acc (fst b))%Z) ->
  forall n a b, iterate R n a b -> (acc (fst a) <= acc (fst b))%Z.
Proof.
  intros HR n a b Hit. induction Hit as [s | n s s' s'' Hr Hit IH]; [lia |].
  specialize (HR _ _ Hr). lia.
Qed.

Lemma iterate_all_rejected
    (R : chain F * rng -> chain F * rng -> Prop) :
  (forall a b, R a b ->
     (acc (fst b) = acc (fst a) + 1)%Z
     \/ (acc (fst b) = acc (fst a)
         /\ X (fst b) = X (fst a) ++ [u_prev (fst a)]
         /\ u_prev (fst b) = u_prev (fst a))) ->
  forall n a b,
    iterate R n a b ->
    acc (fst b) = acc (fst a) ->
    X (fst b) = X (fst a) ++ repeat (u_prev (fst a)) n
    /\ u_prev (fst b) = u_prev (fst a).
Proof.
  intros HR.
  assert (Hmono : forall a b, R a b -> (acc (fst a) <= acc (fst b))%Z).
  { intros a b Hr. destruct (HR a b Hr) as [Ha | [Ha _]]; lia. }
  intros n a b Hit. induction Hit as [s | n s s' s'' Hr Hit IH]; intros Hacc.
  - cbn [repeat]. rewrite app_nil_r. split; reflexivity.
  - pose proof (iterate_acc_monotone R Hmono _ _ _ Hit) as Hle.
    destruct (HR _ _ Hr) as [Ha | (Ha & HX & Hu)]; [lia |].
    destruct (IH ltac:(lia)) as [IHX IHu].
    rewrite IHX, IHu, HX, Hu, <- app_assoc. split; reflexivity.
Qed.

Lemma grw_step_cases log_target (data : Data) K_inverse G Kc beta a b :
  grw_step log_target data K_inverse G Kc beta a b ->
  (acc (fst b) = acc (fst a) + 1)%Z
  \/ (acc (fst b) = acc (fst a)
      /\ X (fst b) = X (fst a) ++ [u_prev (fst a)]
      /\ u_prev (fst b) = u_prev (fst a)).
Proof.
  intros Hs. inversion Hs; subst; cbn [fst X acc u_prev]; [left | right];
    repeat split.
Qed.

Lemma pcn_step_cases log_likelihood (y : Data) G Kc beta a b :
  pcn_step log_likelihood y G Kc beta a b ->
  (acc (fst b) = acc (fst a) + 1)%Z
  \/ (acc (fst b) = acc (fst a)
      /\ X (fst b) = X (fst a) ++ [u_prev (fst a)]
      /\ u_prev (fst b) = u_prev (fst a)).
Proof.
  intros Hs. inversion Hs; subst; cbn [fst X acc u_prev]; [left | right];
    repeat split.
Qed.

Lemma zero_rate_zero_count (a n : Z) :
  (1 <= n)%Z -> (inject_Z a / inject_Z n == 0)%Q -> a = 0%Z.
Proof.
  intros Hn Hz.
  assert (Hnz : ~ (inject_Z n == 0)%Q).
  { change 0%Q with (inject_Z 0). rewrite inject_Z_injective. lia. }
  assert (Ha : (inject_Z a == inject_Z a / inject_Z n * inject_Z n)%Q)
    by (field; exact Hnz).
  rewrite Hz, Qmult_0_l in Ha.
  change 0%Q with (inject_Z 0) in Ha. rewrite inject_Z_injective in Ha.
  exact Ha.
Qed.

(** X16.  A run that reports the rate zero moved nowhere: for
    [n_iters >= 1] and valid inputs, if [grw] (or [pcn]) returns a rate
    equal to [0], its chain is [n_iters] copies of [u0]. *)
Theorem zero_rate_chain_is_constant
    (log_target : vec F -> Data -> matrix F -> matrix F -> outcome (pyval F))
    (log_likelihood : vec F -> Data -> matrix F -> outcome (pyval F))
    (u0 : vec F) (data : Data) (K G : matrix F) (n_iters : Z) (beta : F)
    (Kc Kc_inverse : matrix F) (g : rng) :
  (1 <= n_iters)%Z ->
  np_linalg_cholesky (jittered K) = Returns Kc ->
  np_linalg_inv Kc = Returns Kc_inverse ->
  (forall u, exists x,
      log_target u data (matmul (transpose Kc_inverse) Kc_inverse) G
      = Returns (PyFloat x)) ->
  (forall u, exists x, log_likelihood u data G = Returns (PyFloat x)) ->
  (forall Xs rate gf,
      run_grw log_target u0 data K G n_iters beta g
        = Returns ((Xs, rate), gf) ->
      (rate == 0)%Q -> Xs = repeat u0 (Z.to_nat n_iters))
  /\ (forall Xs rate gf,
        run_pcn log_likelihood u0 data K G n_iters beta g
          = Returns ((Xs, rate), gf) ->
        (rate == 0)%Q -> Xs = repeat u0 (Z.to_nat n_iters)).
Proof.
  intros Hn Hc Hi Hft Hfl. split; intros Xs rate gf Hret Hrate.
  - destruct (grw_returns_chain rng np_random_normal np_random_random
                np_linalg_cholesky np_linalg_inv Data log_target
                u0 data K G n_iters beta Kc Kc_inverse g Hn Hc Hi Hft)
      as (lt0 & sf & gf' & Hit & Hrun & _).
    rewrite Hrun in Hret. injection Hret as HX Hr Hg. subst Xs rate.
    apply zero_rate_zero_count in Hrate; [| exact Hn].
    destruct (iterate_all_rejected _ (grw_step_cases _ _ _ _ _ _) _ _ _ Hit)
      as [HX _]; [cbn [fst acc]; exact Hrate |].
    exact HX.
  - destruct (pcn_returns_chain rng np_random_normal np_random_random
                np_linalg_cholesky np_linalg_inv Data log_likelihood
                u0 data K G n_iters beta Kc Kc_inverse g Hn Hc Hi Hfl)
      as (ll0 & sf & gf' & Hit & Hrun & _).
    rewrite Hrun in Hret. injection Hret as HX Hr Hg. subst Xs rate.
    apply zero_rate_zero_count in Hrate; [| exact Hn].
    destruct (iterate_all_rejected _ (pcn_step_cases _ _ _ _ _) _ _ _ Hit)
      as [HX _]; [cbn [fst acc]; exact Hrate |].
    exact HX.
Qed.

Lemma grw_step_appends log_target (data : Data) K_inverse G Kc beta a b :
  grw_step log_target data K_inverse G Kc beta a b ->
  exists u, X (fst b) = X (fst a) ++ [u].
Proof. intros Hs. inversion Hs; subst; cbn [fst X]; eexists; reflexivity. Qed.

Lemma pcn_step_appends log_likelihood (y : Data) G Kc beta a b :
  pcn_step log_likelihood y G Kc beta a b ->
  exists u, X (fst b) = X (fst a) ++ [u].
Proof. intros Hs. inversion Hs; subst; cbn [fst X]; eexists; reflexivity. Qed.

Lemma grw_extends
    (log_target : vec F -> Data -> matrix F -> matrix F -> outcome (pyval F))
    (u0 : vec F) (data : Data) (K G : matrix F) (n_iters : Z) (beta : F)
    (Kc Kc_inverse : matrix F) (g : rng) :
  (1 <= n_iters)%Z ->
  np_linalg_cholesky (jittered K) = Returns Kc ->
  np_linalg_inv Kc = Returns Kc_inverse ->
  (forall u, exists x,
      log_target u data (matmul (transpose Kc_inverse) Kc_inverse) G
      = Returns (PyFloat x)) ->
  exists X1 r1 g1 u r2 g2,
    run_grw log_target u0 data K G n_iters beta g = Returns ((X1, r1), g1)
    /\ run_grw log_target u0 data K G (n_iters + 1) beta g
       = Returns ((X1 ++ [u], r2), g2).
Proof.
  intros Hn Hc Hi Hf.
  destruct (Hf u0) as [lt0 Hlt0].
  destruct (for_range_iterate _ _ _ _ _
              (grw_iter_step rng np_random_normal np_random_random Data
                 log_target data _ G Kc beta Hf)
              (Z.to_nat n_iters) (Chain [] 0 u0 (PyFloat lt0)) g)
    as (s1 & g1 & Hloop & _ & Hinv); [exists lt0; reflexivity |].
  destruct (grw_iter_step rng np_random_normal np_random_random Data
              log_target data _ G Kc beta Hf s1 g1 Hinv)
    as (s2 & g2 & Hb & Hstep & _).
  destruct (grw_step_appends _ _ _ _ _ _ _ _ Hstep) as [u Hu].
  cbn [fst] in Hu.
  exists (X s1), (inject_Z (acc s1) / inject_Z n_iters)%Q, g1, u,
    (inject_Z (acc s2) / inject_Z (n_iters + 1))%Q, g2.
  split.
  - unfold grw, bind, call. rewrite Hc, Hi, Hlt0, Hloop.
    rewrite int_truediv_nonzero by exact Hn. reflexivity.
  - unfold grw. unfold bind at 1 2 3, call. rewrite Hc, Hi, Hlt0.
    replace (Z.to_nat (n_iters + 1)) with (Datatypes.S (Z.to_nat n_iters))
      by lia.
    unfold bind at 1. rewrite for_range_succ_end.
    unfold bind at 1. rewrite Hloop, Hb.
    unfold bind, call, ret.
    rewrite int_truediv_nonzero by lia. rewrite Hu. reflexivity.
Qed.

Lemma pcn_extends
    (log_likelihood : vec F -> Data -> matrix F -> outcome (pyval F))
    (u0 : vec F) (y : Data) (K G : matrix F) (n_iters : Z) (beta : F)
    (Kc Kc_inverse : matrix F) (g : rng) :
  (1 <= n_iters)%Z ->
  np_linalg_cholesky (jittered K) = Returns Kc ->
  np_linalg_inv Kc = Returns Kc_inverse ->
  (forall u, exists x, log_likelihood u y G = Returns (PyFloat x)) ->
  exists X1 r1 g1 u r2 g2,
    run_pcn log_likelihood u0 y K G n_iters beta g = Returns ((X1, r1), g1)
    /\ run_pcn log_likelihood u0 y K G (n_iters + 1) beta g
       = Returns ((X1 ++ [u], r2), g2).
Proof.
  intros Hn Hc Hi Hf.
  destruct (Hf u0) as [ll0 Hll0].
  destruct (for_range_iterate _ _ _ _ _
              (pcn_iter_step rng np_random_normal np_random_random Data
                 log_likelihood y G Kc beta Hf)
              (Z.to_nat n_iters) (Chain [] 0 u0 (PyFloat ll0)) g)
    as (s1 & g1 & Hloop & _ & Hinv); [exists ll0; reflexivity |].
  destruct (pcn_iter_step rng np_random_normal np_random_random Data
              log_likelihood y G Kc beta Hf s1 g1 Hinv)
    as (s2 & g2 & Hb & Hstep & _).
  destruct (pcn_step_appends _ _ _ _ _ _ _ Hstep) as [u Hu].
  cbn [fst] in Hu.
  exists (X s1), (inject_Z (acc s1) / inject_Z n_iters)%Q, g1, u,
    (inject_Z (acc s2) / inject_Z (n_iters + 1))%Q, g2.
  split.
  - unfold pcn, bind, call. rewrite Hc, Hi, Hll0, Hloop.
    rewrite int_truediv_nonzero by exact Hn. reflexivity.
  - unfold pcn. unfold bind at 1 2 3, call. rewrite Hc, Hi, Hll0.
    replace (Z.to_nat (n_iters + 1)) with (Datatypes.S (Z.to_nat n_iters))
      by lia.
    unfold bind at 1. rewrite for_range_succ_end.
    unfold bind at 1. rewrite Hloop, Hb.
    unfold bind, call, ret.
    rewrite int_truediv_nonzero by lia. rewrite Hu. reflexivity.
Qed.

(** X17.  One more iteration only appends: from the same generator state
    and inputs, the chain of a run with [n_iters + 1] iterations is the
    chain of the run with [n_iters] iterations followed by one further
    state, for [grw] and for [pcn]. *)
Theorem longer_run_extends_chain
    (log_target : vec F -> Data -> matrix F -> matrix F -> outcome (pyval F))
    (log_likelihood : vec F -> Data -> matrix F -> outcome (pyval F))
    (u0 : vec F) (data : Data) (K G : matrix F) (n_iters : Z) (beta : F)
    (Kc Kc_inverse : matrix F) (g : rng) :
  (1 <= n_iters)%Z ->
  np_linalg_cholesky (jittered K) = Returns Kc ->
  np_linalg_inv Kc = Returns Kc_inverse ->
  (forall u, exists x,
      log_target u data (matmul (transpose Kc_inverse) Kc_inverse) G
      = Returns (PyFloat x)) ->
  (forall u, exists x, log_likelihood u data G = Returns (PyFloat x)) ->
  (exists X1 r1 g1 u r2 g2,
      run_grw log_target u0 data K G n_iters beta g
        = Returns ((X1, r1), g1)
      /\ run_grw log_target u0 data K G (n_iters + 1) beta g
         = Returns ((X1 ++ [u], r2), g2))
  /\ (exists X1 r1 g1 u r2 g2,
        run_pcn log_likelihood u0 data K G n_iters beta g
          = Returns ((X1, r1), g1)
        /\ run_pcn log_likelihood u0 data K G (n_iters + 1) beta g
           = Returns ((X1 ++ [u], r2), g2)).
Proof.
  intros Hn Hc Hi Hft Hfl. split.
  - eapply grw_extends; eassumption.
  - eapply pcn_extends; eassumption.
Qed.
End SamplerExtras.

(** ** The samplers on the real densities *)

Section RealSamplers.
Local Open Scope R_scope.
Variable rng : Type.
Variable np_random_normal : nat -> rng -> vec R * rng.
Variable np_random_random : rng -> R * rng.
Variable np_linalg_cholesky : matrix R -> outcome (matrix R).
Variable np_linalg_inv : matrix R -> outcome (matrix R).
Variable norm_cdf : R -> R.

#[local] Abbreviation run_grw :=
  (grw np_random_normal np_random_random np_linalg_cholesky np_linalg_inv
       (Data := vec R)).
#[local] Abbreviation run_pcn :=
  (pcn np_random_normal np_random_random np_linalg_cholesky np_linalg_inv
       (Data := vec R)).

(** X18.  The unfinished observation models cannot be sampled: [grw]
    with [log_probit_target] or [log_poisson_target] raises [TypeError]
    at its first evaluation, whatever [n_iters], and [pcn] with
    [log_probit_likelihood] or [log_poisson_likelihood] raises
    [TypeError] in its first iteration when [n_iters >= 1]. *)
Theorem unfinished_models_cannot_be_sampled
    (u0 data : vec R) (K G : matrix R) (n_iters : Z) (beta : R)
    (Kc Kc_inverse : matrix R) (g : rng) :
  np_linalg_cholesky (jittered K) = Returns Kc ->
  np_linalg_inv Kc = Returns Kc_inverse ->
  run_grw (log_probit_target norm_cdf) u0 data K G n_iters beta g
    = Raises TypeError
  /\ run_grw log_poisson_target u0 data K G n_iters beta g
     = Raises TypeError
  /\ ((1 <= n_iters)%Z ->
      run_pcn (log_probit_likelihood norm_cdf) u0 data K G n_iters beta g
        = Raises TypeError
      /\ run_pcn log_poisson_likelihood u0 data K G n_iters beta g
         = Raises TypeError).
Proof.
  intros Hc Hi. split; [| split].
  - unfold grw, bind, call. rewrite Hc, Hi.
    unfold log_probit_target. rewrite log_prior_value. reflexivity.
  - unfold grw, bind, call. rewrite Hc, Hi.
    unfold log_poisson_target. rewrite log_prior_value. reflexivity.
  - intros Hn. split.
    + apply (pcn_none_likelihood_raises rng np_random_normal
               np_random_random np_linalg_cholesky np_linalg_inv (vec R)
               (log_probit_likelihood norm_cdf) u0 data K G n_iters beta
               Kc Kc_inverse g Hn Hc Hi).
      intros u. reflexivity.
    + apply (pcn_none_likelihood_raises rng np_random_normal
               np_random_random np_linalg_cholesky np_linalg_inv (vec R)
               log_poisson_likelihood u0 data K G n_iters beta
               Kc Kc_inverse g Hn Hc Hi).
      intros u. reflexivity.
Qed.

(** C5, as the code has it.  [pcn] never inspects [beta].  For every
    [beta] in [[-1, 1]], which includes the values [beta <= 0] and
    [beta = 1] outside the open unit interval, a run with [n_iters >= 1],
    a successful factorisation, a float-valued likelihood and uniform
    draws strictly between [0] and [1] raises nothing: it performs
    [n_iters] iterations, each proposing with the very [beta] that was
    passed, and returns [n_iters] states. *)
Theorem pcn_does_not_validate_beta
    (log_likelihood : vec R -> vec R -> matrix R -> outcome (pyval R))
    (u0 y : vec R) (K G : matrix R) (n_iters : Z) (beta : R)
    (Kc Kc_inverse : matrix R) (g : rng) :
  -1 <= beta <= 1 ->
  (1 <= n_iters)%Z ->
  np_linalg_cholesky (jittered K) = Returns Kc ->
  np_linalg_inv Kc = Returns Kc_inverse ->
  (forall u, exists x, log_likelihood u y G = Returns (PyFloat x)) ->
  (forall g0, 0 < fst (np_random_random g0) < 1) ->
  exists ll0 sf gf,
    iterate (pcn_step_spec np_random_normal np_random_random
               log_likelihood y G Kc beta)
      (Z.to_nat n_iters) (Chain [] 0 u0 (PyFloat ll0), g) (sf, gf)
    /\ run_pcn log_likelihood u0 y K G n_iters beta g
       = Returns ((X sf, (inject_Z (acc sf) / inject_Z n_iters)%Q), gf)
    /\ ~ raised (run_pcn log_likelihood u0 y K G n_iters beta g)
    /\ length (X sf) = Z.to_nat n_iters.
Proof.
  intros Hb Hn Hc Hi Hf HU.
  destruct (pcn_returns_chain rng np_random_normal np_random_random
              np_linalg_cholesky np_linalg_inv (vec R) log_likelihood
              u0 y K G n_iters beta Kc Kc_inverse g Hn Hc Hi Hf)
    as (ll0 & sf & gf & Hit & Hrun & Hlen & _).
  exists ll0, sf, gf. repeat split; trivial.
  intros [e He]. rewrite Hrun in He. discriminate He.
Qed.

Lemma vadd_zero_scale (u w : vec R) :
  (length u <= length w)%nat -> vadd u (vscale 0 w) = u.
Proof.
  unfold vadd, vscale, zip_with. revert w.
  induction u as [| x u IH]; intros [| y w] Hlen; cbn [length] in Hlen;
    try reflexivity; try lia.
  cbn [map combine fst snd]. rewrite IH by lia.
  cbn [fadd fmul R_FloatOps]. f_equal. ring.
Qed.

Lemma vscale_one (u : vec R) : vscale 1 u = u.
Proof.
  unfold vscale. induction u as [| x u IH]; [reflexivity |].
  cbn [map]. rewrite IH. cbn [fmul R_FloatOps]. f_equal. ring.
Qed.

Lemma pcn_zero_step_factor : fsqrt (fsub (f_lit 1) (fpow 0 2)) = 1.
Proof.
  cbn [fsqrt fsub f_lit fpow R_FloatOps]. rewrite Q2R_one.
  replace (1 - 0 ^ 2) with 1 by ring. apply sqrt_1.
Qed.

Lemma ln_negative (U : R) : 0 < U < 1 -> ln U < 0.
Proof. intros HU. rewrite <- ln_1. apply ln_increasing; lra. Qed.

Lemma repeat_snoc {A : Type} (x : A) (n : nat) :
  repeat x n ++ [x] = repeat x (S n).
Proof. rewrite <- repeat_cons. reflexivity. Qed.

Hypothesis uniform_open : forall g, 0 < fst (np_random_random g) < 1.

Lemma grw_zero_step_iter
    (log_target : vec R -> vec R -> matrix R -> matrix R
                  -> outcome (pyval R))
    (u0 data : vec R) (K_inverse G Kc : matrix R) (lt0 : R)
    (Xs : list (vec R)) (a : Z) (g : rng) :
  (length u0 <= length Kc)%nat ->
  log_target u0 data K_inverse G = Returns (PyFloat lt0) ->
  exists g',
    grw_iter np_random_normal np_random_random
      log_target data K_inverse G Kc 0 (Chain Xs a u0 (PyFloat lt0)) g
    = Returns (Chain (Xs ++ [u0]) (a + 1) u0 (PyFloat lt0), g').
Proof.
  intros Hlen Hlt. unfold grw_iter.
  unfold bind, draw, call. cbn [u_prev lp_prev X acc].
  destruct (np_random_normal (length u0) g) as [z g1].
  rewrite vadd_zero_scale
    by (unfold matvec; rewrite length_map; exact Hlen).
  rewrite Hlt. cbn [py_sub py_gt].
  pose proof (uniform_open g1) as HU.
  destruct (np_random_random g1) as [U g2]. cbn [fst] in HU.
  exists g2.
  replace (fltb (flog U) (fsub lt0 lt0)) with true; [reflexivity |].
  symmetry. cbn [fltb flog fsub R_FloatOps]. unfold Rltb.
  destruct (Rlt_dec (ln U) (lt0 - lt0)) as [_ | Hn]; [reflexivity |].
  exfalso. apply Hn. pose proof (ln_negative U HU). lra.
Qed.

Lemma pcn_zero_step_iter
    (log_likelihood : vec R -> vec R -> matrix R -> outcome (pyval R))
    (u0 y : vec R) (G Kc : matrix R) (ll0 : R)
    (Xs : list (vec R)) (a : Z) (g : rng) :
  (length u0 <= length Kc)%nat ->
  log_likelihood u0 y G = Returns (PyFloat ll0) ->
  exists g',
    pcn_iter np_random_normal np_random_random
      log_likelihood y G Kc 0 (Chain Xs a u0 (PyFloat ll0)) g
    = Returns (Chain (Xs ++ [u0]) (a + 1) u0 (PyFloat ll0), g').
Proof.
  intros Hlen Hll. unfold pcn_iter.
  unfold bind, draw, call. cbn [u_prev lp_prev X acc].
  destruct (np_random_normal (length u0) g) as [z g1].
  rewrite pcn_zero_step_factor, vscale_one.
  rewrite vadd_zero_scale
    by (unfold matvec; rewrite length_map; exact Hlen).
  rewrite Hll. cbn [py_sub py_gt].
  pose proof (uniform_open g1) as HU.
  destruct (np_random_random g1) as [U g2]. cbn [fst] in HU.
  exists g2.
  replace (fltb (flog U) (fsub ll0 ll0)) with true; [reflexivity |].
  symmetry. cbn [fltb flog fsub R_FloatOps]. unfold Rltb.
  destruct (Rlt_dec (ln U) (ll0 - ll0)) as [_ | Hn]; [reflexivity |].
  exfalso. apply Hn. pose proof (ln_negative U HU). lra.
Qed.

(** A loop whose body always accepts the unchanged state. *)
Lemma accepting_loop
    (body : chain R -> np rng (chain R)) (u0 : vec R) (p : pyval R) :
  (forall Xs a g, exists g',
      body (Chain Xs a u0 p) g = Returns (Chain (Xs ++ [u0]) (a + 1) u0 p, g')) ->
  forall k Xs a g,
  exists g',
    for_range k body (Chain Xs a u0 p) g
    = Returns (Chain (Xs ++ repeat u0 k) (a + Z.of_nat k) u0 p, g').
Proof.
  intros Hbody. induction k as [| k IH]; intros Xs a g.
  - exists g. cbn [for_range repeat]. unfold ret.
    rewrite app_nil_r, Z.add_0_r. reflexivity.
  - cbn [for_range]. unfold bind.
    destruct (Hbody Xs a g) as [g1 Hg1]. rewrite Hg1.
    destruct (IH (Xs ++ [u0]) (a + 1)%Z g1) as [g' Hg'].
    exists g'. rewrite Hg', <- app_assoc. cbn [app repeat].
    do 3 f_equal. lia.
Qed.

Lemma full_rate (n : Z) :
  (1 <= n)%Z -> (inject_Z n / inject_Z n == 1)%Q.
Proof.
  intros Hn. apply Qmult_inv_r.
  change 0%Q with (inject_Z 0). rewrite inject_Z_injective. lia.
Qed.

(** X19.  A zero step-size freezes the chain: with [beta = 0], uniform
    draws strictly between [0] and [1], a factor with at least as many
    rows as [u0] has entries and float-valued densities, every proposal
    of [grw] and of [pcn] is the current state, every one is accepted,
    the chain is [n_iters] copies of [u0] and the rate is one. *)
Theorem zero_step_size_freezes_chain
    (log_target : vec R -> vec R -> matrix R -> matrix R
                  -> outcome (pyval R))
    (log_likelihood : vec R -> vec R -> matrix R -> outcome (pyval R))
    (u0 data : vec R) (K G : matrix R) (n_iters : Z)
    (Kc Kc_inverse : matrix R) (lt0 ll0 : R) (g : rng) :
  (1 <= n_iters)%Z ->
  np_linalg_cholesky (jittered K) = Returns Kc ->
  np_linalg_inv Kc = Returns Kc_inverse ->
  (length u0 <= length Kc)%nat ->
  log_target u0 data (matmul (transpose Kc_inverse) Kc_inverse) G
    = Returns (PyFloat lt0) ->
  log_likelihood u0 data G = Returns (PyFloat ll0) ->
  (exists gf,
      run_grw log_target u0 data K G n_iters 0 g
      = Returns ((repeat u0 (Z.to_nat n_iters),
                  (inject_Z n_iters / inject_Z n_iters)%Q), gf))
  /\ (exists gf,
        run_pcn log_likelihood u0 data K G n_iters 0 g
        = Returns ((repeat u0 (Z.to_nat n_iters),
                    (inject_Z n_iters / inject_Z n_iters)%Q), gf))
  /\ (inject_Z n_iters / inject_Z n_iters == 1)%Q.
Proof.
  intros Hn Hc Hi Hlen Hlt Hll. split; [| split].
  - destruct (accepting_loop _ u0 (PyFloat lt0)
                (fun Xs a g0 =>
                   grw_zero_step_iter log_target u0 data _ G Kc lt0
                     Xs a g0 Hlen Hlt)
                (Z.to_nat n_iters) [] 0%Z g) as [gf Hloop].
    exists gf. unfold grw, bind, call. rewrite Hc, Hi, Hlt, Hloop.
    cbn [acc X app]. rewrite Z.add_0_l, Z2Nat.id by lia.
    rewrite int_truediv_nonzero by exact Hn. reflexivity.
  - destruct (accepting_loop _ u0 (PyFloat ll0)
                (fun Xs a g0 =>
                   pcn_zero_step_iter log_likelihood u0 data G Kc ll0
                     Xs a g0 Hlen Hll)
                (Z.to_nat n_iters) [] 0%Z g) as [gf Hloop].
    exists gf. unfold pcn, bind, call. rewrite Hc, Hi, Hll, Hloop.
    cbn [acc X app]. rewrite Z.add_0_l, Z2Nat.id by lia.
    rewrite int_truediv_nonzero by exact Hn. reflexivity.
  - apply full_rate, Hn.
Qed.
End RealSamplers.

(** ** Instances of the further properties *)

Section ExtraInstances.
Local Open Scope R_scope.

Lemma get_G_rows_witness :
  Forall (fun k => (- Z.of_nat 4 <= k < Z.of_nat 4)%Z) [3; 0; -1]%Z
  /\ get_G 4 [3; 0; -1]%Z
     = Some [one_hot 4 3; one_hot 4 0; one_hot 4 3].
Proof.
  assert (Hall : Forall (fun k => (- Z.of_nat 4 <= k < Z.of_nat 4)%Z)
                   [3; 0; -1]%Z).
  { repeat constructor; cbn; lia. }
  split; [exact Hall |].
  exact (get_G_rows 4 [3; 0; -1]%Z Hall).
Defined.

Lemma get_G_index_error_witness :
  Exists (fun k => (k < - Z.of_nat 4 \/ Z.of_nat 4 <= k)%Z) [0; 4]%Z
  /\ get_G 4 [0; 4]%Z = None.
Proof.
  assert (Hex : Exists (fun k => (k < - Z.of_nat 4 \/ Z.of_nat 4 <= k)%Z)
                  [0; 4]%Z).
  { apply Exists_cons_tl, Exists_cons_hd. right. cbn. lia. }
  split; [exact Hex |].
  exact (get_G_index_error 4 [0; 4]%Z Hex).
Defined.

Lemma get_G_selects_witness :
  Forall (fun k => (- Z.of_nat 3 <= k < Z.of_nat 3)%Z) [2; 0]%Z
  /\ length [5; 6; 7] = 3%nat
  /\ exists G,
       get_G 3 [2; 0]%Z = Some G
       /\ matvec G [5; 6; 7]
          = map (fun k => nth (Z.to_nat (k mod Z.of_nat 3)) [5; 6; 7] 0)
                [2; 0]%Z.
Proof.
  assert (Hall : Forall (fun k => (- Z.of_nat 3 <= k < Z.of_nat 3)%Z)
                   [2; 0]%Z).
  { repeat constructor; cbn; lia. }
  split; [exact Hall |]. split; [reflexivity |].
  exact (get_G_selects 3 [2; 0]%Z [5; 6; 7] Hall eq_refl).
Defined.

Lemma get_G_sums_witness :
  Forall (fun k => (0 <= k < Z.of_nat 3)%Z) [2; 0]%Z
  /\ exists G,
       get_G 3 [2; 0]%Z = Some G
       /\ length G = length [2; 0]%Z
       /\ (forall i, (i < length [2; 0]%Z)%nat ->
             length (nth i G []) = 3%nat /\ vsum (nth i G []) = 1)
       /\ (forall c, (c < 3)%nat ->
             vsum (column G c)
             = INR (count_occ Z.eq_dec [2; 0]%Z (Z.of_nat c)))
       /\ (NoDup [2; 0]%Z ->
           forall c, (c < 3)%nat -> vsum (column G c) <= 1).
Proof.
  assert (Hall : Forall (fun k => (0 <= k < Z.of_nat 3)%Z) [2; 0]%Z).
  { repeat constructor; cbn; lia. }
  split; [exact Hall |].
  exact (get_G_sums 3 [2; 0]%Z Hall).
Defined.

Lemma probit_threshold_witness :
  (1 < length [-1; 0; 2]%R)%nat
  /\ (nth 1 (probit [-1; 0; 2]) 0%Z = 1%Z <-> 0 <= nth 1 [-1; 0; 2] 0)
  /\ probit (map IZR (probit [-1; 0; 2])) = repeat 1%Z 3.
Proof.
  assert (H1 : (1 < length [-1; 0; 2]%R)%nat) by (cbn; lia).
  split; [exact H1 |].
  destruct (probit_threshold [-1; 0; 2]) as (_ & Hth & Hall).
  split; [exact (proj2 (Hth 1%nat H1)) | exact Hall].
Defined.

Lemma GaussianKernel_range_witness :
  safe_length_scale 2
  /\ (0 < length [[0; 0]; [1; 0]; [0; 0]])%nat
  /\ (2 < length [[0; 0]; [1; 0]; [0; 0]])%nat
  /\ 0 <= entry (GaussianKernel [[0; 0]; [1; 0]; [0; 0]] 2) 0 2 <= 1
  /\ nth 0 [[0; 0]; [1; 0]; [0; 0]] [] = nth 2 [[0; 0]; [1; 0]; [0; 0]] []
  /\ entry (GaussianKernel [[0; 0]; [1; 0]; [0; 0]] 2) 0 2 = 1.
Proof.
  assert (H0 : (0 < length [[0; 0]; [1; 0]; [0; 0]])%nat) by (cbn; lia).
  assert (H2 : (2 < length [[0; 0]; [1; 0]; [0; 0]])%nat) by (cbn; lia).
  assert (Hl : safe_length_scale 2).
  { apply safe_length_scale_units. rewrite Rabs_pos_eq; lra. }
  split; [exact Hl |]. split; [exact H0 |]. split; [exact H2 |].
  destruct (GaussianKernel_range [[0; 0]; [1; 0]; [0; 0]] 2 0 2 Hl H0 H2)
    as [Hr Hc].
  split; [exact Hr |]. split; [reflexivity | exact (Hc eq_refl)].
Defined.

Lemma GaussianKernel_monotone_witness :
  safe_length_scale 1 /\ safe_length_scale 2
  /\ 0 < 1 /\ 1 <= 2
  /\ (0 < length [[0; 0]; [1; 0]])%nat
  /\ (1 < length [[0; 0]; [1; 0]])%nat
  /\ entry (GaussianKernel [[0; 0]; [1; 0]] 1) 0 1
     <= entry (GaussianKernel [[0; 0]; [1; 0]] 2) 0 1.
Proof.
  assert (H0 : (0 < length [[0; 0]; [1; 0]])%nat) by (cbn; lia).
  assert (H1 : (1 < length [[0; 0]; [1; 0]])%nat) by (cbn; lia).
  assert (Ha : 0 < 1) by lra. assert (Hb : 1 <= 2) by lra.
  assert (Hl1 : safe_length_scale 1)
    by (apply safe_length_scale_units; rewrite Rabs_R1; lra).
  assert (Hl2 : safe_length_scale 2).
  { apply safe_length_scale_units. rewrite Rabs_pos_eq; lra. }
  split; [exact Hl1 |]. split; [exact Hl2 |].
  split; [exact Ha |]. split; [exact Hb |].
  split; [exact H0 |]. split; [exact H1 |].
  exact (GaussianKernel_monotone [[0; 0]; [1; 0]] 1 2 0 1
           Hl1 Hl2 Ha Hb H0 H1).
Defined.

Lemma unit_quadratic_form : dot (vecmat [1] [[1]]) [1] = 1.
Proof.
  cbv [dot vecmat transpose column ncols vsum zip_with
       hd length seq map nth combine fold_left fst snd
       f_lit fadd fmul R_FloatOps].
  rewrite Q2R_zero. ring.
Qed.

Lemma log_prior_along_ray_witness :
  0 <= dot (vecmat [1] [[1]]) [1]
  /\ 0 <= 1 <= 2
  /\ exists ps pt,
       log_prior (vscale 1 [1]) [[1]] = Returns (PyFloat ps)
       /\ log_prior (vscale 2 [1]) [[1]] = Returns (PyFloat pt)
       /\ pt - ps = - (1 / 2) * (2 ^ 2 - 1 ^ 2) * dot (vecmat [1] [[1]]) [1]
       /\ pt <= ps.
Proof.
  assert (Hq : 0 <= dot (vecmat [1] [[1]]) [1])
    by (rewrite unit_quadratic_form; lra).
  assert (Hst : 0 <= 1 <= 2) by lra.
  split; [exact Hq |]. split; [exact Hst |].
  exact (log_prior_along_ray [1] [[1]] 1 2 Hq Hst).
Defined.

Lemma observed_first_entry : matvec [[1; 0]] [3; 5] = [3].
Proof.
  cbv [matvec dot vsum zip_with map combine fold_left fst snd
       f_lit fadd fmul R_FloatOps].
  rewrite Q2R_zero. f_equal. ring.
Qed.

(** [log_continuous_likelihood_bound] for a field of two entries whose
    first entry is observed, at a perfect fit. *)
Lemma log_continuous_likelihood_bound_witness :
  length [[1; 0]] = length [3]
  /\ Forall (fun row => length row = length [3; 5]) [[1; 0]]
  /\ matvec [[1; 0]] [3; 5] = [3]
  /\ exists x,
       log_continuous_likelihood [3; 5] [3] [[1; 0]] = Returns (PyFloat x)
       /\ x <= - INR (length [3]) / 2 * ln (2 * PI)
       /\ x = - INR (length [3]) / 2 * ln (2 * PI).
Proof.
  assert (Hrows : Forall (fun row => length row = length [3; 5]) [[1; 0]])
    by (repeat constructor).
  split; [reflexivity |]. split; [exact Hrows |].
  split; [exact observed_first_entry |].
  destruct (log_continuous_likelihood_bound [3; 5] [3] [[1; 0]]
              eq_refl Hrows)
    as (x & Hx & Hle & Hfit).
  exists x. split; [exact Hx |]. split; [exact Hle |].
  exact (Hfit observed_first_entry).
Defined.

Lemma log_continuous_target_difference_witness :
  length [0] = length [1]
  /\ exists a b,
       log_continuous_target [0] [0] [[1]] [[1]] = Returns (PyFloat a)
       /\ log_continuous_target [1] [0] [[1]] [[1]] = Returns (PyFloat b)
       /\ a - b
          = - (1 / 2) * (dot (vecmat [0] [[1]]) [0]
                         - dot (vecmat [1] [[1]]) [1])
            - 1 / 2 * (vsum (map (fun x => x ^ 2)
                               (vsub [0] (matvec [[1]] [0])))
                       - vsum (map (fun x => x ^ 2)
                                 (vsub [0] (matvec [[1]] [1])))).
Proof.
  split; [reflexivity |].
  exact (log_continuous_target_difference [0] [1] [0] [[1]] [[1]] eq_refl).
Defined.
End ExtraInstances.

(** ** Runs that depend on float64

    A decimal literal such as [1e-200] denotes the nearest double, as it
    does in Python. *)

Module Float64Runs.
Import PrimFloat.
Local Open Scope float_scope.
#[local] Set Warnings "-inexact-float".

(** [subsample_seed_truthiness] with seed [7] on the counter generator:
    [10 / 2.5] is [4.0], and the four indices are drawn from the state
    that the seed sets. *)
Lemma subsample_seed_truthiness_witness :
  Float64.ge_one (Float64.FloatNum 2.5) = true
  /\ Float64.truediv 10 (Float64.FloatNum 2.5) = Returns 4
  /\ Float64.int_of_ceil 4 = Returns 4%Z
  /\ 7%Z <> 0%Z
  /\ (0 <= 7 < 2 ^ 32)%Z
  /\ subsample counter_seeded counter_choice 10 (Float64.FloatNum 2.5)
       (Some 7%Z) 0%Z
     = counter_choice 10 4 (counter_seeded 7).
Proof.
  assert (H7 : 7%Z <> 0%Z) by discriminate.
  assert (Hr : (0 <= 7 < 2 ^ 32)%Z) by (split; [discriminate | reflexivity]).
  assert (Hf : Float64.ge_one (Float64.FloatNum 2.5) = true)
    by (vm_compute; reflexivity).
  assert (Hq : Float64.truediv 10 (Float64.FloatNum 2.5) = Returns 4)
    by (vm_compute; reflexivity).
  assert (Hm : Float64.int_of_ceil 4 = Returns 4%Z)
    by (vm_compute; reflexivity).
  split; [exact Hf |]. split; [exact Hq |]. split; [exact Hm |].
  split; [exact H7 |]. split; [exact Hr |].
  exact (proj1 (proj2 (proj2 subsample_seed_truthiness))
           Z counter_seeded counter_choice 10%Z (Float64.FloatNum 2.5)
           4 4%Z 7%Z 0%Z Hf Hq Hm H7 Hr).
Defined.

(** [subsample_outcomes] at [N = 4] and the float [4 / 3], seed [7]: the
    quotient is rounded to [3.0], so three indices are asked for, and they
    are drawn from the seeded state. *)
Lemma subsample_outcomes_witness :
  Float64.ge_one (Float64.FloatNum (4 / 3)) = true
  /\ Float64.truediv 4 (Float64.FloatNum (4 / 3)) = Returns 3
  /\ Float64.int_of_ceil 3 = Returns 3%Z
  /\ 7%Z <> 0%Z
  /\ (0 <= 7 < 2 ^ 32)%Z
  /\ subsample counter_seeded counter_choice 4 (Float64.FloatNum (4 / 3))
       (Some 7%Z) 0%Z
     = counter_choice 4 3 (counter_seeded 7).
Proof.
  assert (H7 : 7%Z <> 0%Z) by discriminate.
  assert (Hr : (0 <= 7 < 2 ^ 32)%Z) by (split; [discriminate | reflexivity]).
  assert (Hf : Float64.ge_one (Float64.FloatNum (4 / 3)) = true)
    by (vm_compute; reflexivity).
  assert (Hq : Float64.truediv 4 (Float64.FloatNum (4 / 3)) = Returns 3)
    by (vm_compute; reflexivity).
  assert (Hm : Float64.int_of_ceil 3 = Returns 3%Z)
    by (vm_compute; reflexivity).
  split; [exact Hf |]. split; [exact Hq |]. split; [exact Hm |].
  split; [exact H7 |]. split; [exact Hr |].
  exact (proj1 (proj2 (proj2 (proj2 (proj2
           (subsample_outcomes Z counter_seeded counter_choice 4%Z
              (Float64.FloatNum (4 / 3)) (Some 7%Z) 0%Z) Hf)
           3 Hq) 3%Z Hm)) 7%Z eq_refl H7 Hr).
Defined.

(** [int(np.ceil(q))] is the exact ceiling of the finite float
    [(-1)^s m 2^e]. *)
Lemma int_of_ceil_exact (q : float) (s : bool) (m : positive) (e : Z) :
  FloatOps.Prim2SF q = SpecFloat.S754_finite s m e ->
  exists c,
    Float64.int_of_ceil q = Returns c
    /\ ((0 <= e)%Z -> c = (SpecFloat.cond_Zopp s (Zpos m) * 2 ^ e)%Z)
    /\ ((e < 0)%Z ->
        ((c - 1) * 2 ^ (- e) < SpecFloat.cond_Zopp s (Zpos m)
         <= c * 2 ^ (- e))%Z).
Proof.
  intros Hq. unfold Float64.int_of_ceil. rewrite Hq.
  set (a := SpecFloat.cond_Zopp s (Zpos m)).
  eexists. split; [reflexivity |]. split.
  - intros He. apply Z.leb_le in He. rewrite He. reflexivity.
  - intros He.
    assert (Hb : (0 <=? e)%Z = false) by (apply Z.leb_gt; exact He).
    rewrite Hb.
    assert (Hd : (0 < 2 ^ (- e))%Z) by (apply Z.pow_pos_nonneg; lia).
    set (d := (2 ^ (- e))%Z) in *.
    pose proof (Z.mul_div_le (- a) d Hd) as Hlo.
    pose proof (Z.mul_succ_div_gt (- a) d Hd) as Hhi.
    set (k := (- a / d)%Z) in *. split; nia.
Qed.

(** X13.  The size that [subsample] asks for is the exact ceiling of the
    float64 quotient [N / factor], not of the exact quotient: when the
    assertion passes and the quotient is the finite float [(-1)^s m 2^e],
    an unseeded call draws [c] indices with [c] the least integer not
    below that float.  So [10 / 3] gives four indices; the float [4 / 3]
    lies below four thirds (three times it is less than four), yet
    [4 / (4 / 3)] is rounded to [3.0] and three indices are asked for; an
    infinite factor passes the assertion and asks for none, a NaN factor
    fails the assertion, and factor [1] asks for all [N]. *)
Theorem subsample_size_is_rounded :
  (forall (rng : Type) (seeded : Z -> rng)
          (np_random_choice : Z -> Z -> np rng (list Z))
          (N : Z) (factor : Float64.number) (q : float)
          (s : bool) (m : positive) (e : Z) (g : rng),
      Float64.ge_one factor = true ->
      Float64.truediv N factor = Returns q ->
      FloatOps.Prim2SF q = SpecFloat.S754_finite s m e ->
      exists c,
        subsample seeded np_random_choice N factor None g
        = np_random_choice N c g
        /\ ((0 <= e)%Z -> c = (SpecFloat.cond_Zopp s (Zpos m) * 2 ^ e)%Z)
        /\ ((e < 0)%Z ->
            ((c - 1) * 2 ^ (- e) < SpecFloat.cond_Zopp s (Zpos m)
             <= c * 2 ^ (- e))%Z))
  /\ subsample counter_seeded counter_choice 10 (Float64.IntNum 3) None 0%Z
     = Returns ([0; 1; 2; 3]%Z, 1%Z)
  /\ FloatOps.Prim2SF (4 / 3)
     = SpecFloat.S754_finite false 6004799503160661 (-52)
  /\ (3 * 6004799503160661 < 4 * 2 ^ 52)%Z
  /\ Float64.truediv 4 (Float64.FloatNum (4 / 3)) = Returns 3
  /\ subsample counter_seeded counter_choice 4 (Float64.FloatNum (4 / 3))
       None 0%Z
     = Returns ([0; 1; 2]%Z, 1%Z)
  /\ subsample counter_seeded counter_choice 4 (Float64.FloatNum infinity)
       None 0%Z
     = Returns ([], 1%Z)
  /\ subsample counter_seeded counter_choice 4 (Float64.FloatNum nan)
       None 0%Z
     = Raises AssertionError
  /\ subsample counter_seeded counter_choice 4 (Float64.IntNum 1) None 0%Z
     = Returns ([0; 1; 2; 3]%Z, 1%Z).
Proof.
  split; [| repeat split; vm_compute; reflexivity].
  intros rng seeded choice N factor q s m e g Hf Hq Hsf.
  destruct (int_of_ceil_exact q s m e Hsf) as (c & Hc & Hge & Hlt).
  exists c. split; [| split; assumption].
  exact (subsample_unseeded rng seeded choice N factor q c None g
           Hf Hq Hc eq_refl).
Qed.

(** [subsample_size_is_rounded] at [N = 10] and the float [4.0]: the
    quotient is [2.5], that is [5629499534213120 * 2^-51], and three
    indices are drawn. *)
Lemma subsample_size_is_rounded_witness :
  Float64.ge_one (Float64.FloatNum 4) = true
  /\ Float64.truediv 10 (Float64.FloatNum 4) = Returns 2.5
  /\ FloatOps.Prim2SF 2.5
     = SpecFloat.S754_finite false 5629499534213120 (-51)
  /\ exists c,
       subsample counter_seeded counter_choice 10 (Float64.FloatNum 4)
         None 0%Z
       = counter_choice 10 c 0%Z
       /\ ((c - 1) * 2 ^ 51 < 5629499534213120 <= c * 2 ^ 51)%Z
       /\ c = 3%Z.
Proof.
  assert (Hf : Float64.ge_one (Float64.FloatNum 4) = true)
    by (vm_compute; reflexivity).
  assert (Hq : Float64.truediv 10 (Float64.FloatNum 4) = Returns 2.5)
    by (vm_compute; reflexivity).
  assert (Hsf : FloatOps.Prim2SF 2.5
                = SpecFloat.S754_finite false 5629499534213120 (-51))
    by (vm_compute; reflexivity).
  split; [exact Hf |]. split; [exact Hq |]. split; [exact Hsf |].
  destruct (proj1 subsample_size_is_rounded Z counter_seeded counter_choice
              10%Z (Float64.FloatNum 4) 2.5 false 5629499534213120%positive
              (-51)%Z 0%Z Hf Hq Hsf)
    as (c & Hrun & _ & Hlt).
  exists c. split; [exact Hrun |].
  assert (Hb : ((c - 1) * 2 ^ 51 < 5629499534213120 <= c * 2 ^ 51)%Z)
    by (apply Hlt; reflexivity).
  split; [exact Hb |].
  change (2 ^ 51)%Z with 2251799813685248%Z in Hb. lia.
Defined.

(** [GaussianKernel_entries] on two points of the plane, [l = 1], over
    the reals and in float64. *)
Lemma GaussianKernel_entries_witness :
  safe_length_scale 1
  /\ (0 < length [[0; 0]; [1; 0]]%R)%nat
  /\ (1 < length [[0; 0]; [1; 0]]%R)%nat
  /\ entry (GaussianKernel [[0; 0]; [1; 0]]%R 1) 0 1
     = exp (- euclidean [0; 0] [1; 0] ^ 2 / (2 * 1 ^ 2))%R
  /\ entry (GaussianKernel [[0; 0]; [1; 0]]%R 1) 0 0
     = 1%R
  /\ Float64.denominator 1 = Returns 2
  /\ Float64.positive 2 = true
  /\ (0 < length [[0; 0]; [1; 0]])%nat
  /\ (1 < length [[0; 0]; [1; 0]])%nat
  /\ forallb Float64.finite (nth 0 [[0; 0]; [1; 0]] []) = true
  /\ (forall np_exp : float -> float,
        exists K,
          Float64.GaussianKernel np_exp [[0; 0]; [1; 0]] 1 = Returns K
          /\ Float64.entry K 0 1 = Float64.entry K 1 0
          /\ Float64.entry K 0 0 = np_exp neg_zero).
Proof.
  assert (Hl : safe_length_scale 1)
    by (apply safe_length_scale_units; rewrite Rabs_R1; lra).
  assert (H0 : (0 < length [[0; 0]; [1; 0]]%R)%nat) by (cbn; lia).
  assert (H1 : (1 < length [[0; 0]; [1; 0]]%R)%nat) by (cbn; lia).
  assert (Hc : Float64.denominator 1 = Returns 2)
    by (vm_compute; reflexivity).
  assert (Hp : Float64.positive 2 = true) by (vm_compute; reflexivity).
  assert (F0 : (0 < length [[0; 0]; [1; 0]])%nat) by (cbn; lia).
  assert (F1 : (1 < length [[0; 0]; [1; 0]])%nat) by (cbn; lia).
  assert (Hf : forallb Float64.finite (nth 0 [[0; 0]; [1; 0]] []) = true)
    by (vm_compute; reflexivity).
  split; [exact Hl |]. split; [exact H0 |]. split; [exact H1 |].
  destruct (proj1 GaussianKernel_entries [[0; 0]; [1; 0]]%R 1%R
              0%nat 1%nat Hl H0 H1) as (He & _ & Hd & _).
  split; [exact He |]. split; [exact Hd |].
  split; [exact Hc |]. split; [exact Hp |].
  split; [exact F0 |]. split; [exact F1 |]. split; [exact Hf |].
  intros np_exp.
  destruct (proj2 GaussianKernel_entries np_exp [[0; 0]; [1; 0]] 1 2
              0%nat 1%nat Hc Hp F0 F1 Hf)
    as (K & HK & _ & _ & _ & Hs & Hd').
  exists K. split; [exact HK |]. split; [exact Hs | exact Hd'].
Defined.

(** The float64 kernel of the two points [(0, 0)] and [(1, 0)] at
    [l = 1]: the exponents are [-0.0] on the diagonal and [-0.5] off
    it. *)
Example GaussianKernel_two_points (np_exp : float -> float) :
  Float64.GaussianKernel np_exp [[0; 0]; [1; 0]] 1
  = Returns [[np_exp (-0); np_exp (-0.5)]; [np_exp (-0.5); np_exp (-0)]].
Proof. vm_compute. reflexivity. Qed.

(** C8 fails on the code.  [1e-200] is a positive length-scale, but its
    square is rounded to zero: the exponent of the diagonal entry is
    [-0.0 / 0.0], a NaN, and the exponential of a NaN is a NaN, not [1].
    [1e200] is a positive length-scale whose square is beyond the largest
    double: [pow] raises [OverflowError] and no matrix is returned. *)
Lemma GaussianKernel_extreme_length_scales :
  (0 <? 1e-200) = true
  /\ 1e-200 * 1e-200 = 0
  /\ Float64.exponents [[0]] 1e-200 = Returns [[nan]]
  /\ (forall np_exp : float -> float,
        np_exp nan = nan ->
        Float64.GaussianKernel np_exp [[0]] 1e-200 = Returns [[nan]])
  /\ (Float64.entry [[nan]] 0 0 =? 1) = false
  /\ (0 <? 1e200) = true
  /\ is_infinity (1e200 * 1e200) = true
  /\ Float64.exponents [[0]] 1e200 = Raises OverflowError
  /\ (forall np_exp : float -> float,
        Float64.GaussianKernel np_exp [[0]] 1e200 = Raises OverflowError).
Proof.
  repeat match goal with |- _ /\ _ => split end;
    try (intros np_exp); try (vm_compute; reflexivity).
  intros Hnan.
  change (Float64.GaussianKernel np_exp [[0]] 1e-200)
    with (Returns [[np_exp nan]] : outcome (list (list float))).
  rewrite Hnan. reflexivity.
Qed.
End Float64Runs.

Section SamplerInstances.
Local Open Scope R_scope.

Lemma samplers_negative_iterations_witness :
  (-3 < 0)%Z
  /\ cholesky (jittered one_K) = Returns one_Kc
  /\ inv one_Kc = Returns one_Kc_inverse
  /\ grw_R log_continuous_target one_u0 one_y one_K one_G (-3) (1 / 2) []
     = Returns (([], (inject_Z 0 / inject_Z (-3))%Q), [])
  /\ pcn_R log_continuous_likelihood one_u0 one_y one_K one_G (-3)
       (1 / 2) []
     = Returns (([], (inject_Z 0 / inject_Z (-3))%Q), []).
Proof.
  split; [lia |]. split; [exact one_cholesky |]. split; [exact one_inv |].
  destruct (samplers_negative_iterations tape tape_normal tape_random
              cholesky inv (vec R)
              log_continuous_target log_continuous_likelihood
              one_u0 one_y one_K one_G (-3) (1 / 2)
              one_Kc one_Kc_inverse _ _ []
              ltac:(lia) one_cholesky one_inv eq_refl eq_refl)
    as (Hg & Hp & _).
  split; [exact Hg | exact Hp].
Defined.

Lemma samplers_propagate_density_errors_witness :
  cholesky (jittered one_K) = Returns one_Kc
  /\ inv one_Kc = Returns one_Kc_inverse
  /\ log_poisson_target one_u0 one_y one_K_inverse one_G = Raises TypeError
  /\ grw_R log_poisson_target one_u0 one_y one_K one_G 5 (1 / 2) []
     = Raises TypeError.
Proof.
  assert (Ht : log_poisson_target one_u0 one_y
                 (matmul (transpose one_Kc_inverse) one_Kc_inverse) one_G
               = Raises TypeError) by reflexivity.
  split; [exact one_cholesky |]. split; [exact one_inv |].
  split; [exact Ht |].
  exact (proj1 (samplers_propagate_density_errors tape tape_normal
                  tape_random cholesky inv (vec R)
                  log_poisson_target log_poisson_likelihood
                  one_u0 one_y one_K one_G 5 (1 / 2)
                  one_Kc one_Kc_inverse TypeError []
                  one_cholesky one_inv) Ht).
Defined.

(** [zero_rate_chain_is_constant] on the run of [grw] whose only
    proposal is rejected: the rate is [0] and the chain is [u0]. *)
Lemma zero_rate_chain_is_constant_witness :
  (1 <= 1)%Z
  /\ cholesky (jittered one_K) = Returns one_Kc
  /\ inv one_Kc = Returns one_Kc_inverse
  /\ grw_R log_continuous_target one_u0 one_y one_K one_G 1 1 [1; 1 / 2]
     = Returns (([[0]], 0%Q), [])
  /\ (0 == 0)%Q
  /\ [[0]] = repeat one_u0 (Z.to_nat 1).
Proof.
  assert (Hrate : (0 == 0)%Q) by reflexivity.
  split; [lia |]. split; [exact one_cholesky |]. split; [exact one_inv |].
  split; [exact grw_rejection_run |]. split; [exact Hrate |].
  exact (proj1 (zero_rate_chain_is_constant tape tape_normal tape_random
                  cholesky inv (vec R)
                  log_continuous_target log_continuous_likelihood
                  one_u0 one_y one_K one_G 1 1
                  one_Kc one_Kc_inverse [1; 1 / 2]
                  ltac:(lia) one_cholesky one_inv
                  one_target_float one_likelihood_float)
           [[0]] 0%Q [] grw_rejection_run Hrate).
Defined.

Lemma longer_run_extends_chain_witness :
  (1 <= 2)%Z
  /\ cholesky (jittered one_K) = Returns one_Kc
  /\ inv one_Kc = Returns one_Kc_inverse
  /\ (exists X1 r1 g1 u r2 g2,
        grw_R log_continuous_target one_u0 one_y one_K one_G 2 (1 / 2) []
          = Returns ((X1, r1), g1)
        /\ grw_R log_continuous_target one_u0 one_y one_K one_G (2 + 1)
             (1 / 2) []
           = Returns ((X1 ++ [u], r2), g2)).
Proof.
  split; [lia |]. split; [exact one_cholesky |]. split; [exact one_inv |].
  exact (proj1 (longer_run_extends_chain tape tape_normal tape_random
                  cholesky inv (vec R)
                  log_continuous_target log_continuous_likelihood
                  one_u0 one_y one_K one_G 2 (1 / 2)
                  one_Kc one_Kc_inverse []
                  ltac:(lia) one_cholesky one_inv
                  one_target_float one_likelihood_float)).
Defined.

Lemma unfinished_models_cannot_be_sampled_witness :
  cholesky (jittered one_K) = Returns one_Kc
  /\ inv one_Kc = Returns one_Kc_inverse
  /\ (1 <= 4)%Z
  /\ grw_R (log_probit_target (fun _ => 1 / 2)) one_u0 one_y one_K one_G
       4 (1 / 2) []
     = Raises TypeError
  /\ pcn_R log_poisson_likelihood one_u0 one_y one_K one_G 4 (1 / 2) []
     = Raises TypeError.
Proof.
  assert (H4 : (1 <= 4)%Z) by lia.
  split; [exact one_cholesky |]. split; [exact one_inv |].
  split; [exact H4 |].
  destruct (unfinished_models_cannot_be_sampled tape tape_normal
              tape_random cholesky inv (fun _ => 1 / 2)
              one_u0 one_y one_K one_G 4 (1 / 2)
              one_Kc one_Kc_inverse [] one_cholesky one_inv)
    as (Hg & _ & Hp).
  split; [exact Hg | exact (proj2 (Hp H4))].
Defined.

Lemma steady_uniform_open (g : unit) : 0 < fst (steady_random g) < 1.
Proof. cbn. lra. Qed.

(** [pcn_does_not_validate_beta] at [beta = 1], two iterations. *)
Lemma pcn_does_not_validate_beta_witness :
  -1 <= 1 <= 1
  /\ ~ (0 < 1 < 1)
  /\ (1 <= 2)%Z
  /\ cholesky (jittered one_K) = Returns one_Kc
  /\ inv one_Kc = Returns one_Kc_inverse
  /\ (exists ll0 sf gf,
         iterate
           (pcn_step_spec steady_normal steady_random
              log_continuous_likelihood one_y one_G one_Kc 1)
           (Z.to_nat 2) (Chain [] 0 one_u0 (PyFloat ll0), tt) (sf, gf)
         /\ pcn steady_normal steady_random cholesky inv
              log_continuous_likelihood one_u0 one_y one_K one_G 2 1 tt
            = Returns ((X sf, (inject_Z (acc sf) / inject_Z 2)%Q), gf)
         /\ ~ raised (pcn steady_normal steady_random cholesky inv
                        log_continuous_likelihood one_u0 one_y one_K one_G
                        2 1 tt)
         /\ length (X sf) = Z.to_nat 2).
Proof.
  assert (Hb : -1 <= 1 <= 1) by lra.
  split; [exact Hb |]. split; [lra |]. split; [lia |].
  split; [exact one_cholesky |]. split; [exact one_inv |].
  exact (pcn_does_not_validate_beta unit steady_normal steady_random
           cholesky inv log_continuous_likelihood
           one_u0 one_y one_K one_G 2 1 one_Kc one_Kc_inverse tt
           Hb ltac:(lia) one_cholesky one_inv one_likelihood_float
           steady_uniform_open).
Defined.

Lemma zero_step_size_freezes_chain_witness :
  (1 <= 3)%Z
  /\ cholesky (jittered one_K) = Returns one_Kc
  /\ inv one_Kc = Returns one_Kc_inverse
  /\ (length one_u0 <= length one_Kc)%nat
  /\ (exists gf,
        grw steady_normal steady_random cholesky inv
          log_continuous_target one_u0 one_y one_K one_G 3 0 tt
        = Returns ((repeat one_u0 (Z.to_nat 3),
                    (inject_Z 3 / inject_Z 3)%Q), gf))
  /\ (exists gf,
        pcn steady_normal steady_random cholesky inv
          log_continuous_likelihood one_u0 one_y one_K one_G 3 0 tt
        = Returns ((repeat one_u0 (Z.to_nat 3),
                    (inject_Z 3 / inject_Z 3)%Q), gf)).
Proof.
  assert (Hlen : (length one_u0 <= length one_Kc)%nat) by (cbn; lia).
  split; [lia |]. split; [exact one_cholesky |]. split; [exact one_inv |].
  split; [exact Hlen |].
  destruct (zero_step_size_freezes_chain unit steady_normal steady_random
              cholesky inv steady_uniform_open
              log_continuous_target log_continuous_likelihood
              one_u0 one_y one_K one_G 3 one_Kc one_Kc_inverse _ _ tt
              ltac:(lia) one_cholesky one_inv Hlen eq_refl eq_refl)
    as (Hg & Hp & _).
  split; [exact Hg | exact Hp].
Defined.
End SamplerInstances.

(** X20.  With the matrix of [get_G] as observation matrix, the Gaussian
    log-likelihood compares each datum with the field value at its index:
    it is [-1/2 sum_i (v_i - u[idx_i])^2 - (n/2) log(2 pi)]. *)
Theorem log_continuous_likelihood_at_indices
    (N : nat) (idx : list Z) (u v : vec R) :
  Forall (fun k => (- Z.of_nat N <= k < Z.of_nat N)%Z) idx ->
  length u = N ->
  exists G,
    get_G N idx = Some G
    /\ log_continuous_likelihood u v G
       = Returns (PyFloat
           (- (1 / 2)
              * fold_right Rplus 0
                  (map (fun p =>
                          (fst p
                           - nth (Z.to_nat (snd p mod Z.of_nat N)) u 0) ^ 2)
                       (combine v idx))
            - INR (length v) / 2 * ln (2 * PI)))%R.
Proof.
  intros Hall Hu.
  destruct (get_G_matvec N idx u Hall Hu) as (G & HG & Hsel).
  exists G. split; [exact HG |].
  rewrite likelihood_value, Hsel.
  assert (E : forall (f : Z -> R) (w : vec R) (ks : list Z),
             map (fun p => (fst p - snd p) ^ 2)%R (combine w (map f ks))
             = map (fun p => (fst p - f (snd p)) ^ 2)%R (combine w ks)).
  { intros f w. induction w as [| x w IH]; intros [| k ks];
      cbn [map combine fst snd]; try reflexivity.
    rewrite IH. reflexivity. }
  rewrite E. reflexivity.
Qed.

Lemma log_continuous_likelihood_at_indices_witness :
  Forall (fun k => (- Z.of_nat 3 <= k < Z.of_nat 3)%Z) [2; 0]%Z
  /\ length [5; 6; 7]%R = 3%nat
  /\ exists G,
       get_G 3 [2; 0]%Z = Some G
       /\ log_continuous_likelihood [5; 6; 7]%R [7; 4]%R G
          = Returns (PyFloat
              (- (1 / 2)
                 * fold_right Rplus 0
                     (map (fun p =>
                             (fst p
                              - nth (Z.to_nat (snd p mod Z.of_nat 3))
                                  [5; 6; 7] 0) ^ 2)
                          (combine [7; 4] [2; 0]%Z))
               - INR (length [7; 4]%R) / 2 * ln (2 * PI)))%R.
Proof.
  assert (Hall : Forall (fun k => (- Z.of_nat 3 <= k < Z.of_nat 3)%Z)
                   [2; 0]%Z).
  { repeat constructor; cbn; lia. }
  split; [exact Hall |]. split; [reflexivity |].
  exact (log_continuous_likelihood_at_indices 3 [2; 0]%Z
           [5; 6; 7]%R [7; 4]%R Hall eq_refl).
Defined.
